(** * FloPy example notebooks: an embedding of the two notebooks

    The material is two Jupyter notebooks kept in one source file:

    - the MT3D-USGS notebook (SFR/LAK/UZF with SFT/LKT/UZT), first document;
    - the MODFLOW-USG notebook (Zaidel's stairway problem), second document.

    The notebooks are scripts.  Their data algorithms (the three [for] loops
    that fill [sp], [bdlknc_lyr1] and [botm]) are embedded as functions over
    the values the loops touch; the scripts themselves are embedded cell by
    cell in a state-and-exception monad over the kernel namespace, the file
    system and the log of calls that leave the notebook.

    Python [int] is [Z].  Python [float] is read as an exact rational [Q]:
    rounding is not modelled.  The floats the loops of the lake cell and of
    the stairway compute with are small integers (0, 1, 5, 10, 15, 20, 25),
    where binary64 arithmetic is exact.  The theorems on cell centres, on
    the grid and on the stages of the boundary are about this reading: they
    state the values in the rationals and say nothing about rounding. *)

From Stdlib Require Import ZArith QArith Qround Lia.
From stdpp Require Import base gmap sets list strings.

Open Scope Z_scope.

(** ** Python and numpy basics *)

(** A number held in a Python list: [int] or [float]. *)
Inductive num :=
| Int (z : Z)
| Float (q : Q).

(** [for x in xs: body] over a state that the body updates. *)
Definition for_ {S A : Type} (xs : list A) (body : A → S → S) (s : S) : S :=
  fold_left (λ s x, body x s) xs s.

(** [for x in xs: body] where the body may raise ([None]). *)
Fixpoint for_opt {S A : Type} (xs : list A) (body : A → S → option S) (s : S)
  : option S :=
  match xs with
  | [] => Some s
  | x :: xs' =>
      match body x s with
      | Some s' => for_opt xs' body s'
      | None => None
      end
  end.

(** [np.arange(start, stop, step)] for a positive step (the only use). *)
Definition np_arange (start stop step : Z) : list Z :=
  (λ n, start + step * n) <$> seqZ 0 ((stop - start + step - 1) `div` step).

(** [range(n)]. *)
Definition range (n : Z) : list Z := seqZ 0 n.

(** numpy's resolution of one integer index on an axis of length [n]:
    a negative index counts from the end, anything outside [-n, n) is an
    [IndexError] ([None]). *)
Definition np_index (n : nat) (i : Z) : option nat :=
  if bool_decide (0 ≤ i < Z.of_nat n) then Some (Z.to_nat i)
  else if bool_decide (- Z.of_nat n ≤ i < 0) then Some (Z.to_nat (i + Z.of_nat n))
  else None.

(** A two-dimensional float array: rows of equal length. *)
Abbreviation ndarray2 := (list (list Q)).

(** [a.shape[0]] and [a.shape[1]]. *)
Definition shape0 (a : ndarray2) : Z := Z.of_nat (length a).
Definition shape1 (a : ndarray2) : Z :=
  match a with
  | [] => 0
  | r :: _ => Z.of_nat (length r)
  end.

(** Every row has [nc] columns. *)
Definition rect (nc : nat) (a : ndarray2) : Prop :=
  Forall (λ r, length r = nc) a.

(** [a[i, j]]. *)
Definition getitem2 (a : ndarray2) (i j : Z) : option Q :=
  i' ← np_index (length a) i;
  r ← a !! i';
  j' ← np_index (length r) j;
  r !! j'.

(** [a[i, j] = v]. *)
Definition setitem2 (a : ndarray2) (i j : Z) (v : Q) : option ndarray2 :=
  i' ← np_index (length a) i;
  r ← a !! i';
  j' ← np_index (length r) j;
  Some (<[i' := <[j' := v]> r]> a).

(** A three-dimensional float array. *)
Abbreviation ndarray3 := (list (list (list Q))).

(** [v * np.ones((n0, n1, n2))]. *)
Definition np_full3 (n0 n1 n2 : nat) (v : Q) : ndarray3 :=
  replicate n0 (replicate n1 (replicate n2 v)).

(** [a[l, i, j]]. *)
Definition getitem3 (a : ndarray3) (l i j : Z) : option Q :=
  l' ← np_index (length a) l;
  lay ← a !! l';
  getitem2 lay i j.

(** [a[l, :, j] = v]: column [j] of every row of layer [l]. *)
Definition setitem3_col (a : ndarray3) (l j : Z) (v : Q) : option ndarray3 :=
  l' ← np_index (length a) l;
  lay ← a !! l';
  lay' ← mapM (λ r, j' ← np_index (length r) j; Some (<[j' := v]> r)) lay;
  Some (<[l' := lay']> a).

(** Shapes and contents of two-dimensional arrays. *)
Definition has_shape (nr nc : nat) (a : ndarray2) : Prop :=
  length a = nr ∧ rect nc a.

Definition in_range (nr nc : nat) (i j : Z) : Prop :=
  0 ≤ i < Z.of_nat nr ∧ 0 ≤ j < Z.of_nat nc.

(** Every entry is 0 or 1. *)
Definition binary (a : ndarray2) : Prop :=
  Forall (Forall (λ x, x = 0%Q ∨ x = 1%Q)) a.

#[global] Instance Q_eq_dec : EqDecision Q.
Proof. solve_decision. Defined.

#[global] Instance num_eq_dec : EqDecision num.
Proof. solve_decision. Defined.

(** ** The kernel a notebook runs in

    A notebook is a script run top to bottom in one Python process.  Its
    state is the global namespace, the part of the file system its own [os]
    calls touch, and a log of the calls that leave the notebook: imports,
    calls into numpy, pandas, matplotlib and flopy, and through flopy the
    external solver.  What such a call returns is opaque; whether it raises
    is decided by the environment ([lib_raises]).  The files that the
    library and the solver write are not tracked. *)

(** Values bound to names.  A [str] used as a path is kept by components;
    [VOther] is a value whose content the model does not follow (a list or
    dict display, the result of arithmetic on arrays). *)
Inductive pyval :=
| VNone
| VInt (z : Z)
| VFloat (q : Q)
| VStr (s : string)
| VPath (p : list string)
| VOther
| VObj (made_by : string).

#[global] Instance pyval_eq_dec : EqDecision pyval.
Proof. solve_decision. Defined.

(** A bound value, with a mark that says whether a [for] loop of the
    notebook has written into it (or into a value it was made from). *)
Record binding := Binding { value : pyval; loop_built : bool }.

#[global] Instance binding_eq_dec : EqDecision binding.
Proof. solve_decision. Defined.

Inductive exn :=
| NameError (x : string)
| TypeError
| FileExistsError (p : list string)
| FileNotFoundError (p : list string)
| NotADirectoryError (p : list string)
| IsADirectoryError (p : list string)
| LibraryError (callee : string).

#[global] Instance exn_eq_dec : EqDecision exn.
Proof. solve_decision. Defined.

(** One logged call: what was called, with which arguments, and whether it
    raised. *)
Record entry := Entry { callee : string; args : list binding; failed : bool }.

#[global] Instance entry_eq_dec : EqDecision entry.
Proof. solve_decision. Defined.

Record world := World {
  globals : gmap string binding;
  dirs : gset (list string);
  files : gset (list string);
  calls : list entry;
  (* every exception raised so far, and those a [try] of the notebook caught,
     each with the label of the [try] *)
  raised : list exn;
  caught : list (string * exn);
  (* the answer of [platform.system()] *)
  system : string;
  (* whether the n-th logged call raises *)
  lib_raises : nat → bool
}.

Definition set_globals (g : gmap string binding) (w : world) : world :=
  World g (dirs w) (files w) (calls w) (raised w) (caught w) (system w)
    (lib_raises w).
Definition set_dirs (d : gset (list string)) (w : world) : world :=
  World (globals w) d (files w) (calls w) (raised w) (caught w) (system w)
    (lib_raises w).
Definition set_files (f : gset (list string)) (w : world) : world :=
  World (globals w) (dirs w) f (calls w) (raised w) (caught w) (system w)
    (lib_raises w).
Definition set_calls (c : list entry) (w : world) : world :=
  World (globals w) (dirs w) (files w) c (raised w) (caught w) (system w)
    (lib_raises w).
Definition set_raised (r : list exn) (w : world) : world :=
  World (globals w) (dirs w) (files w) (calls w) r (caught w) (system w)
    (lib_raises w).
Definition set_caught (c : list (string * exn)) (w : world) : world :=
  World (globals w) (dirs w) (files w) (calls w) (raised w) c (system w)
    (lib_raises w).

Inductive outcome (A : Type) :=
| Ok (a : A)
| Raise (e : exn).
Arguments Ok {A} a.
Arguments Raise {A} e.

(** A statement or expression: from a world to a result, or an exception,
    and the world after. *)
Definition M (A : Type) : Type := world → outcome A * world.

#[global] Instance M_ret : MRet M := λ A a w, (Ok a, w).
#[global] Instance M_bind : MBind M := λ A B f m w,
  match m w with
  | (Ok a, w') => f a w'
  | (Raise e, w') => (Raise e, w')
  end.

(** [raise e]. *)
Definition throw {A : Type} (e : exn) : M A :=
  λ w, (Raise e, set_raised (raised w ++ [e]) w).

(** [try: body / except: handler], a bare [except]. *)
Definition try_except {A : Type} (label : string) (body handler : M A) : M A :=
  λ w,
    match body w with
    | (Ok a, w') => (Ok a, w')
    | (Raise e, w') => handler (set_caught (caught w' ++ [(label, e)]) w')
    end.

(** Reading a name; a name that is not bound raises [NameError]. *)
Definition name (x : string) : M binding :=
  λ w,
    match globals w !! x with
    | Some b => (Ok b, w)
    | None => throw (NameError x) w
    end.

(** Reading the world. *)
Definition gets {A : Type} (f : world → A) : M A := λ w, (Ok (f w), w).

(** Binding a name. *)
Definition store (x : string) (b : binding) : M unit :=
  λ w, (Ok tt, set_globals (<[x := b]> (globals w)) w).

(** A literal. *)
Definition lit (v : pyval) : M binding := mret (Binding v false).

(** [x = e]. *)
Definition assign (x : string) (e : M binding) : M unit :=
  b ← e; store x b.

(** Argument lists are evaluated left to right. *)
Fixpoint eval_args (es : list (M binding)) : M (list binding) :=
  match es with
  | [] => mret []
  | e :: es' => b ← e; bs ← eval_args es'; mret (b :: bs)
  end.

(** An expression the notebook evaluates itself (arithmetic, a list or dict
    display, a subscript): it reads [reads] and has the value [v]. *)
Definition expr (reads : list (M binding)) (v : pyval) : M binding :=
  bs ← eval_args reads; mret (Binding v (existsb loop_built bs)).

(** A call that leaves the notebook.  It is logged; the environment decides
    whether it raises; its result is an object of the library, made from
    loop-built data when an argument was. *)
Definition perform (callee : string) (bs : list binding) : M binding :=
  λ w,
    let f := lib_raises w (length (calls w)) in
    let w' := set_calls (calls w ++ [Entry callee bs f]) w in
    if f then throw (LibraryError callee) w'
    else (Ok (Binding (VObj callee) (existsb loop_built bs)), w').

(** [root.attr(args)] for a module [root]; literal arguments are left out. *)
Definition call (root attr : string) (es : list (M binding)) : M binding :=
  _ ← name root; bs ← eval_args es; perform (root +:+ "." +:+ attr) bs.

(** [obj.meth(args)]: the object is the first argument. *)
Definition method (obj meth : string) (es : list (M binding)) : M binding :=
  o ← name obj; bs ← eval_args es; perform (obj +:+ "." +:+ meth) (o :: bs).

(** A builtin applied to objects of a library: [print], [len], [int]. *)
Definition builtin (f : string) (es : list (M binding)) : M binding :=
  bs ← eval_args es; perform f bs.

(** [import module as asname]. *)
Definition import_ (module asname : string) : M unit :=
  _ ← perform ("import " +:+ module) [];
  store asname (Binding (VObj module) false).

(** Several assignments of literals. *)
Fixpoint assign_lits (xs : list (string * pyval)) : M unit :=
  match xs with
  | [] => mret tt
  | (x, v) :: xs' => assign x (lit v);; assign_lits xs'
  end.

(** An expression statement. *)
Definition do_ (e : M binding) : M unit := _ ← e; mret tt.

(** [x += suffix] on a [str]. *)
Definition aug_str (x suffix : string) : M unit :=
  b ← name x;
  match value b with
  | VStr s => store x (Binding (VStr (s +:+ suffix)) (loop_built b))
  | _ => throw TypeError
  end.

(** [x[...] = e] outside a loop: the array bound to [x] is changed in
    place. *)
Definition setitem (x : string) (reads : list (M binding)) : M unit :=
  b ← name x;
  bs ← eval_args reads;
  store x (Binding (value b) (loop_built b || existsb loop_built bs)).

(** A [for] statement of the notebook.  It reads [reads], fills the
    containers bound to [writes] by [append] or item assignment, and leaves
    its loop variables and temporaries [vars] bound.  What the loops compute
    is given by the functions of the data-loop sections. *)
Fixpoint mark_loop_built (xs : list string) : M unit :=
  match xs with
  | [] => mret tt
  | x :: xs' =>
      b ← name x; store x (Binding (value b) true);; mark_loop_built xs'
  end.

Fixpoint bind_vars (xs : list string) : M unit :=
  match xs with
  | [] => mret tt
  | x :: xs' => store x (Binding VOther false);; bind_vars xs'
  end.

Definition for_loop (vars reads writes : list string) : M unit :=
  _ ← eval_args (name <$> reads);
  mark_loop_built writes;;
  bind_vars vars.

(** *** The file system seen through [os]

    Paths are relative to the working directory, which is the empty path and
    always a directory. *)

Definition norm (p : list string) : list string :=
  filter (λ c, c ≠ ".") p.

Definition is_dir (w : world) (p : list string) : bool :=
  bool_decide (p = [] ∨ p ∈ dirs w).

Definition is_file (w : world) (p : list string) : bool :=
  bool_decide (p ≠ [] ∧ p ∈ files w).

Definition path_exists (w : world) (p : list string) : bool :=
  is_dir w p || is_file w p.

Definition as_path (v : pyval) : option (list string) :=
  match v with
  | VStr s => Some [s]
  | VPath p => Some p
  | _ => None
  end.

(** [os.path.join(a, b, ...)] of relative paths. *)
Definition os_path_join (es : list (M binding)) : M binding :=
  _ ← name "os";
  bs ← eval_args es;
  match mapM (λ b, as_path (value b)) bs with
  | Some ps => mret (Binding (VPath (concat ps)) (existsb loop_built bs))
  | None => throw TypeError
  end.

(** ["{0}.ext".format(e)]. *)
Definition str_format (suffix : string) (e : M binding) : M binding :=
  b ← e;
  match value b with
  | VStr s => mret (Binding (VStr (s +:+ suffix)) (loop_built b))
  | _ => mret (Binding (VObj "str") (loop_built b))
  end.

(** [os.path.isdir(e)]. *)
Definition os_path_isdir (e : M binding) : M bool :=
  _ ← name "os";
  b ← e;
  match as_path (value b) with
  | Some p => gets (λ w, is_dir w (norm p))
  | None => throw TypeError
  end.

(** [os.mkdir(p)]: the new world, or the exception. *)
Definition mkdir (p : list string) (w : world) : exn + world :=
  if path_exists w p then inl (FileExistsError p)
  else if is_file w (removelast p) then inl (NotADirectoryError p)
  else if negb (is_dir w (removelast p)) then inl (FileNotFoundError p)
  else inr (set_dirs ({[p]} ∪ dirs w) w).

(** [os.makedirs(name, exist_ok=exist_ok)], after CPython's [os.py]: make
    the missing parent first, ignoring a [FileExistsError] from it, then the
    leaf; an error of the leaf is dropped when [exist_ok] holds and the leaf
    is a directory.  [n] bounds the recursion by the length of the path. *)
Fixpoint makedirs (n : nat) (exist_ok : bool) (p : list string) (w : world)
  : exn + world :=
  let head := removelast p in
  let after_head :=
    match n with
    | S n' =>
        if bool_decide (head ≠ []) && negb (path_exists w head) then
          match makedirs n' exist_ok head w with
          | inl (FileExistsError _) => inr w
          | r => r
          end
        else inr w
    | O => inr w
    end in
  match after_head with
  | inl e => inl e
  | inr w1 =>
      match mkdir p w1 with
      | inl e => if negb exist_ok || negb (is_dir w1 p) then inl e else inr w1
      | inr w2 => inr w2
      end
  end.

(** [os.makedirs] and [os.remove] on a path already resolved. *)
Definition fs_makedirs (exist_ok : bool) (p : list string) : M unit :=
  λ w, match makedirs (length p) exist_ok p w with
       | inl e => throw e w
       | inr w' => (Ok tt, w')
       end.

Definition fs_remove (p : list string) : M unit :=
  λ w, if is_file w p then (Ok tt, set_files (files w ∖ {[p]}) w)
       else if is_dir w p then throw (IsADirectoryError p) w
       else throw (FileNotFoundError p) w.

(** [os.makedirs(e, exist_ok=True)] as a statement. *)
Definition os_makedirs (e : M binding) : M unit :=
  _ ← name "os";
  b ← e;
  match as_path (value b) with
  | Some p => fs_makedirs true (norm p)
  | None => throw TypeError
  end.

(** [os.remove(e)]. *)
Definition os_remove (e : M binding) : M unit :=
  _ ← name "os";
  b ← e;
  match as_path (value b) with
  | Some p => fs_remove (norm p)
  | None => throw TypeError
  end.

(** [platform.system() == s]. *)
Definition platform_system_is (s : string) : M bool :=
  _ ← name "platform";
  gets (λ w, bool_decide (system w = s)).

(** [if c: body]. *)
Definition when_ (c : M bool) (body : M unit) : M unit :=
  c ≫= λ b : bool, if b then body else mret tt.

(** [if not c: body]. *)
Definition unless (c : M bool) (body : M unit) : M unit :=
  c ≫= λ b : bool, if b then mret tt else body.

(** [a, b = e]. *)
Definition assign2 (x y : string) (e : M binding) : M unit :=
  b ← e; store x b;; store y b.

(** A notebook is its code cells, run in order. *)
Fixpoint run_cells (cells : list (M unit)) : M unit :=
  match cells with
  | [] => mret tt
  | c :: cells' => c;; run_cells cells'
  end.

(** A fresh kernel on a given file system. *)
Definition fresh_kernel (d f : gset (list string)) (sys : string)
    (raises : nat → bool) : world :=
  World ∅ d f [] [] [] sys raises.

(** The cell both notebooks start with (the first also imports pandas):
    [[
    try:
        import flopy
    except:
        fpth = os.path.abspath(os.path.join("..", ".."))
        sys.path.append(fpth)
        import flopy
    ]] *)
Definition import_flopy : M unit :=
  try_except "import flopy"
    (import_ "flopy" "flopy")
    (assign "fpth"
       (call "os" "path.abspath"
          [os_path_join [lit (VStr ".."); lit (VStr "..")]]);;
     do_ (method "sys" "path.append" [name "fpth"]);;
     import_ "flopy" "flopy").

(** [[
    print(sys.version)
    print("numpy version: {}".format(np.__version__))
    print("matplotlib version: {}".format(mpl.__version__))
    print("flopy version: {}".format(flopy.__version__))
    ]] *)
Definition print_versions : M unit :=
  do_ (builtin "print" [name "sys"]);;
  do_ (builtin "print" [name "np"]);;
  do_ (builtin "print" [name "mpl"]);;
  do_ (builtin "print" [name "flopy"]).

(** [[
    if not os.path.isdir(modelpth):
        os.makedirs(modelpth, exist_ok=True)
    ]] *)
Definition ensure_modelpth : M unit :=
  unless (os_path_isdir (name "modelpth")) (os_makedirs (name "modelpth")).

(** ** The MT3D-USGS notebook *)

Module mt3d.

Definition nrow : Z := 300.
Definition ncol : Z := 300.
Definition nlay : Z := 3.

(** *** The loops of the general head boundary cell *)

Definition elev_stpt_row1 : Q := 308.82281.
Definition elev_stpt_row300 : Q := 239.13811.
Definition elev_slp : Q := (308.82281 - 298.83649) / inject_Z (ncol - 1).

(** The condition under which the first loop appends:
    [(i == 1 and (j < 27 or j > 31)) or (i == 299 and (j < 26 or j > 31))]. *)
Definition ghb_guard (i j : Z) : bool :=
  ((i =? 1) && ((j <? 27) || (j >? 31)))
  || ((i =? 299) && ((j <? 26) || (j >? 31))).

(** The row appended when [i % 2 == 0]. *)
Definition ghb_row_even (k i j : Z) : list num :=
  [Int k; Int i; Int j;
   Float (elev_stpt_row1 - elev_slp * inject_Z (j - 1)); Float 11.3636].

(** The row appended otherwise. *)
Definition ghb_row_odd (k i j : Z) : list num :=
  [Int k; Int i; Int j;
   Float (elev_stpt_row300 - elev_slp * inject_Z (j - 1)); Float 11.3636].

(** Body of the innermost loop. *)
Definition ghb_body (k i j : Z) (sp : list (list num)) : list (list num) :=
  if ghb_guard i j then
    if i `mod` 2 =? 0 then sp ++ [ghb_row_even k i j]
    else sp ++ [ghb_row_odd k i j]
  else sp.

(** The first, triple loop. *)
Definition ghb_loop1 (sp : list (list num)) : list (list num) :=
  for_ [0; 1; 2] (λ k,
    for_ [0; 299] (λ i,
      for_ (np_arange 0 300 1) (λ j, ghb_body k i j))) sp.

(** The second, double loop. *)
Definition ghb_loop2 (sp : list (list num)) : list (list num) :=
  for_ [0; 1; 2] (λ k,
    for_ (np_arange 26 32 1) (λ j sp,
      sp ++ [[Int k; Int 299; Int j; Float 238.20; Float 3409.0801]])) sp.

(** [sp] as handed to [flopy.modflow.ModflowGhb]. *)
Definition sp : list (list num) := ghb_loop2 (ghb_loop1 []).

(** *** The loops of the lake cell: lake-bed leakance of layer 1

    numpy arrays are mutable objects that names refer to.  The store maps a
    reference to the array it holds; [bdlknc_lyr1 = LakArr_lyr1.copy()] puts
    a new array in the store, so the two names do not alias. *)

Definition ref := nat.

(** [a.copy()]: a fresh reference holding the same contents. *)
Definition np_copy (a : ref) (h : gmap ref ndarray2) : option (ref * gmap ref ndarray2) :=
  arr ← h !! a;
  let b := fresh (dom h) in
  Some (b, <[b := arr]> h).

(** One guarded write of the loop body, for the cell [(i, j)] and one of its
    neighbours [(i', j')]:
    [[
    if LakArr_lyr1[i, j] == 1 and LakArr_lyr1[i', j'] == 0:
        bdlknc_lyr1[i', j'] = 1
    ]]
    [and] evaluates its right operand only when the left one holds. *)
Definition lak_write (LakArr_lyr1 bdlknc_lyr1 : ref) (i j i' j' : Z)
    (h : gmap ref ndarray2) : option (gmap ref ndarray2) :=
  L ← h !! LakArr_lyr1;
  x ← getitem2 L i j;
  if Qeq_bool x 1 then
    y ← getitem2 L i' j';
    if Qeq_bool y 0 then
      B ← h !! bdlknc_lyr1;
      B' ← setitem2 B i' j' 1;
      Some (<[bdlknc_lyr1 := B']> h)
    else Some h
  else Some h.

(** Body of the inner loop. *)
Definition lak_body (LakArr_lyr1 bdlknc_lyr1 : ref) (i j : Z)
    (h : gmap ref ndarray2) : option (gmap ref ndarray2) :=
  let im1 := i - 1 in
  let ip1 := i + 1 in
  let jm1 := j - 1 in
  let jp1 := j + 1 in
  h ← (if im1 >=? 0 then lak_write LakArr_lyr1 bdlknc_lyr1 i j im1 j h
       else Some h);
  n0 ← shape0 <$> h !! LakArr_lyr1;
  h ← (if ip1 <? n0 then lak_write LakArr_lyr1 bdlknc_lyr1 i j ip1 j h
       else Some h);
  h ← (if jm1 >=? 0 then lak_write LakArr_lyr1 bdlknc_lyr1 i j i jm1 h
       else Some h);
  n1 ← shape1 <$> h !! LakArr_lyr1;
  if jp1 <? n1 then lak_write LakArr_lyr1 bdlknc_lyr1 i j i jp1 h
  else Some h.

(** The two nested loops
    [[
    for i in np.arange(0, LakArr_lyr1.shape[0]):
        for j in np.arange(0, LakArr_lyr1.shape[1]):
    ]] *)
Definition lak_loop (LakArr_lyr1 bdlknc_lyr1 : ref) (h : gmap ref ndarray2)
  : option (gmap ref ndarray2) :=
  n0 ← shape0 <$> h !! LakArr_lyr1;
  for_opt (np_arange 0 n0 1) (λ i h,
    n1 ← shape1 <$> h !! LakArr_lyr1;
    for_opt (np_arange 0 n1 1) (lak_body LakArr_lyr1 bdlknc_lyr1 i) h) h.

(** [bdlknc_lyr1 = LakArr_lyr1.copy()] followed by the loops; the result is
    the reference bound to [bdlknc_lyr1] and the store, [None] when an
    [IndexError] is raised. *)
Definition bdlknc_expand (LakArr_lyr1 : ref) (h : gmap ref ndarray2)
  : option (ref * gmap ref ndarray2) :=
  '(bdlknc_lyr1, h) ← np_copy LakArr_lyr1 h;
  h ← lak_loop LakArr_lyr1 bdlknc_lyr1 h;
  Some (bdlknc_lyr1, h).

(** The four neighbours of a cell and the cells of an array. *)
Definition neighbours (i j : Z) : list (Z * Z) :=
  [(i - 1, j); (i + 1, j); (i, j - 1); (i, j + 1)].

Definition in_bounds (a : ndarray2) (i j : Z) : Prop :=
  0 ≤ i < shape0 a ∧ 0 ≤ j < shape1 a.

(** The store holds [L] under [LakArr_lyr1] and [B] under [bdlknc_lyr1], both
    of [nr] rows and [nc] columns, and is [h0] elsewhere. *)
Definition lake_store (LakArr_lyr1 bdlknc_lyr1 : ref) (L : ndarray2)
    (nr nc : nat) (h0 : gmap ref ndarray2) (B : ndarray2)
    (h : gmap ref ndarray2) : Prop :=
  h !! LakArr_lyr1 = Some L ∧ h !! bdlknc_lyr1 = Some B ∧ has_shape nr nc B
  ∧ ∀ l, l ≠ bdlknc_lyr1 → h !! l = h0 !! l.

(** [(a, b)] is one of the four neighbours of [(i, j)]. *)
Definition adjacent (i j a b : Z) : Prop := (a, b) ∈ neighbours i j.

(** [B] is [L] with the lake cells among [visited] expanded by one cell. *)
Definition expanded (L : ndarray2) (nr nc : nat) (visited : Z → Z → Prop)
    (B : ndarray2) : Prop :=
  ∀ a b, in_range nr nc a b →
    getitem2 B a b = Some 1%Q ↔
      getitem2 L a b = Some 1%Q
      ∨ ∃ i j, visited i j ∧ in_range nr nc i j ∧ adjacent i j a b
               ∧ getitem2 L i j = Some 1%Q.

(** *** The code cells *)

Definition data_file (dir file : string) : M binding :=
  os_path_join [lit (VStr ".."); lit (VStr "data");
                lit (VStr "mt3d_example_sft_lkt_uzt"); lit (VStr dir);
                lit (VStr file)].

Definition cell1 : M unit :=
  import_ "os" "os";;
  import_ "sys" "sys";;
  import_ "platform" "platform";;
  import_ "numpy" "np";;
  import_ "pandas" "pd";;
  import_ "matplotlib" "mpl";;
  import_ "matplotlib.pyplot" "plt";;
  import_flopy;;
  print_versions.

Definition cell2 : M unit :=
  assign "modelpth"
    (os_path_join [lit (VStr "."); lit (VStr "temp"); lit (VStr "no3")]);;
  assign_lits [("modelname", VStr "no3"); ("mfexe", VStr "mfnwt");
               ("mtexe", VStr "mt3dusgs")];;
  when_ (platform_system_is "Windows")
    (aug_str "mfexe" ".exe";; aug_str "mtexe" ".exe");;
  ensure_modelpth;;
  assign "mf"
    (call "flopy" "modflow.Modflow"
       [name "modelname"; name "mfexe"; name "modelpth"]).

Definition cell3 : M unit :=
  assign_lits [("Lx", VFloat 90000.0); ("Ly", VFloat 90000.0);
               ("nrow", VInt 300); ("ncol", VInt 300); ("nlay", VInt 3)];;
  assign "delr" (expr [name "Lx"; name "ncol"] (VFloat 300));;
  assign "delc" (expr [name "Ly"; name "nrow"] (VFloat 300));;
  assign "xmax" (expr [name "ncol"; name "delr"] (VFloat 90000));;
  assign "ymax" (expr [name "nrow"; name "delc"] (VFloat 90000));;
  assign2 "X" "Y"
    (call "np" "meshgrid"
       [call "np" "linspace"
          [name "delr"; name "xmax"; name "delr"; name "ncol"];
        call "np" "linspace"
          [name "ymax"; name "delc"; name "delc"; name "nrow"]]).

Definition cell4 : M unit :=
  assign "oc" (call "flopy" "modflow.ModflowOc" [name "mf"]).

Definition cell5 : M unit :=
  assign_lits [("headtol", VFloat 1.0e-4); ("fluxtol", VInt 5);
               ("maxiterout", VInt 5000); ("thickfact", VFloat 1e-06);
               ("linmeth", VInt 2); ("iprnwt", VInt 1); ("ibotav", VInt 1)];;
  assign "nwt"
    (call "flopy" "modflow.ModflowNwt"
       [name "mf"; name "headtol"; name "fluxtol"; name "maxiterout";
        name "thickfact"; name "linmeth"; name "iprnwt"; name "ibotav"]).

Definition cell6 : M unit :=
  assign "elv_pth" (data_file "dis_arrays" "grnd_elv.txt");;
  assign "grndElv" (call "np" "loadtxt" [name "elv_pth"]);;
  assign "bt1_pth" (data_file "dis_arrays" "bot1.txt");;
  assign "bot1Elv" (call "np" "loadtxt" [name "bt1_pth"]);;
  (* bot2Elv = np.ones(bot1Elv.shape) * 100 *)
  assign "bot2Elv"
    (expr [call "np" "ones" [name "bot1Elv"]] (VObj "np.ndarray"));;
  assign "bot3Elv" (call "np" "zeros" [name "bot2Elv"]);;
  assign "botm" (expr [name "bot1Elv"; name "bot2Elv"; name "bot3Elv"] VOther);;
  assign "botm" (call "np" "array" [name "botm"]);;
  assign_lits [("Steady", VOther); ("nstp", VOther); ("tsmult", VOther);
               ("perlen", VOther)];;
  assign "dis"
    (call "flopy" "modflow.ModflowDis"
       [name "mf"; name "nlay"; name "nrow"; name "ncol"; name "delr";
        name "delc"; name "grndElv"; name "botm"; name "Steady"; name "nstp";
        name "tsmult"; name "perlen"]).

Definition cell7 : M unit :=
  assign_lits [("hdry", VFloat (-1.00e30)); ("iphdry", VInt 0);
               ("laytyp", VOther); ("layavg", VInt 0); ("chani", VFloat 1.0);
               ("layvka", VInt 0); ("laywet", VInt 0); ("hk", VInt 20);
               ("vka", VFloat 0.5); ("ss", VFloat 0.00001);
               ("sy", VFloat 0.20)];;
  assign "upw"
    (call "flopy" "modflow.ModflowUpw"
       [name "mf"; name "laytyp"; name "layavg"; name "chani"; name "layvka";
        name "laywet"; name "hdry"; name "iphdry"; name "hk"; name "vka";
        name "ss"; name "sy"]).

Definition cell8 : M unit :=
  assign "ibnd1_pth" (data_file "bas_arrays" "ibnd_lay1.txt");;
  assign "ibnd1" (call "np" "loadtxt" [name "ibnd1_pth"]);;
  assign "ibnd2" (call "np" "ones" [name "ibnd1"]);;
  assign "ibnd3" (call "np" "ones" [name "ibnd2"]);;
  assign "ibnd" (expr [name "ibnd1"; name "ibnd2"; name "ibnd3"] VOther);;
  assign "ibnd" (call "np" "array" [name "ibnd"]);;
  assign "StHd1_pth" (data_file "bas_arrays" "strthd1.txt");;
  assign "StHd1" (call "np" "loadtxt" [name "StHd1_pth"]);;
  assign "StHd2_pth" (data_file "bas_arrays" "strthd2.txt");;
  assign "StHd2" (call "np" "loadtxt" [name "StHd2_pth"]);;
  assign "StHd3_pth" (data_file "bas_arrays" "strthd3.txt");;
  assign "StHd3" (call "np" "loadtxt" [name "StHd3_pth"]);;
  assign "strtElev" (expr [name "StHd1"; name "StHd2"; name "StHd3"] VOther);;
  assign "strtElev" (call "np" "array" [name "strtElev"]);;
  assign "hdry" (lit (VFloat 999.0));;
  assign "bas"
    (call "flopy" "modflow.ModflowBas"
       [name "mf"; name "ibnd"; name "hdry"; name "strtElev"]).

(** The general head boundary cell; the rows the two loops append are
    [ghb_loop1] and [ghb_loop2] above. *)
Definition cell9 : M unit :=
  assign_lits [("elev_stpt_row1", VFloat elev_stpt_row1);
               ("elev_stpt_row300", VFloat elev_stpt_row300)];;
  assign "elev_slp" (expr [name "ncol"] (VFloat elev_slp));;
  assign "sp" (lit VOther);;
  for_loop ["k"; "i"; "j"] ["np"; "elev_stpt_row300"; "elev_slp"] ["sp"];;
  for_loop ["k"; "j"] ["np"] ["sp"];;
  assign "ghb" (call "flopy" "modflow.ModflowGhb" [name "mf"; name "sp"]).

Definition cell10 : M unit :=
  assign "rpth" (data_file "sfr_data" "no3_reachinput.csv");;
  assign "reach_data" (call "np" "genfromtxt" [name "rpth"]);;
  do_ (name "reach_data");;
  assign "spth" (data_file "sfr_data" "no3_segmentdata.csv");;
  assign "ss_segment_data" (call "np" "genfromtxt" [name "spth"]);;
  assign "segment_data"
    (expr [name "ss_segment_data"; name "ss_segment_data"] VOther);;
  do_ (name "segment_data");;
  assign "nstrm" (expr [name "reach_data"] VOther);;
  assign "nss" (expr [name "segment_data"] VOther);;
  assign_lits [("nsfrpar", VInt 0); ("const", VFloat 128390.4);
               ("dleak", VFloat 0.0001); ("ipakcb", VInt 53);
               ("istcb2", VInt 37); ("isfropt", VInt 1)];;
  assign "dataset_5" (expr [name "nss"] VOther);;
  assign "sfr"
    (call "flopy" "modflow.ModflowSfr2"
       [name "mf"; name "nstrm"; name "nss"; name "const"; name "dleak";
        name "ipakcb"; name "istcb2"; name "isfropt"; name "reach_data";
        name "segment_data"; name "dataset_5"]).

(** The lake cell; what its two nested loops do to the arrays is
    [bdlknc_expand] above. *)
Definition cell11 : M unit :=
  assign "LakArr_pth" (data_file "lak_arrays" "lakarr1.txt");;
  assign "LakArr_lyr1" (call "np" "loadtxt" [name "LakArr_pth"]);;
  assign "LakArr_lyr2" (call "np" "zeros" [name "LakArr_lyr1"]);;
  assign "LakArr_lyr3" (call "np" "zeros" [name "LakArr_lyr2"]);;
  assign "LakArr"
    (expr [name "LakArr_lyr1"; name "LakArr_lyr2"; name "LakArr_lyr3"] VOther);;
  assign "LakArr" (call "np" "array" [name "LakArr"]);;
  (* nlakes = int(np.max(LakArr)) *)
  assign "nlakes" (expr [call "np" "max" [name "LakArr"]] VOther);;
  assign "ipakcb" (name "ipakcb");;
  assign_lits [("theta", VFloat (-1.0)); ("nssitr", VInt 10);
               ("sscncr", VFloat 1.000e-03); ("surfdep", VFloat 2.000e00);
               ("stages", VFloat 268.00)];;
  assign "bdlknc_lyr1" (method "LakArr_lyr1" "copy" []);;
  assign "bdlknc_lyr2" (method "LakArr_lyr1" "copy" []);;
  assign "bdlknc_lyr3" (call "np" "zeros" [name "LakArr_lyr1"]);;
  for_loop ["i"; "j"; "im1"; "ip1"; "jm1"; "jp1"] ["np"; "LakArr_lyr1"]
    ["bdlknc_lyr1"];;
  assign "bdlknc"
    (expr [name "bdlknc_lyr1"; name "bdlknc_lyr2"; name "bdlknc_lyr3"] VOther);;
  assign "bdlknc" (call "np" "array" [name "bdlknc"]);;
  assign "flux_data" (lit VOther);;
  assign "lak"
    (call "flopy" "modflow.ModflowLak"
       [name "mf"; name "nlakes"; name "ipakcb"; name "theta"; name "nssitr";
        name "sscncr"; name "surfdep"; name "stages"; name "LakArr";
        name "bdlknc"; name "flux_data"]).

Definition cell12 : M unit :=
  assign_lits [("gages", VOther); ("files", VOther)];;
  assign "numgage" (expr [name "gages"] (VInt 10));;
  assign "gage"
    (call "flopy" "modflow.ModflowGage"
       [name "mf"; name "numgage"; name "gages"; name "files"]).

Definition cell13 : M unit :=
  assign_lits [("nuztop", VInt 2); ("iuzfopt", VInt 2); ("irunflg", VInt 1);
               ("ietflg", VInt 0); ("iuzfcb", VInt 52); ("iuzfcb2", VInt 0);
               ("ntrail2", VInt 20); ("nsets2", VInt 20); ("nuzgag", VInt 2);
               ("surfdep", VFloat 2.0); ("eps", VFloat 3.0);
               ("thts", VFloat 0.30); ("thti", VFloat 0.13079)];;
  assign "fname_uzbnd" (data_file "uzf_arrays" "iuzbnd.txt");;
  assign "fname_runbnd" (data_file "uzf_arrays" "irunbnd.txt");;
  assign "iuzfbnd" (call "np" "loadtxt" [name "fname_uzbnd"]);;
  assign "irunbnd" (call "np" "loadtxt" [name "fname_runbnd"]);;
  assign_lits [("uzgag", VOther); ("finf", VOther)];;
  assign "uzf"
    (call "flopy" "modflow.ModflowUzf1"
       [name "mf"; name "nuztop"; name "iuzfopt"; name "irunflg";
        name "ietflg"; name "iuzfcb"; name "iuzfcb2"; name "ntrail2";
        name "nsets2"; name "surfdep"; name "uzgag"]).

Definition cell14 : M unit :=
  assign "fname_drnElv" (data_file "drn_arrays" "elv.txt");;
  assign "fname_drnCond" (data_file "drn_arrays" "cond.txt");;
  assign "drnElv" (call "np" "loadtxt" [name "fname_drnElv"]);;
  assign "drnCond" (call "np" "loadtxt" [name "fname_drnCond"]);;
  assign "drnElv_lst"
    (call "pd" "DataFrame"
       [call "np" "nonzero" [name "drnElv"];
        call "np" "nonzero" [name "drnElv"];
        expr [name "drnElv"; call "np" "nonzero" [name "drnElv"]]
          (VObj "np.ndarray");
        expr [name "drnCond"; call "np" "nonzero" [name "drnCond"]]
          (VObj "np.ndarray")]);;
  assign "stress_period_data" (method "drnElv_lst" "values.tolist" []);;
  assign "stress_period_data"
    (expr [name "stress_period_data"; name "stress_period_data"] VOther);;
  assign "drn"
    (call "flopy" "modflow.ModflowDrn"
       [name "mf"; name "ipakcb"; name "stress_period_data"]).

Definition cell15 : M unit :=
  assign "lmt" (call "flopy" "modflow.ModflowLmt" [name "mf"]).

Definition cell16 : M unit :=
  assign "mt"
    (call "flopy" "mt3d.Mt3dms"
       [name "mf"; name "modelname"; name "modelpth"; name "mtexe"]).

Definition cell17 : M unit :=
  assign_lits [("ncomp", VInt 1); ("lunit", VStr "FT"); ("sconc", VFloat 0.0);
               ("prsity", VFloat 0.3); ("cinact", VFloat (-1.0));
               ("thkmin", VFloat 0.000001); ("nprs", VInt (-2));
               ("nprobs", VInt 10); ("nprmas", VInt 10); ("dt0", VFloat 0.1);
               ("nstp", VInt 1); ("mxstrn", VInt 500); ("ttsmult", VFloat 1.2);
               ("ttsmax", VInt 100); ("obs", VOther)];;
  assign "btn"
    (call "flopy" "mt3d.Mt3dBtn"
       [name "mt"; name "lunit"; name "sconc"; name "ncomp"; name "prsity";
        name "cinact"; name "obs"; name "thkmin"; name "nprs"; name "nprobs";
        name "nprmas"; name "dt0"; name "nstp"; name "mxstrn"; name "ttsmult";
        name "ttsmax"]).

Definition cell18 : M unit :=
  assign_lits [("mixelm", VInt 0); ("percel", VFloat 1.0000);
               ("mxpart", VInt 5000); ("nadvfd", VInt 1)];;
  assign "adv"
    (call "flopy" "mt3d.Mt3dAdv"
       [name "mt"; name "mixelm"; name "percel"; name "mxpart"; name "nadvfd"]).

Definition cell19 : M unit :=
  assign_lits [("mxiter", VInt 1); ("iter1", VInt 50); ("isolve", VInt 3);
               ("ncrs", VInt 0); ("accl", VFloat 1.000000);
               ("cclose", VFloat 1.00e-06); ("iprgcg", VInt 5)];;
  assign "gcg"
    (call "flopy" "mt3d.Mt3dGcg"
       [name "mt"; name "mxiter"; name "iter1"; name "isolve"; name "ncrs";
        name "accl"; name "cclose"; name "iprgcg"]).

Definition cell20 : M unit :=
  assign_lits [("al", VFloat 0.1); ("trpt", VFloat 0.1); ("trpv", VFloat 0.1);
               ("dmcoef", VFloat 1.0000e-10)];;
  assign "dsp"
    (call "flopy" "mt3d.Mt3dDsp"
       [name "mt"; name "al"; name "trpt"; name "trpv"; name "dmcoef"]).

Definition cell21 : M unit :=
  assign "mxss" (lit (VInt 11199));;
  assign "ssm" (call "flopy" "mt3d.Mt3dSsm" [name "mt"; name "mxss"]).

Definition cell22 : M unit :=
  assign_lits [("isothm", VInt 0); ("ireact", VInt 1); ("irctop", VInt 2);
               ("igetsc", VInt 0); ("ireaction", VInt 0);
               ("rc1", VFloat 6.3258e-04); ("rc2", VFloat 0.0)];;
  assign "rct"
    (call "flopy" "mt3d.Mt3dRct"
       [name "mt"; name "isothm"; name "ireact"; name "igetsc"; name "rc1";
        name "rc2"]).

Definition cell23 : M unit :=
  assign "nsfinit" (expr [name "reach_data"] VOther);;
  assign "mxsfbc" (expr [name "reach_data"] VOther);;
  assign_lits [("icbcsf", VInt 0); ("ioutobs", VInt 92); ("isfsolv", VInt 1);
               ("wimp", VFloat 0.5); ("wups", VFloat 1.0);
               ("cclosesf", VFloat 1.0e-6); ("mxitersf", VInt 10);
               ("crntsf", VFloat 1.0); ("iprtxmd", VInt 0); ("coldsf", VInt 0);
               ("dispsf", VInt 0); ("obs_sf", VOther);
               ("sf_stress_period_data", VOther); ("gage_output", VOther)];;
  assign "sft"
    (call "flopy" "mt3d.Mt3dSft"
       [name "mt"; name "nsfinit"; name "mxsfbc"; name "icbcsf";
        name "ioutobs"; name "isfsolv"; name "wimp"; name "wups";
        name "cclosesf"; name "mxitersf"; name "crntsf"; name "iprtxmd";
        name "coldsf"; name "dispsf"; name "obs_sf"; name "obs_sf";
        name "sf_stress_period_data"; name "gage_output"]).

Definition cell24 : M unit :=
  assign "mxuzcon" (call "np" "count_nonzero" [name "irunbnd"]);;
  assign_lits [("icbcuz", VInt 45); ("iet", VInt 0)];;
  (* wc = np.ones((nlay, nrow, ncol)) * 0.29 *)
  assign "wc"
    (expr [call "np" "ones" [name "nlay"; name "nrow"; name "ncol"]]
       (VObj "np.ndarray"));;
  assign "sdh" (call "np" "ones" [name "nlay"; name "nrow"; name "ncol"]);;
  assign "uzt"
    (call "flopy" "mt3d.Mt3dUzt"
       [name "mt"; name "mxuzcon"; name "icbcuz"; name "iet"; name "iuzfbnd";
        name "sdh"]).

Definition cell25 : M unit :=
  assign_lits [("nlkinit", VInt 1); ("mxlkbc", VInt 720); ("icbclk", VInt 81);
               ("ietlak", VInt 1); ("coldlak", VInt 1);
               ("lkt_flux_data", VOther)];;
  assign "lkt"
    (call "flopy" "mt3d.Mt3dLkt"
       [name "mt"; name "nlkinit"; name "mxlkbc"; name "icbclk";
        name "ietlak"; name "coldlak"; name "lkt_flux_data"]).

(** The last cell writes the input files; the two [run_model()] calls are
    commented out in the source:
    [[
    mf.write_input()
    mt.write_input()

    # mf.run_model()
    # mt.run_model()
    ]] *)
Definition cell26 : M unit :=
  assign "pth" (call "os" "getcwd" []);;
  do_ (builtin "print" [name "pth"]);;
  do_ (method "mf" "write_input" []);;
  do_ (method "mt" "write_input" []).

(** The notebook; its last code cell is empty. *)
Definition notebook : M unit :=
  run_cells
    [cell1; cell2; cell3; cell4; cell5; cell6; cell7; cell8; cell9; cell10;
     cell11; cell12; cell13; cell14; cell15; cell16; cell17; cell18; cell19;
     cell20; cell21; cell22; cell23; cell24; cell25; cell26; mret tt].

End mt3d.

(** ** The MODFLOW-USG notebook *)

Module zaidel.

Definition nlay : Z := 1.
Definition nrow : Z := 1.
Definition ncol : Z := 200.

(** One pass of
    [[
    for j in range(ncol):
        botm[1, :, j] = base
        if j + 1 in [40, 80, 120, 160]:
            base -= 5
    ]]
    on the pair [(botm, base)]. *)
Definition botm_body (j : Z) (st : ndarray3 * Q) : option (ndarray3 * Q) :=
  let '(botm, base) := st in
  botm' ← setitem3_col botm 1 j base;
  Some (botm', if bool_decide (j + 1 ∈ [40; 80; 120; 160]) then (base - 5)%Q
               else base).

(** The bottom array after the loop, [None] on an [IndexError]. *)
Definition botm_loop : option (ndarray3 * Q) :=
  for_opt (range ncol) botm_body
    (np_full3 (Z.to_nat (nlay + 1)) (Z.to_nat nrow) (Z.to_nat ncol) 25%Q, 20%Q).

(** The number of steps of the stairway at or before column [j]. *)
Definition steps_at_or_below (j : Z) : Z :=
  Z.of_nat (length (filter (λ t, t ≤ j) [40; 80; 120; 160])).

(** *** The code cells *)

Definition cell1 : M unit :=
  import_ "os" "os";;
  import_ "sys" "sys";;
  import_ "platform" "platform";;
  import_ "numpy" "np";;
  import_ "matplotlib" "mpl";;
  import_ "matplotlib.pyplot" "plt";;
  import_flopy;;
  print_versions.

Definition cell2 : M unit :=
  assign "exe_name" (lit (VStr "mfusg"));;
  when_ (platform_system_is "Windows") (aug_str "exe_name" ".exe");;
  assign "mfexe" (name "exe_name");;
  assign "modelname" (lit (VStr "zaidel"));;
  assign "modelpth" (os_path_join [lit (VStr "data"); name "modelname"]);;
  ensure_modelpth.

Definition cell3 : M unit :=
  assign_lits [("nlay", VInt 1); ("nrow", VInt 1); ("ncol", VInt 200);
               ("delr", VFloat 50.0); ("delc", VFloat 1.0);
               ("h1", VFloat 23.0); ("h2", VFloat 5.0)];;
  (* x = np.arange(0.0, float(ncol) * delr, delr) + delr / 2.0 *)
  assign "x"
    (expr [call "np" "arange" [name "ncol"; name "delr"; name "delr"];
           name "delr"] (VObj "np.ndarray"));;
  assign "ibound" (call "np" "ones" [name "nlay"; name "nrow"; name "ncol"]);;
  setitem "ibound" [];;
  setitem "ibound" [];;
  (* botm = 25 * np.ones((nlay + 1, nrow, ncol), dtype=float) *)
  assign "botm"
    (expr [call "np" "ones" [name "nlay"; name "nrow"; name "ncol"]]
       (VObj "np.ndarray"));;
  assign "base" (lit (VFloat 20.0));;
  (* for j in range(ncol): botm[1, :, j] = base; ...: base -= 5 *)
  for_loop ["j"] ["ncol"; "base"] ["botm"; "base"];;
  assign "strt"
    (expr [name "h1"; call "np" "ones" [name "nlay"; name "nrow"; name "ncol"]]
       (VObj "np.ndarray"));;
  setitem "strt" [name "h2"].

(** [[
    try:
        os.remove(os.path.join(model_ws, "{0}.hds".format(modelname)))
    except:
        pass
    ]] *)
Definition remove_head_file : M unit :=
  try_except "remove head file"
    (os_remove (os_path_join [name "model_ws";
                              str_format ".hds" (name "modelname")]))
    (mret tt).

Definition cell4 : M unit :=
  assign "mf"
    (call "flopy" "mfusg.MfUsg" [name "modelname"; name "mfexe"; name "modelpth"]);;
  assign "dis"
    (call "flopy" "modflow.ModflowDis"
       [name "mf"; name "nlay"; name "nrow"; name "ncol"; name "delr";
        name "delc"; name "botm"; name "botm"]);;
  assign "bas"
    (call "flopy" "modflow.ModflowBas" [name "mf"; name "ibound"; name "strt"]);;
  assign "lpf" (call "flopy" "mfusg.MfUsgLpf" [name "mf"]);;
  assign "oc" (call "flopy" "modflow.ModflowOc" [name "mf"]);;
  assign "sms" (call "flopy" "mfusg.MfUsgSms" [name "mf"]);;
  do_ (method "mf" "write_input" []);;
  remove_head_file;;
  do_ (method "mf" "run_model" []).

Definition cell5 : M unit :=
  assign "headfile"
    (os_path_join [name "modelpth"; str_format ".hds" (name "modelname")]);;
  assign "headobj" (call "flopy" "utils.HeadFile" [name "headfile"]);;
  assign "times" (method "headobj" "get_times" []);;
  assign "mfusghead" (method "headobj" "get_data" [name "times"]).

Definition cell6 : M unit :=
  assign "fig" (call "plt" "figure" []);;
  do_ (method "fig" "subplots_adjust" []);;
  assign "ax" (method "fig" "add_subplot" []);;
  do_ (method "ax" "plot" [name "x"; name "mfusghead"]);;
  do_ (method "ax" "fill_between" [name "x"; name "botm"]);;
  assign "leg" (method "ax" "legend" []);;
  do_ (method "leg" "draw_frame" []);;
  do_ (method "ax" "set_xlabel" []);;
  do_ (method "ax" "set_ylabel" []);;
  do_ (method "ax" "set_ylim" []).

(** The notebook; its last code cell is empty. *)
Definition notebook : M unit :=
  run_cells [cell1; cell2; cell3; cell4; cell5; cell6; mret tt].

End zaidel.

(** ** Assertions about runs *)

(** [hoare P m Q E]: from a world in [P], [m] ends in [Q] when it returns and
    in [E] when it raises. *)
Definition hoare {A : Type} (P : world → Prop) (m : M A)
    (Q : A → world → Prop) (E : exn → world → Prop) : Prop :=
  ∀ w, P w →
    match m w with
    | (Ok a, w') => Q a w'
    | (Raise e, w') => E e w'
    end.

(** The exception a run ended with, if any. *)
Definition pending {A : Type} (r : outcome A) : list exn :=
  match r with
  | Ok _ => []
  | Raise e => [e]
  end.

(** Reversal and suffix test on strings, to classify callees. *)
Definition ends_with (suffix s : string) : bool :=
  String.prefix (String.rev suffix) (String.rev s).

(** The calls that start the external solver, write its input files, and
    read its binary output. *)
Definition runs_solver (c : string) : bool := ends_with ".run_model" c.

Definition writes_input (c : string) : bool := ends_with ".write_input" c.

Definition reads_binary_output (c : string) : bool :=
  bool_decide (c ∈ ["flopy.utils.HeadFile"; "flopy.utils.CellBudgetFile";
                    "flopy.utils.UcnFile"])
  || ends_with ".get_data" c || ends_with ".get_times" c.

(** A call into the modeling library itself. *)
Definition is_flopy (c : string) : bool := String.prefix "flopy." c.

(** Since the start of a run (raised [r0], caught [k0]) the [try] statements
    labelled in [S], and no others, caught an exception, and every exception
    raised was caught by one of them or is [pend]ing as the outcome. *)
Definition accounted (S : list string) (r0 : list exn) (k0 : list (string * exn))
    (pend : list exn) (w : world) : Prop :=
  ∃ newk, caught w = k0 ++ newk ∧ Forall (λ k, k.1 ∈ S) newk
          ∧ raised w = r0 ++ newk.*2 ++ pend.

Definition handles {A : Type} (S : list string) (m : M A) : Prop :=
  ∀ r0 k0, hoare (accounted S r0 k0 []) m
             (λ _, accounted S r0 k0 []) (λ e, accounted S r0 k0 [e]).

(** Since the start of a run (calls [c0]) every call logged goes to a callee
    accepted by [pc]. *)
Definition logged (pc : string → bool) (c0 : list entry) (w : world) : Prop :=
  ∃ new, calls w = c0 ++ new ∧ Forall (λ e, pc (callee e) = true) new.

Definition logs {A : Type} (pc : string → bool) (m : M A) : Prop :=
  ∀ c0, hoare (logged pc c0) m (λ _, logged pc c0) (λ _, logged pc c0).

(** When [m] returns, it has logged calls to exactly the callees [cs], in
    this order. *)
Definition emits {A : Type} (cs : list string) (m : M A) : Prop :=
  ∀ l, hoare (λ w, callee <$> calls w = l) m
         (λ _ w, callee <$> calls w = l ++ cs) (λ _ _, True).




(** ** Some environments *)

(** A fresh kernel in an empty working directory where every import and
    every call into a library succeeds. *)
Definition plain_world : world := fresh_kernel ∅ ∅ "Linux" (λ _, false).

(** As [plain_world], but flopy is not installed: the first [import flopy]
    raises, the one after [sys.path.append] succeeds.  It is the seventh
    import of the second notebook and the eighth of the first. *)
Definition flopy_missing (nth_import : nat) : world :=
  fresh_kernel ∅ ∅ "Linux" (λ n, bool_decide (n = nth_import)).


(** A working directory that holds the head file of an earlier run. *)
Definition stale_head_file : world :=
  fresh_kernel {[ ["data"]; ["data"; "zaidel"] ]}
    {[ ["data"; "zaidel"; "zaidel.hds"] ]} "Linux" (λ _, false).

(** The class of a callee, for counting. *)
Definition file_call (c : string) : bool :=
  writes_input c || runs_solver c || reads_binary_output c.

(** Calls that are not about the solver's files. *)
Definition no_file_call (c : string) : bool := negb (file_call c).



(** [cs] has a call that starts the solver and, later, one that reads its
    binary output. *)
Definition invokes_then_reads (cs : list string) : Prop :=
  ∃ i j c1 c2, cs !! i = Some c1 ∧ runs_solver c1 = true
               ∧ cs !! j = Some c2 ∧ reads_binary_output c2 = true
               ∧ (i < j)%nat.

(** The calls logged since the log was [c0]. *)
Definition calls_since (w0 w : world) : list entry :=
  drop (length (calls w0)) (calls w).


(** ** The lake cell with any lake array *)

(** [a[i, j] == v]; false where the index is out of range. *)
Definition cell_eqb (a : ndarray2) (i j : Z) (v : Q) : bool :=
  match getitem2 a i j with
  | Some x => Qeq_bool x v
  | None => false
  end.

#[global] Instance in_range_dec (nr nc : nat) (i j : Z) :
  Decision (in_range nr nc i j).
Proof. unfold in_range. apply _. Defined.

#[global] Instance in_bounds_dec (a : ndarray2) (i j : Z) :
  Decision (mt3d.in_bounds a i j).
Proof. unfold mt3d.in_bounds. apply _. Defined.

(** A cell that is 0 and has, among its four neighbours inside the array,
    one that is 1. *)
Definition lake_shore (L : ndarray2) (i j : Z) : bool :=
  cell_eqb L i j 0
  && existsb (λ n, bool_decide (mt3d.in_bounds L n.1 n.2) && cell_eqb L n.1 n.2 1)
       (mt3d.neighbours i j).

(** The same with the neighbours taken among the cells [V] that the loops
    have visited. *)
Definition shore_of (L : ndarray2) (nr nc : nat) (V : Z → Z → bool)
    (a b : Z) : bool :=
  cell_eqb L a b 0
  && existsb (λ n, V n.1 n.2 && bool_decide (in_range nr nc n.1 n.2)
                   && cell_eqb L n.1 n.2 1)
       (mt3d.neighbours a b).

(** [B] is [L] with 1 written on the shore of the visited lake cells. *)
Definition expanded_any (L : ndarray2) (nr nc : nat) (V : Z → Z → bool)
    (B : ndarray2) : Prop :=
  ∀ a b, in_range nr nc a b →
    getitem2 B a b = if shore_of L nr nc V a b then Some 1%Q else getitem2 L a b.

(** [np.zeros(a.shape)] for a two-dimensional array [a]: a fresh array. *)
Definition np_zeros_like (a : mt3d.ref) (h : gmap mt3d.ref ndarray2)
  : option (mt3d.ref * gmap mt3d.ref ndarray2) :=
  arr ← h !! a;
  let b := fresh (dom h) in
  Some (b, <[b := replicate (length arr)
                    (replicate (Z.to_nat (shape1 arr)) 0%Q)]> h).

(** The lake-bed leakance of the three layers:
    [[
    bdlknc_lyr1 = LakArr_lyr1.copy()
    bdlknc_lyr2 = LakArr_lyr1.copy()
    bdlknc_lyr3 = np.zeros((LakArr_lyr1.shape))
    for i in ...: for j in ...: ...
    bdlknc = [bdlknc_lyr1, bdlknc_lyr2, bdlknc_lyr3]
    bdlknc = np.array(bdlknc)
    ]] *)
Definition bdlknc (LakArr_lyr1 : mt3d.ref) (h : gmap mt3d.ref ndarray2)
  : option (ndarray3 * gmap mt3d.ref ndarray2) :=
  '(bdlknc_lyr1, h) ← mt3d.np_copy LakArr_lyr1 h;
  '(bdlknc_lyr2, h) ← mt3d.np_copy LakArr_lyr1 h;
  '(bdlknc_lyr3, h) ← np_zeros_like LakArr_lyr1 h;
  h ← mt3d.lak_loop LakArr_lyr1 bdlknc_lyr1 h;
  b1 ← h !! bdlknc_lyr1;
  b2 ← h !! bdlknc_lyr2;
  b3 ← h !! bdlknc_lyr3;
  Some ([b1; b2; b3], h).

(** ** The cells of the general head boundary *)

(** The cell [(k, i, j)] of a row of [sp]. *)
Definition ghb_cell (row : list num) : list num := take 3 row.

(** The cells of row [i] of the grid, in every layer. *)
Definition cells_of_row (i : Z) : list (list num) :=
  k ← seqZ 0 mt3d.nlay; j ← seqZ 0 mt3d.ncol; [[Int k; Int i; Int j]].

(** A row of [sp] has the stage and the conductance of its column: the six
    columns 26..31 have stage 238.20 and conductance 3409.0801, the others
    conductance 11.3636 and a stage between 229 and 240. *)
Definition ghb_row_ok (row : list num) : bool :=
  match row with
  | [Int k; Int i; Int j; Float h; Float c] =>
      if bool_decide (26 ≤ j ≤ 31)
      then bool_decide (h = 238.20%Q) && bool_decide (c = 3409.0801%Q)
      else bool_decide (c = 11.3636%Q)
           && negb (Qle_bool h 229) && negb (Qle_bool 240 h)
  | _ => false
  end.

(** ** numpy arrays with their shape

    The model parameters of the second notebook are arrays of three
    dimensions that the cell fills by slices.  An array carries its shape,
    as numpy's does: an index is checked against the length of its axis
    also where another axis is empty.  An operation that raises returns the
    exception. *)

Inductive pyerr := IndexError | ValueError | ZeroDivisionError.

Definition res (A : Type) : Type := (pyerr + A)%type.

#[global] Instance res_ret : MRet res := λ A a, inr a.
#[global] Instance res_bind : MBind res := λ A B f m,
  match m with
  | inl e => inl e
  | inr a => f a
  end.

(** [for x in xs: body] where the body may raise. *)
Fixpoint for_res {St A : Type} (xs : list A) (body : A → St → res St) (s : St)
  : res St :=
  match xs with
  | [] => inr s
  | x :: xs' =>
      match body x s with
      | inr s' => for_res xs' body s'
      | inl e => inl e
      end
  end.

Record array3 := Array3 {
  dim0 : nat;
  dim1 : nat;
  dim2 : nat;
  cells : ndarray3
}.

(** [v * np.ones((n0, n1, n2))]; a negative dimension is a [ValueError]. *)
Definition np_full (n0 n1 n2 : Z) (v : Q) : res array3 :=
  if bool_decide (0 ≤ n0 ∧ 0 ≤ n1 ∧ 0 ≤ n2)
  then inr (Array3 (Z.to_nat n0) (Z.to_nat n1) (Z.to_nat n2)
              (np_full3 (Z.to_nat n0) (Z.to_nat n1) (Z.to_nat n2) v))
  else inl ValueError.

(** [a[l, i, j]]. *)
Definition arr_get (a : array3) (l i j : Z) : res Q :=
  match np_index (dim0 a) l, np_index (dim1 a) i, np_index (dim2 a) j with
  | Some l', Some i', Some j' =>
      match lay ← cells a !! l'; r ← lay !! i'; r !! j' with
      | Some v => inr v
      | None => inl IndexError
      end
  | _, _, _ => inl IndexError
  end.

(** [a[:, :, j] = v]. *)
Definition arr_set_col (a : array3) (j : Z) (v : Q) : res array3 :=
  match np_index (dim2 a) j with
  | Some j' =>
      inr (Array3 (dim0 a) (dim1 a) (dim2 a)
             ((λ lay : list (list Q), (λ r : list Q, <[j' := v]> r) <$> lay)
              <$> cells a))
  | None => inl IndexError
  end.

(** [a[l, :, j] = v]. *)
Definition arr_set_layer_col (a : array3) (l j : Z) (v : Q) : res array3 :=
  match np_index (dim0 a) l, np_index (dim2 a) j with
  | Some l', Some j' =>
      inr (Array3 (dim0 a) (dim1 a) (dim2 a)
             (alter (λ lay : list (list Q), (λ r : list Q, <[j' := v]> r) <$> lay)
                l' (cells a)))
  | _, _ => inl IndexError
  end.

(** [np.arange(start, stop, step)] on floats: [ceil((stop - start) / step)]
    values from [start] in steps of [step]. *)
Definition np_arange_float (start stop step : Q) : res (list Q) :=
  if Qeq_bool step 0 then inl ZeroDivisionError
  else inr ((λ n, start + inject_Z n * step)%Q
            <$> seqZ 0 (Qceiling ((stop - start) / step))).

(** [a] holds [f l i j] in its cell [(l, i, j)]. *)
Definition holds (a : array3) (f : nat → nat → nat → Q) : Prop :=
  length (cells a) = dim0 a
  ∧ ∀ l, (l < dim0 a)%nat →
      ∃ lay, cells a !! l = Some lay ∧ length lay = dim1 a
        ∧ ∀ i, (i < dim1 a)%nat →
            ∃ r, lay !! i = Some r ∧ length r = dim2 a
              ∧ ∀ j, (j < dim2 a)%nat → r !! j = Some (f l i j).

(** ** The MODFLOW-USG notebook: the model parameters

    The cell reads the dimensions and the boundary heads that its first
    lines bind; the arrays are given as functions of them.
    [[
    x = np.arange(0.0, float(ncol) * delr, delr) + delr / 2.0
    ibound = np.ones((nlay, nrow, ncol), dtype=int)
    ibound[:, :, 0] = -1
    ibound[:, :, -1] = -1
    botm = 25 * np.ones((nlay + 1, nrow, ncol), dtype=float)
    base = 20.0
    for j in range(ncol):
        botm[1, :, j] = base
        if j + 1 in [40, 80, 120, 160]:
            base -= 5
    strt = h1 * np.ones((nlay, nrow, ncol), dtype=float)
    strt[:, :, -1] = h2
    ]] *)

Module zaidel_grid.

Definition x (ncol : Z) (delr : Q) : res (list Q) :=
  xs ← np_arange_float 0 (inject_Z ncol * delr) delr;
  mret ((λ v, v + delr / 2)%Q <$> xs).

Definition ibound (nlay nrow ncol : Z) : res array3 :=
  a ← np_full nlay nrow ncol 1;
  a ← arr_set_col a 0 (-1);
  arr_set_col a (-1) (-1).

Definition botm_body (j : Z) (st : array3 * Q) : res (array3 * Q) :=
  let '(botm, base) := st in
  botm' ← arr_set_layer_col botm 1 j base;
  mret (botm', if bool_decide (j + 1 ∈ [40; 80; 120; 160]) then (base - 5)%Q
               else base).

Definition botm (nlay nrow ncol : Z) : res (array3 * Q) :=
  a ← np_full (nlay + 1) nrow ncol 25;
  for_res (range ncol) botm_body (a, 20%Q).

Definition strt (nlay nrow ncol : Z) (h1 h2 : Q) : res array3 :=
  a ← np_full nlay nrow ncol h1;
  arr_set_col a (-1) h2.

End zaidel_grid.

(** ** The MT3D-USGS notebook: the grid

    [[
    delr = Lx / ncol
    delc = Ly / nrow
    xmax = ncol * delr
    ymax = nrow * delc
    X, Y = np.meshgrid(
        np.linspace(delr / 2, xmax - delr / 2, ncol),
        np.linspace(ymax - delc / 2, 0 + delc / 2, nrow),
    )
    ]]
    as a function of the four names the first lines of the cell bind. *)

(** [a / n] for a float [a] and an [int] [n]. *)
Definition float_div (a : Q) (n : Z) : res Q :=
  if n =? 0 then inl ZeroDivisionError else inr (a / inject_Z n)%Q.

(** [np.linspace(start, stop, num)]: [num] samples, evenly spaced, from
    [start] to [stop]; a single sample is [start]; a negative [num] is a
    [ValueError]. *)
Definition np_linspace (start stop : Q) (num : Z) : res (list Q) :=
  if num <? 0 then inl ValueError
  else inr ((λ i, start + inject_Z i * ((stop - start) / inject_Z (num - 1)))%Q
            <$> seqZ 0 num).

(** [np.meshgrid(xs, ys)]: two arrays of [len(ys)] rows and [len(xs)]
    columns, the first with [xs] in every row, the second with [ys] in
    every column. *)
Definition np_meshgrid (xs ys : list Q) : ndarray2 * ndarray2 :=
  ((λ _, xs) <$> ys, (λ y, (λ _, y) <$> xs) <$> ys).

Module mt3d_grid.

Definition XY (Lx Ly : Q) (nrow ncol : Z) : res (ndarray2 * ndarray2) :=
  delr ← float_div Lx ncol;
  delc ← float_div Ly nrow;
  let xmax := (inject_Z ncol * delr)%Q in
  let ymax := (inject_Z nrow * delc)%Q in
  xs ← np_linspace (delr / 2) (xmax - delr / 2) ncol;
  ys ← np_linspace (ymax - delc / 2) (0 + delc / 2) nrow;
  mret (np_meshgrid xs ys).

End mt3d_grid.

(** ** The MT3D-USGS notebook: the drains

    [[
    drnElv_lst = pd.DataFrame(
        {
            "lay": 1,
            "row": np.nonzero(drnElv)[0] + 1,
            "col": np.nonzero(drnElv)[1] + 1,
            "elv": drnElv[np.nonzero(drnElv)],
            "cond": drnCond[np.nonzero(drnCond)],
        },
        columns=["lay", "row", "col", "elv", "cond"],
    )
    stress_period_data = drnElv_lst.values.tolist()
    ]]
    as a function of the two arrays that [np.loadtxt] returns. *)

(** The cells of a two-dimensional array that are not 0, in row-major
    order. *)
Definition nonzero_cells (a : ndarray2) : list (Z * Z) :=
  i ← seqZ 0 (shape0 a);
  j ← seqZ 0 (shape1 a);
  if cell_eqb a i j 0 then [] else [(i, j)].

(** [np.nonzero(a)]: the row indices and the column indices of the cells
    that are not 0. *)
Definition np_nonzero (a : ndarray2) : list Z * list Z :=
  ((nonzero_cells a).*1, (nonzero_cells a).*2).

(** [a[(rows, cols)]] for two index arrays of one length: the entries
    [a[rows[k], cols[k]]]. *)
Definition np_take2 (a : ndarray2) (idx : list Z * list Z) : res (list Q) :=
  mapM (λ p, match getitem2 a p.1 p.2 with
             | Some v => inr v
             | None => inl IndexError
             end)
       (zip idx.1 idx.2).

(** A value of the dictionary handed to [pd.DataFrame]: a scalar or an
    array of one dimension. *)
Inductive column :=
| Scalar (v : Q)
| Column (vs : list Q).

Definition column_length (c : column) : option nat :=
  match c with
  | Scalar _ => None
  | Column vs => Some (length vs)
  end.

Definition column_at (k : nat) (c : column) : Q :=
  match c with
  | Scalar v => v
  | Column vs => default 0%Q (vs !! k)
  end.

(** [pd.DataFrame(d).values.tolist()] for a dictionary [d] of numbers and
    arrays of numbers with a float among them: the arrays must be of one
    length, a scalar is repeated to that length, and every row comes out as
    a list of floats.  Arrays of different lengths are a [ValueError], and
    so is a dictionary of scalars only. *)
Definition pd_DataFrame_values (cols : list column) : res (list (list Q)) :=
  match omap column_length cols with
  | [] => inl ValueError
  | n :: ns =>
      if forallb (Nat.eqb n) ns
      then inr ((λ k, column_at k <$> cols) <$> seq 0 n)
      else inl ValueError
  end.

Module mt3d_drn.

Definition stress_period_data (drnElv drnCond : ndarray2)
  : res (list (list Q)) :=
  let row := (λ i, inject_Z (i + 1)) <$> (np_nonzero drnElv).1 in
  let col := (λ j, inject_Z (j + 1)) <$> (np_nonzero drnElv).2 in
  elv ← np_take2 drnElv (np_nonzero drnElv);
  cond ← np_take2 drnCond (np_nonzero drnCond);
  pd_DataFrame_values
    [Scalar 1; Column row; Column col; Column elv; Column cond].

End mt3d_drn.

(** The entry of a cell, 0 where there is none. *)
Definition entry_of (a : ndarray2) (p : Z * Z) : Q :=
  default 0%Q (getitem2 a p.1 p.2).

(** The row of a drain: layer 1, the row and the column counted from 1, the
    elevation and the conductance. *)
Definition drn_row (p : Z * Z) (elv cond : Q) : list Q :=
  [1%Q; inject_Z (p.1 + 1); inject_Z (p.2 + 1); elv; cond].

(** ** Names and their bindings *)

(** An exception that is not a [NameError], or is one for a name of [U]. *)
Definition name_error_in (U : list string) (e : exn) : bool :=
  match e with
  | NameError x => bool_decide (x ∈ U)
  | _ => true
  end.

(** The names of [D] are bound. *)
Definition bound (D : list string) (w : world) : Prop :=
  ∀ x, x ∈ D → is_Some (globals w !! x).

(** The names of [D] are bound and, since the start of the run (raised
    [r0]), no name outside [U] was read unbound. *)
Definition scope_inv (U D : list string) (r0 : list exn) (w : world) : Prop :=
  bound D w
  ∧ ∃ new, raised w = r0 ++ new ∧ Forall (λ e, name_error_in U e = true) new.

(** From a state that binds [D], [m] reads unbound only names of [U], keeps
    [D] bound, and binds [D'] when it returns. *)
Definition scoped {A : Type} (U D D' : list string) (m : M A) : Prop :=
  ∀ r0, hoare (scope_inv U D r0) m
          (λ _, scope_inv U D' r0) (λ _, scope_inv U D r0).

(** The exceptions raised since the list was that of [w0]. *)
Definition raised_since (w0 w : world) : list exn :=
  drop (length (raised w0)) (raised w).

(** ** The order of the calls into the modeling library *)

(** A call into the modeling library: a constructor or function of flopy, or
    a method that writes the input files, starts the solver or reads its
    output. *)
Definition library_call (c : string) : bool := is_flopy c || file_call c.

(** Since the log was [c0], the calls accepted by [f] are [l], in this
    order. *)
Definition traced (f : string → bool) (c0 : list entry) (l : list string)
    (w : world) : Prop :=
  ∃ new, calls w = c0 ++ new ∧ List.filter f (callee <$> new) = l.

(** [m] makes the calls [cs] accepted by [f], in this order, when it
    returns, and the first few of them when it raises. *)
Definition traces {A : Type} (f : string → bool) (cs : list string) (m : M A)
  : Prop :=
  ∀ c0 l, hoare (traced f c0 l) m
            (λ _, traced f c0 (l ++ cs))
            (λ _ w, ∃ p, p `prefix_of` cs ∧ traced f c0 (l ++ p) w).

(** The name of an executable on the platform of [w]. *)
Definition exe_on (w : world) (s : string) : string :=
  if bool_decide (system w = "Windows") then s +:+ ".exe" else s.

(** The names the setup cell of the MODFLOW-USG notebook binds, on Windows
    ([win]) and elsewhere. *)
Definition zaidel_setup_globals (win : bool) (g : gmap string binding)
  : gmap string binding :=
  <["modelpth" := Binding (VPath ["data"; "zaidel"]) false]>
    (<["modelname" := Binding (VStr "zaidel") false]>
       (<["mfexe" := Binding (VStr (if win then "mfusg.exe" else "mfusg")) false]>
          (if win
           then <["exe_name" := Binding (VStr "mfusg.exe") false]>
                  (<["exe_name" := Binding (VStr "mfusg") false]> g)
           else <["exe_name" := Binding (VStr "mfusg") false]> g))).


(** The calls into the modeling library that the notebooks make, in the
    order of the source. *)
Definition mt3d_library_calls : list string :=
  ["flopy.modflow.Modflow"; "flopy.modflow.ModflowOc";
   "flopy.modflow.ModflowNwt"; "flopy.modflow.ModflowDis";
   "flopy.modflow.ModflowUpw"; "flopy.modflow.ModflowBas";
   "flopy.modflow.ModflowGhb"; "flopy.modflow.ModflowSfr2";
   "flopy.modflow.ModflowLak"; "flopy.modflow.ModflowGage";
   "flopy.modflow.ModflowUzf1"; "flopy.modflow.ModflowDrn";
   "flopy.modflow.ModflowLmt"; "flopy.mt3d.Mt3dms"; "flopy.mt3d.Mt3dBtn";
   "flopy.mt3d.Mt3dAdv"; "flopy.mt3d.Mt3dGcg"; "flopy.mt3d.Mt3dDsp";
   "flopy.mt3d.Mt3dSsm"; "flopy.mt3d.Mt3dRct"; "flopy.mt3d.Mt3dSft";
   "flopy.mt3d.Mt3dUzt"; "flopy.mt3d.Mt3dLkt";
   "mf.write_input"; "mt.write_input"].

Definition zaidel_library_calls : list string :=
  ["flopy.mfusg.MfUsg"; "flopy.modflow.ModflowDis";
   "flopy.modflow.ModflowBas"; "flopy.mfusg.MfUsgLpf";
   "flopy.modflow.ModflowOc"; "flopy.mfusg.MfUsgSms";
   "mf.write_input"; "mf.run_model";
   "flopy.utils.HeadFile"; "headobj.get_times"; "headobj.get_data"].

(** ** The values handed to the library *)

(** The names of [P] are bound to the values that [P] gives them. *)
Definition pins (P : list (string * binding)) (w : world) : Prop :=
  ∀ x b, (x, b) ∈ P → globals w !! x = Some b.

(** [P] without the name [x]. *)
Definition drop_name (x : string) (P : list (string * binding))
  : list (string * binding) :=
  List.filter (λ p, negb (String.eqb p.1 x)) P.

(** The paths [os.makedirs(p)] can make: [p] and the paths above it. *)
Definition ancestors (p : list string) : list (list string) :=
  (λ k, take k p) <$> seq 1 (length p).

(** Since the directories were [d0] and the files [f0], directories were
    made among [D] only, and files were removed only if [R] allows it; no
    file was made. *)
Definition fs_inv (D : list (list string)) (R : bool)
    (d0 f0 : gset (list string)) (w : world) : Prop :=
  dirs w ⊆ d0 ∪ list_to_set D
  ∧ if R then files w ⊆ f0 else files w = f0.

(** On Windows or not ([win]), the names of [P] are bound as [P] says and,
    since the log was [c0], every call logged is [good]; the file system
    has changed within [D] and [R]. *)
Definition pin_inv (good : entry → Prop) (win : bool)
    (D : list (list string)) (R : bool) (P : list (string * binding))
    (c0 : list entry) (d0 f0 : gset (list string)) (w : world) : Prop :=
  bool_decide (system w = "Windows") = win ∧ pins P w
  ∧ (∃ new, calls w = c0 ++ new ∧ Forall good new)
  ∧ fs_inv D R d0 f0 w.

(** From a state that binds the names of [P] as [P] says, [m] logs good
    calls only and changes the file system within [D] and [R]; it binds the
    names of [P'] as [P'] says when it returns, and those of [E] as [E]
    says when it raises. *)
Definition pinned {A : Type} (good : entry → Prop) (win : bool)
    (D : list (list string)) (R : bool)
    (P P' E : list (string * binding)) (m : M A) : Prop :=
  ∀ c0 d0 f0, hoare (pin_inv good win D R P c0 d0 f0) m
                (λ _, pin_inv good win D R P' c0 d0 f0)
                (λ _, pin_inv good win D R E c0 d0 f0).

(** The same for an expression, which binds no name; when it returns, its
    value satisfies [φ]. *)
Definition yields {A : Type} (good : entry → Prop) (win : bool)
    (D : list (list string)) (R : bool)
    (P E : list (string * binding)) (m : M A) (φ : A → Prop) : Prop :=
  ∀ c0 d0 f0, hoare (pin_inv good win D R P c0 d0 f0) m
                (λ r w, φ r ∧ pin_inv good win D R P c0 d0 f0 w)
                (λ _, pin_inv good win D R E c0 d0 f0).

(** The calls of the MODFLOW-USG notebook that take the model as their
    first argument: the packages, and the methods that write the input
    files and run the solver. *)
Definition zaidel_model_calls : list string :=
  ["flopy.modflow.ModflowDis"; "flopy.modflow.ModflowBas";
   "flopy.mfusg.MfUsgLpf"; "flopy.modflow.ModflowOc";
   "flopy.mfusg.MfUsgSms"; "mf.write_input"; "mf.run_model"].

(** What the calls of the MODFLOW-USG notebook are given: the model its
    name, its executable [exe] and its workspace; the packages and the
    methods of the model the model; [HeadFile] the head file of the
    workspace. *)
Definition zaidel_given (exe : string) (e : entry) : Prop :=
  if String.eqb (callee e) "flopy.mfusg.MfUsg"
  then args e = [Binding (VStr "zaidel") false; Binding (VStr exe) false;
                 Binding (VPath ["data"; "zaidel"]) false]
  else if existsb (String.eqb (callee e)) zaidel_model_calls
  then head (args e) = Some (Binding (VObj "flopy.mfusg.MfUsg") false)
  else if String.eqb (callee e) "flopy.utils.HeadFile"
  then args e = [Binding (VPath ["data"; "zaidel"; "zaidel.hds"]) false]
  else True.

(** The same for the MT3D-USGS notebook, with its two models. *)
Definition mt3d_flow_calls : list string :=
  ["flopy.modflow.ModflowOc"; "flopy.modflow.ModflowNwt";
   "flopy.modflow.ModflowDis"; "flopy.modflow.ModflowUpw";
   "flopy.modflow.ModflowBas"; "flopy.modflow.ModflowGhb";
   "flopy.modflow.ModflowSfr2"; "flopy.modflow.ModflowLak";
   "flopy.modflow.ModflowGage"; "flopy.modflow.ModflowUzf1";
   "flopy.modflow.ModflowDrn"; "flopy.modflow.ModflowLmt";
   "mf.write_input"].

Definition mt3d_transport_calls : list string :=
  ["flopy.mt3d.Mt3dBtn"; "flopy.mt3d.Mt3dAdv"; "flopy.mt3d.Mt3dGcg";
   "flopy.mt3d.Mt3dDsp"; "flopy.mt3d.Mt3dSsm"; "flopy.mt3d.Mt3dRct";
   "flopy.mt3d.Mt3dSft"; "flopy.mt3d.Mt3dUzt"; "flopy.mt3d.Mt3dLkt";
   "mt.write_input"].

Definition mt3d_given (mfexe mtexe : string) (e : entry) : Prop :=
  if String.eqb (callee e) "flopy.modflow.Modflow"
  then args e = [Binding (VStr "no3") false; Binding (VStr mfexe) false;
                 Binding (VPath ["."; "temp"; "no3"]) false]
  else if String.eqb (callee e) "flopy.mt3d.Mt3dms"
  then args e = [Binding (VObj "flopy.modflow.Modflow") false;
                 Binding (VStr "no3") false;
                 Binding (VPath ["."; "temp"; "no3"]) false;
                 Binding (VStr mtexe) false]
  else if existsb (String.eqb (callee e)) mt3d_flow_calls
  then head (args e) = Some (Binding (VObj "flopy.modflow.Modflow") false)
  else if existsb (String.eqb (callee e)) mt3d_transport_calls
  then head (args e) = Some (Binding (VObj "flopy.mt3d.Mt3dms") false)
  else True.

(** The directories the notebooks may make: the model workspace and the
    directory above it. *)
Definition zaidel_dirs : list (list string) := [["data"]; ["data"; "zaidel"]].

Definition mt3d_dirs : list (list string) := [["temp"]; ["temp"; "no3"]].

(** * Theorems *)

(** ** The data loops *)

Lemma np_index_in (n : nat) (i : Z) :
  0 ≤ i < Z.of_nat n → np_index n i = Some (Z.to_nat i).
Proof. intros H. unfold np_index. by rewrite bool_decide_eq_true_2. Qed.

Lemma np_arange_unit (n : Z) : np_arange 0 n 1 = seqZ 0 n.
Proof.
  unfold np_arange. replace (n - 0 + 1 - 1) with n by lia.
  rewrite Z.div_1_r. rewrite <- (list_fmap_id (seqZ 0 n)) at 2.
  apply list_fmap_ext. intros _ k _. simpl. lia.
Qed.

Lemma has_shape_row nr nc a i j :
  has_shape nr nc a → in_range nr nc i j →
  ∃ r, a !! Z.to_nat i = Some r ∧ length r = nc.
Proof.
  intros [Hlen Hrect] [Hi Hj].
  destruct (lookup_lt_is_Some_2 a (Z.to_nat i)) as [r Hr]; [lia|].
  exists r. split; [done|].
  unfold rect in Hrect. rewrite Forall_forall in Hrect.
  apply Hrect. by eapply list_elem_of_lookup_2.
Qed.

Lemma getitem2_in_range nr nc a i j :
  has_shape nr nc a → in_range nr nc i j →
  ∃ r, a !! Z.to_nat i = Some r ∧ length r = nc
       ∧ getitem2 a i j = r !! Z.to_nat j ∧ is_Some (r !! Z.to_nat j).
Proof.
  intros Ha Hij. destruct (has_shape_row _ _ _ _ _ Ha Hij) as (r & Hr & Hlen).
  destruct Ha as [Hl _], Hij as [Hi Hj].
  exists r. repeat split; try done.
  - unfold getitem2. rewrite np_index_in by lia. simpl. rewrite Hr. simpl.
    rewrite np_index_in by lia. done.
  - apply lookup_lt_is_Some_2. lia.
Qed.

Lemma setitem2_in_range nr nc a i j v :
  has_shape nr nc a → in_range nr nc i j →
  ∃ a', setitem2 a i j v = Some a' ∧ has_shape nr nc a'
    ∧ ∀ i' j', in_range nr nc i' j' →
        getitem2 a' i' j' =
          if decide (i' = i ∧ j' = j) then Some v else getitem2 a i' j'.
Proof.
  intros Ha Hij.
  destruct (has_shape_row _ _ _ _ _ Ha Hij) as (r & Hr & Hlen).
  pose proof Ha as [Hl Hrect]. pose proof Hij as [Hi Hj].
  eexists. split; [|split].
  - unfold setitem2. rewrite np_index_in by lia. simpl. rewrite Hr. simpl.
    rewrite np_index_in by lia. simpl. reflexivity.
  - split; [by rewrite length_insert|].
    unfold rect. apply Forall_insert; [done|]. by rewrite length_insert.
  - intros i' j' Hij'. pose proof Hij' as [Hi' Hj'].
    assert (has_shape nr nc (<[Z.to_nat i:=<[Z.to_nat j:=v]> r]> a)) as Ha'.
    { split; [by rewrite length_insert|].
      unfold rect. apply Forall_insert; [done|]. by rewrite length_insert. }
    destruct (getitem2_in_range _ _ _ _ _ Ha' Hij') as (r' & Hr' & _ & -> & _).
    destruct (getitem2_in_range _ _ _ _ _ Ha Hij') as (r0 & Hr0 & _ & -> & _).
    destruct (decide (i' = i)) as [->|Hne].
    + rewrite list_lookup_insert_eq in Hr' by lia.
      injection Hr' as <-. rewrite Hr in Hr0. injection Hr0 as <-.
      destruct (decide (j' = j)) as [->|Hnej].
      * rewrite decide_True by done.
        apply list_lookup_insert_eq. lia.
      * rewrite decide_False by (intros [_ ?]; done).
        apply list_lookup_insert_ne. lia.
    + rewrite decide_False by (intros [? _]; done).
      rewrite list_lookup_insert_ne in Hr' by lia. congruence.
Qed.

Lemma binary_getitem2 nr nc a i j :
  has_shape nr nc a → binary a → in_range nr nc i j →
  getitem2 a i j = Some 0%Q ∨ getitem2 a i j = Some 1%Q.
Proof.
  intros Ha Hb Hij.
  destruct (getitem2_in_range _ _ _ _ _ Ha Hij) as (r & Hr & _ & -> & [x Hx]).
  unfold binary in Hb. rewrite Forall_forall in Hb.
  specialize (Hb r (list_elem_of_lookup_2 _ _ _ Hr)).
  rewrite Forall_forall in Hb.
  destruct (Hb x (list_elem_of_lookup_2 _ _ _ Hx)) as [->| ->]; rewrite Hx; auto.
Qed.

Lemma for_opt_seqZ_inv {St : Type} (I : Z → St → Prop) (body : Z → St → option St)
    (n : Z) (s : St) :
  I 0 s →
  (∀ k s, 0 ≤ k < n → I k s → ∃ s', body k s = Some s' ∧ I (k + 1) s') →
  ∃ s', for_opt (seqZ 0 n) body s = Some s' ∧ I (Z.max 0 n) s'.
Proof.
  intros H0 Hstep.
  assert (∀ (m : nat) (k : Z) s, 0 ≤ k → k + Z.of_nat m = Z.max 0 n → I k s →
            ∃ s', for_opt (seqZ k (Z.of_nat m)) body s = Some s'
                  ∧ I (Z.max 0 n) s') as Hgen.
  { induction m as [|m IH]; intros k s0 Hk Hkm Hs0.
    - exists s0. split; [done|]. by replace (Z.max 0 n) with k by lia.
    - rewrite seqZ_cons by lia. simpl.
      destruct (Hstep k s0) as (s1 & -> & Hs1); [lia|done|].
      replace (Z.pred (Z.of_nat (S m))) with (Z.of_nat m) by lia.
      apply IH; [lia|lia|]. by replace (Z.succ k) with (k + 1) by lia. }
  destruct (decide (0 ≤ n)) as [Hn|Hn].
  - specialize (Hgen (Z.to_nat n) 0 s). rewrite Z2Nat.id in Hgen by done.
    apply Hgen; [lia|lia|done].
  - rewrite seqZ_nil by lia. exists s. split; [done|].
    by replace (Z.max 0 n) with 0 by lia.
Qed.

Section lake_expansion.

Context (LakArr_lyr1 bdlknc_lyr1 : mt3d.ref) (L : ndarray2) (nr nc : nat).
Context (h0 : gmap mt3d.ref ndarray2).
Hypothesis distinct : LakArr_lyr1 ≠ bdlknc_lyr1.
Hypothesis L_shape : has_shape nr nc L.
Hypothesis L_binary : binary L.

Local Abbreviation lake_store := (mt3d.lake_store LakArr_lyr1 bdlknc_lyr1 L nr nc h0).
Local Abbreviation expanded := (mt3d.expanded L nr nc).

Lemma lak_write_spec (g : bool) (i j i' j' : Z) (B : ndarray2) h :
  lake_store B h → in_range nr nc i j →
  (if g then in_range nr nc i' j' else ¬ in_range nr nc i' j') →
  ∃ B' h',
    (if g then mt3d.lak_write LakArr_lyr1 bdlknc_lyr1 i j i' j' h else Some h)
      = Some h'
    ∧ lake_store B' h'
    ∧ ∀ a b, in_range nr nc a b →
        getitem2 B' a b = Some 1%Q ↔
          getitem2 B a b = Some 1%Q
          ∨ (a = i' ∧ b = j' ∧ getitem2 L i j = Some 1%Q
             ∧ getitem2 L i' j' = Some 0%Q).
Proof.
  intros Hst Hij Hg. pose proof Hst as (HhL & HhB & HB & Hother).
  destruct g.
  - unfold mt3d.lak_write. rewrite HhL. simpl.
    destruct (binary_getitem2 _ _ _ _ _ L_shape L_binary Hij) as [Hx|Hx];
      rewrite Hx; simpl.
    + exists B, h. split; [done|]. split; [done|]. intros a b _.
      split; [tauto|]. intros [?|(_ & _ & ? & _)]; [done|congruence].
    + destruct (binary_getitem2 _ _ _ _ _ L_shape L_binary Hg) as [Hy|Hy];
        rewrite Hy; simpl.
      * rewrite HhB. simpl.
        destruct (setitem2_in_range _ _ _ _ _ 1%Q HB Hg) as (B' & -> & HB' & Hget).
        simpl. exists B', (<[bdlknc_lyr1:=B']> h). split; [done|]. split.
        { split; [by rewrite lookup_insert_ne|].
          split; [by rewrite lookup_insert_eq|]. split; [done|].
          intros l Hl. rewrite lookup_insert_ne by done. by apply Hother. }
        intros a b Hab. rewrite (Hget _ _ Hab).
        destruct (decide (a = i' ∧ b = j')) as [[-> ->]|Hne]; [tauto|].
        split; [tauto|]. intros [?|(? & ? & _)]; [done|tauto].
      * exists B, h. split; [done|]. split; [done|]. intros a b _.
        split; [tauto|]. intros [?|(_ & _ & _ & ?)]; [done|congruence].
  - exists B, h. split; [done|]. split; [done|]. intros a b Hab.
    split; [tauto|]. intros [?|(-> & -> & _)]; [done|tauto].
Qed.

Lemma L_shape0 : shape0 L = Z.of_nat nr.
Proof. unfold shape0. by destruct L_shape as [-> _]. Qed.

Lemma L_shape1 (i j : Z) : in_range nr nc i j → shape1 L = Z.of_nat nc.
Proof.
  intros Hij. destruct (has_shape_row _ _ _ _ _ L_shape Hij) as (r & Hr & Hlen).
  destruct L_shape as [_ Hrect]. unfold shape1.
  destruct L as [|r0 L']; [done|]. by rewrite (Forall_inv Hrect).
Qed.

Lemma lak_body_spec (i j : Z) (B : ndarray2) h :
  lake_store B h → in_range nr nc i j →
  ∃ B' h',
    mt3d.lak_body LakArr_lyr1 bdlknc_lyr1 i j h = Some h'
    ∧ lake_store B' h'
    ∧ ∀ a b, in_range nr nc a b →
        getitem2 B' a b = Some 1%Q ↔
          getitem2 B a b = Some 1%Q
          ∨ (mt3d.adjacent i j a b ∧ getitem2 L i j = Some 1%Q
             ∧ getitem2 L a b = Some 0%Q).
Proof.
  intros Hst Hij. pose proof Hij as [Hi Hj]. unfold mt3d.lak_body.
  destruct (lak_write_spec (i - 1 >=? 0) i j (i - 1) j B h Hst Hij)
    as (B1 & h1 & -> & Hst1 & H1).
  { rewrite Z.geb_leb. destruct (Z.leb_spec 0 (i - 1)); unfold in_range; lia. }
  simpl. destruct Hst1 as (HL1 & Hst1). rewrite HL1. simpl. rewrite L_shape0.
  destruct (lak_write_spec (i + 1 <? Z.of_nat nr) i j (i + 1) j B1 h1
              (conj HL1 Hst1) Hij) as (B2 & h2 & -> & Hst2 & H2).
  { destruct (Z.ltb_spec (i + 1) (Z.of_nat nr)); unfold in_range; lia. }
  simpl.
  destruct (lak_write_spec (j - 1 >=? 0) i j i (j - 1) B2 h2 Hst2 Hij)
    as (B3 & h3 & -> & Hst3 & H3).
  { rewrite Z.geb_leb. destruct (Z.leb_spec 0 (j - 1)); unfold in_range; lia. }
  simpl. destruct Hst3 as (HL3 & Hst3). rewrite HL3. simpl.
  rewrite (L_shape1 _ _ Hij).
  destruct (lak_write_spec (j + 1 <? Z.of_nat nc) i j i (j + 1) B3 h3
              (conj HL3 Hst3) Hij) as (B4 & h4 & -> & Hst4 & H4).
  { destruct (Z.ltb_spec (j + 1) (Z.of_nat nc)); unfold in_range; lia. }
  exists B4, h4. split; [done|]. split; [done|].
  intros a b Hab. rewrite (H4 _ _ Hab), (H3 _ _ Hab), (H2 _ _ Hab), (H1 _ _ Hab).
  unfold mt3d.adjacent, mt3d.neighbours. rewrite !elem_of_cons, elem_of_nil.
  split.
  - intros [[[[?|(-> & -> & ? & ?)]|(-> & -> & ? & ?)]|(-> & -> & ? & ?)]
           |(-> & -> & ? & ?)]; auto 10.
  - intros [?|([Heq|[Heq|[Heq|[Heq|[]]]]] & ? & ?)]; [tauto|..];
      injection Heq as -> ->; tauto.
Qed.

(** Adding the cell just visited to the visited set. *)
Lemma expanded_visit (V V' : Z → Z → Prop) (i j : Z) (B B' : ndarray2) :
  in_range nr nc i j →
  (∀ a b, in_range nr nc a b → V' a b ↔ V a b ∨ (a = i ∧ b = j)) →
  expanded V B →
  (∀ a b, in_range nr nc a b →
     getitem2 B' a b = Some 1%Q ↔
       getitem2 B a b = Some 1%Q
       ∨ (mt3d.adjacent i j a b ∧ getitem2 L i j = Some 1%Q
          ∧ getitem2 L a b = Some 0%Q)) →
  expanded V' B'.
Proof.
  intros Hij HV HB Hstep a b Hab. rewrite (Hstep _ _ Hab), (HB _ _ Hab).
  split.
  - intros [[?|(i' & j' & ? & Hr & ? & ?)]|(? & ? & ?)]; [by left|right..].
    + exists i', j'. rewrite (HV _ _ Hr). tauto.
    + exists i, j. rewrite (HV _ _ Hij). tauto.
  - intros [?|(i' & j' & HV' & Hr & Hadj & H1)]; [by left; left|].
    apply (HV _ _ Hr) in HV' as [?|[-> ->]].
    + left; right. by exists i', j'.
    + destruct (binary_getitem2 _ _ _ _ _ L_shape L_binary Hab); [|by left; left].
      by right.
Qed.

Lemma expanded_ext (V V' : Z → Z → Prop) (B : ndarray2) :
  (∀ a b, in_range nr nc a b → V a b ↔ V' a b) → expanded V B → expanded V' B.
Proof.
  intros HV HB a b Hab. rewrite (HB _ _ Hab). split.
  - intros [?|(i & j & ? & Hr & ?)]; [by left|right].
    exists i, j. by rewrite <- (HV _ _ Hr).
  - intros [?|(i & j & ? & Hr & ?)]; [by left|right].
    exists i, j. by rewrite (HV _ _ Hr).
Qed.

Lemma lak_inner_spec (i : Z) (B : ndarray2) h :
  0 ≤ i < Z.of_nat nr →
  lake_store B h → expanded (λ a _, a < i) B →
  ∃ B' h',
    for_opt (np_arange 0 (Z.of_nat nc) 1) (mt3d.lak_body LakArr_lyr1 bdlknc_lyr1 i) h
      = Some h'
    ∧ lake_store B' h' ∧ expanded (λ a _, a < i + 1) B'.
Proof.
  intros Hi Hst HB. rewrite np_arange_unit.
  destruct (for_opt_seqZ_inv
    (λ k h, ∃ B, lake_store B h ∧ expanded (λ a b, a < i ∨ (a = i ∧ b < k)) B)
    (mt3d.lak_body LakArr_lyr1 bdlknc_lyr1 i) (Z.of_nat nc) h)
    as (h' & Hrun & B' & Hst' & HB').
  - exists B. split; [done|]. eapply expanded_ext; [|done].
    intros a b [_ ?]. simpl. lia.
  - intros k hk Hk (Bk & Hstk & HBk).
    destruct (lak_body_spec i k Bk hk Hstk) as (Bk' & hk' & Hbody & Hstk' & Hrel);
      [done|].
    exists hk'. split; [done|]. exists Bk'. split; [done|].
    eapply (expanded_visit _ _ i k); [done| |done|done].
    intros a b _. simpl. lia.
  - exists B', h'. split; [done|]. split; [done|].
    eapply expanded_ext; [|done]. intros a b [_ ?]. simpl. lia.
Qed.

Lemma lak_loop_spec (B : ndarray2) h :
  lake_store B h → expanded (λ _ _, False) B →
  ∃ B' h',
    mt3d.lak_loop LakArr_lyr1 bdlknc_lyr1 h = Some h'
    ∧ lake_store B' h' ∧ expanded (λ _ _, True) B'.
Proof.
  intros Hst HB. unfold mt3d.lak_loop.
  destruct Hst as (HhL & Hst). rewrite HhL. simpl.
  rewrite L_shape0, np_arange_unit.
  destruct (for_opt_seqZ_inv
    (λ k h, ∃ B, lake_store B h ∧ expanded (λ a _, a < k) B)
    (λ i h, n1 ← shape1 <$> h !! LakArr_lyr1;
            for_opt (np_arange 0 n1 1) (mt3d.lak_body LakArr_lyr1 bdlknc_lyr1 i) h)
    (Z.of_nat nr) h)
    as (h' & Hrun & B' & Hst' & HB').
  - exists B. split; [done|]. eapply expanded_ext; [|done].
    intros a b [? _]. simpl. lia.
  - intros k hk Hk (Bk & Hstk & HBk).
    destruct Hstk as (HkL & Hstk). rewrite HkL. simpl.
    destruct (decide (nc = 0%nat)) as [Hnc|Hnc].
    + (* rows without columns: the inner loop does not run *)
      assert (shape1 L = 0) as ->.
      { destruct L_shape as [_ Hrect]. unfold shape1.
        destruct L as [|r0 L']; [done|]. rewrite (Forall_inv Hrect). lia. }
      exists hk. split; [reflexivity|]. exists Bk. split; [by split|].
      intros a b [_ ?]. lia.
    + rewrite (L_shape1 k 0) by (unfold in_range; lia).
      destruct (lak_inner_spec k Bk hk Hk (conj HkL Hstk) HBk)
        as (Bk' & hk' & -> & ? & ?).
      exists hk'. split; [done|]. by exists Bk'.
  - exists B', h'. split; [done|]. split; [done|].
    eapply expanded_ext; [|done]. intros a b [? _]. simpl. lia.
Qed.

End lake_expansion.

Lemma neighbours_sym (i j a b : Z) :
  (a, b) ∈ mt3d.neighbours i j ↔ (i, j) ∈ mt3d.neighbours a b.
Proof.
  unfold mt3d.neighbours. rewrite !elem_of_cons, !elem_of_nil.
  split; intros [Heq|[Heq|[Heq|[Heq|[]]]]]; injection Heq as ??; subst.
  all: try (right; left; f_equal; lia).
  all: try (left; f_equal; lia).
  all: try (right; right; left; f_equal; lia).
  all: try (right; right; right; left; f_equal; lia).
Qed.

Lemma in_bounds_in_range (nr nc : nat) (L : ndarray2) (i j : Z) :
  has_shape nr nc L → mt3d.in_bounds L i j ↔ in_range nr nc i j.
Proof.
  intros [Hlen Hrect]. unfold mt3d.in_bounds, in_range, shape0, shape1.
  destruct L as [|r L']; simpl in *; [subst; lia|].
  rewrite (Forall_inv Hrect). subst. simpl. lia.
Qed.

(** C9.  For every lake array of layer 1 whose entries are all 0 or 1, the
    copy and the two nested loops return without an [IndexError], leave the
    array bound to [LakArr_lyr1] (and every other array of the store) as it
    was, and leave under [bdlknc_lyr1] a new array in which a cell is 1
    exactly when it is 1 in [LakArr_lyr1] or one of its four neighbours
    inside the array is: the expansion is by one cell and does not
    cascade. *)
Theorem bdlknc_expansion (h : gmap mt3d.ref ndarray2) (LakArr_lyr1 : mt3d.ref)
    (L : ndarray2) (nc : nat) :
  h !! LakArr_lyr1 = Some L → rect nc L → binary L →
  ∃ bdlknc_lyr1 h' B,
    mt3d.bdlknc_expand LakArr_lyr1 h = Some (bdlknc_lyr1, h')
    ∧ bdlknc_lyr1 ≠ LakArr_lyr1
    ∧ h' !! LakArr_lyr1 = Some L
    ∧ (∀ l, l ≠ bdlknc_lyr1 → h' !! l = h !! l)
    ∧ h' !! bdlknc_lyr1 = Some B
    ∧ ∀ i j, mt3d.in_bounds L i j →
        getitem2 B i j = Some 1%Q ↔
          getitem2 L i j = Some 1%Q
          ∨ ∃ i' j', (i', j') ∈ mt3d.neighbours i j ∧ mt3d.in_bounds L i' j'
                     ∧ getitem2 L i' j' = Some 1%Q.
Proof.
  intros HhL Hrect Hbin.
  assert (has_shape (length L) nc L) as HL by done.
  set (bd := fresh (dom h)).
  assert (bd ≠ LakArr_lyr1) as Hne.
  { intros Heq. apply (is_fresh (dom h)). fold bd. rewrite Heq.
    apply elem_of_dom. by exists L. }
  destruct (lak_loop_spec LakArr_lyr1 bd L (length L) nc h (not_eq_sym Hne)
              HL Hbin L (<[bd:=L]> h)) as (B & h' & Hrun & Hst & HB).
  { split; [by rewrite lookup_insert_ne|].
    split; [by rewrite lookup_insert_eq|]. split; [done|].
    intros l Hl. by rewrite lookup_insert_ne. }
  { intros a b _. split; [by left|]. intros [?|(? & ? & [] & _)]. done. }
  destruct Hst as (HL' & HB' & _ & Hother).
  exists bd, h', B. split.
  { unfold mt3d.bdlknc_expand, mt3d.np_copy. rewrite HhL. simpl. fold bd.
    by rewrite Hrun. }
  repeat (split; [done|]).
  intros i j Hij. apply (in_bounds_in_range _ _ _ _ _ HL) in Hij.
  rewrite (HB _ _ Hij). apply or_iff_compat_l. split.
  - intros (i' & j' & _ & Hr & Hadj & H1). exists i', j'.
    split; [by apply neighbours_sym|]. split; [|done].
    by apply (in_bounds_in_range _ _ _ _ _ HL).
  - intros (i' & j' & Hadj & Hr & H1). exists i', j'.
    split; [done|]. split; [by apply (in_bounds_in_range _ _ _ _ _ HL)|].
    split; [by apply neighbours_sym|done].
Qed.


(** A property checked on every element of a range holds on the range. *)
Lemma range_check (P : Z → Prop) `{!∀ j, Decision (P j)} (n : Z) :
  bool_decide (Forall P (seqZ 0 n)) = true → ∀ j, 0 ≤ j < n → P j.
Proof.
  intros Hc j Hj. apply bool_decide_eq_true in Hc.
  rewrite Forall_forall in Hc. apply Hc, elem_of_seqZ. lia.
Qed.

Lemma steps_at_or_below_cases (j : Z) :
  (j < 40 ∧ zaidel.steps_at_or_below j = 0)
  ∨ (40 ≤ j < 80 ∧ zaidel.steps_at_or_below j = 1)
  ∨ (80 ≤ j < 120 ∧ zaidel.steps_at_or_below j = 2)
  ∨ (120 ≤ j < 160 ∧ zaidel.steps_at_or_below j = 3)
  ∨ (160 ≤ j ∧ zaidel.steps_at_or_below j = 4).
Proof.
  unfold zaidel.steps_at_or_below, filter; cbn -[Z.le].
  repeat (case_decide; cbn -[Z.le]); lia.
Qed.

(** C10.  The loop returns, and for every column [j] of 0..199 the bottom of
    the layer is [20 - 5 * n], with [n] the number of 40, 80, 120, 160 that
    are at most [j]: 20 on columns 0..39, falling to 0 on columns 160..199,
    and always one of 0, 5, 10, 15, 20. *)
Theorem botm_staircase :
  ∃ botm base, zaidel.botm_loop = Some (botm, base) ∧
    ∀ j, 0 ≤ j < 200 →
      getitem3 botm 1 0 j = Some (inject_Z (20 - 5 * zaidel.steps_at_or_below j))
      ∧ (j < 40 → getitem3 botm 1 0 j = Some 20%Q)
      ∧ (160 ≤ j → getitem3 botm 1 0 j = Some 0%Q)
      ∧ ∃ v, getitem3 botm 1 0 j = Some v ∧ v ∈ [0; 5; 10; 15; 20]%Q.
Proof.
  destruct zaidel.botm_loop as [[botm base]|] eqn:Hloop;
    [|by vm_compute in Hloop].
  exists botm, base. split; [done|].
  vm_compute in Hloop. injection Hloop as <- <-.
  intros j Hj.
  match goal with |- ?G ∧ _ => assert G as Hmain end.
  { set (b := getitem3 _ 1 0).
    revert j Hj.
    apply (range_check
             (λ j, b j = Some (inject_Z (20 - 5 * zaidel.steps_at_or_below j)))).
    vm_compute. reflexivity. }
  split; [exact Hmain|]. rewrite Hmain.
  destruct (steps_at_or_below_cases j) as [[? ->]|[[? ->]|[[? ->]|[[? ->]|[? ->]]]]];
    (split; [intros; try lia; reflexivity|]);
    (split; [intros; try lia; reflexivity|]);
    eexists; (split; [reflexivity|]); cbn;
    repeat first [apply list_elem_of_here|apply list_elem_of_further].
Qed.

(** ** Rules for [hoare] *)

Lemma hoare_ret {A} (a : A) (P : world → Prop) Q E :
  (∀ w, P w → Q a w) → hoare P (mret a) Q E.
Proof. intros H w Hw. by apply H. Qed.

Lemma hoare_bind {A B} (m : M A) (f : A → M B) P R Q E :
  hoare P m R E → (∀ a, hoare (R a) (f a) Q E) → hoare P (m ≫= f) Q E.
Proof.
  intros Hm Hf w Hw. specialize (Hm w Hw).
  unfold mbind, M_bind. destruct (m w) as [[a|e] w1]; [|done].
  by apply Hf.
Qed.

Lemma hoare_conseq {A} (m : M A) (P P' : world → Prop) Q Q' E E' :
  hoare P' m Q' E' → (∀ w, P w → P' w) → (∀ a w, Q' a w → Q a w) →
  (∀ e w, E' e w → E e w) → hoare P m Q E.
Proof.
  intros Hm HP HQ HE w Hw. specialize (Hm w (HP w Hw)).
  destruct (m w) as [[a|e] w1]; auto.
Qed.

Lemma hoare_try {A} label (body handler : M A) P Q E E' :
  hoare P body Q E' →
  (∀ e, hoare (λ w, ∃ w0, E' e w0 ∧ w = set_caught (caught w0 ++ [(label, e)]) w0)
          handler Q E) →
  hoare P (try_except label body handler) Q E.
Proof.
  intros Hb Hh w Hw. specialize (Hb w Hw). unfold try_except.
  destruct (body w) as [[a|e] w1]; [done|]. apply (Hh e). by exists w1.
Qed.

(** A run that returns went through each cell in turn. *)
Lemma run_cells_cons (c : M unit) (cs : list (M unit)) (w w' : world) :
  run_cells (c :: cs) w = (Ok tt, w') ↔
  ∃ w1, c w = (Ok tt, w1) ∧ run_cells cs w1 = (Ok tt, w').
Proof.
  cbn [run_cells]. unfold mbind, M_bind.
  destruct (c w) as [[[]|e] w1]; split.
  - intros H. by exists w1.
  - by intros (w2 & [= <-] & H).
  - done.
  - by intros (w2 & [= ] & H).
Qed.

(** ** The file system calls *)

Lemma mkdir_inr (p : list string) (w w' : world) :
  mkdir p w = inr w' → w' = set_dirs ({[p]} ∪ dirs w) w.
Proof. unfold mkdir. repeat case_match; naive_solver. Qed.

Lemma set_dirs_id (w : world) : set_dirs (dirs w) w = w.
Proof. by destruct w. Qed.

(** The leaf step of [os.makedirs] keeps all but the directories, and those
    grow. *)
Lemma makedirs_leaf (ok : bool) (p : list string) (w w1 w' : world)
    (d1 : gset (list string)) :
  w1 = set_dirs d1 w → dirs w ⊆ d1 →
  match mkdir p w1 with
  | inl e => if negb ok || negb (is_dir w1 p) then inl e else inr w1
  | inr w2 => inr w2
  end = inr w' →
  ∃ d, w' = set_dirs d w ∧ dirs w ⊆ d.
Proof.
  intros -> Hd1 H. destruct (mkdir p _) as [e|w2] eqn:Hp.
  - destruct (negb ok || negb (is_dir _ p)); [done|].
    injection H as <-. by exists d1.
  - injection H as <-. apply mkdir_inr in Hp as ->. eexists. split; [done|].
    cbn. set_solver.
Qed.

(** [os.makedirs] changes nothing but the set of directories, which grows. *)
Lemma makedirs_frame (n : nat) (ok : bool) (p : list string) (w w' : world) :
  makedirs n ok p w = inr w' →
  ∃ d, w' = set_dirs d w ∧ dirs w ⊆ d.
Proof.
  revert p w w'. induction n as [|n IH]; intros p w w' Hmk; cbn in Hmk.
  - apply (makedirs_leaf ok p w w w' (dirs w)); [by rewrite set_dirs_id|done..].
  - destruct (bool_decide (removelast p ≠ []) &&
              negb (path_exists w (removelast p))).
    + destruct (makedirs n ok (removelast p) w) as [e1|w1] eqn:H1.
      * destruct e1; try done.
        apply (makedirs_leaf ok p w w w' (dirs w));
          [by rewrite set_dirs_id|done..].
      * apply IH in H1 as (d1 & -> & Hd1).
        by apply (makedirs_leaf ok p w (set_dirs d1 w) w' d1).
    + apply (makedirs_leaf ok p w w w' (dirs w));
        [by rewrite set_dirs_id|done..].
Qed.

(** ** What the [try] statements catch *)

Section handles.

Context (S : list string).

Lemma handles_ret {A} (a : A) : handles S (mret a).
Proof. intros r0 k0. by apply hoare_ret. Qed.

Lemma handles_bind {A B} (m : M A) (f : A → M B) :
  handles S m → (∀ a, handles S (f a)) → handles S (m ≫= f).
Proof.
  intros Hm Hf r0 k0. eapply hoare_bind; [apply Hm|]. intros a. apply Hf.
Qed.

Lemma handles_throw {A} (e : exn) : handles S (@throw A e).
Proof.
  intros r0 k0 w (newk & Hk & HS & Hr). exists newk. cbn.
  split; [done|]. split; [done|].
  rewrite Hr, app_nil_r. by rewrite <- app_assoc.
Qed.

Lemma handles_try {A} label (body handler : M A) :
  label ∈ S → handles S body → handles S handler →
  handles S (try_except label body handler).
Proof.
  intros Hl Hb Hh r0 k0. eapply hoare_try; [apply Hb|].
  intros e. eapply hoare_conseq; [apply (Hh r0 k0)| |done|done].
  intros w (w0 & (newk & Hk & HS & Hr) & ->). exists (newk ++ [(label, e)]).
  cbn. rewrite Hk, Hr, fmap_app, !app_nil_r. cbn.
  split; [by rewrite app_assoc|]. split; [|done].
  apply Forall_app. split; [done|]. by apply Forall_singleton.
Qed.

Lemma handles_name (x : string) : handles S (name x).
Proof.
  intros r0 k0 w Hw. unfold name. destruct (globals w !! x); [done|].
  by apply handles_throw.
Qed.

Lemma handles_store (x : string) (b : binding) : handles S (store x b).
Proof. by intros r0 k0 w Hw. Qed.

Lemma handles_gets {A} (f : world → A) : handles S (gets f).
Proof. by intros r0 k0 w Hw. Qed.

Lemma handles_perform (c : string) (bs : list binding) : handles S (perform c bs).
Proof.
  intros r0 k0 w Hw. unfold perform. cbn zeta.
  destruct (lib_raises w (length (calls w))); [|done].
  by apply (handles_throw (A:=binding) (LibraryError c) r0 k0).
Qed.

Lemma handles_fs_makedirs (ok : bool) (p : list string) :
  handles S (fs_makedirs ok p).
Proof.
  intros r0 k0 w Hw. unfold fs_makedirs.
  destruct (makedirs (length p) ok p w) as [e|w'] eqn:Hmk.
  - by apply (handles_throw (A:=unit) e r0 k0).
  - by apply makedirs_frame in Hmk as (d & -> & _).
Qed.

Lemma handles_fs_remove (p : list string) : handles S (fs_remove p).
Proof.
  intros r0 k0 w Hw. unfold fs_remove.
  destruct (is_file w p); [done|].
  destruct (is_dir w p); by apply (handles_throw (A:=unit) _ r0 k0).
Qed.

End handles.

(** ** Creating the model workspace *)

Lemma removelast_prefix {A} (p : list A) : removelast p `prefix_of` p.
Proof.
  destruct (decide (p = [])) as [->|Hne]; [done|].
  destruct (exists_last Hne) as (l & a & ->).
  rewrite removelast_last. by exists [a].
Qed.






(** Unfolding the head constant of a statement. *)
Ltac unfold_head m :=
  lazymatch m with
  | ?f _ _ _ _ _ => unfold f
  | ?f _ _ _ _ => unfold f
  | ?f _ _ _ => unfold f
  | ?f _ _ => unfold f
  | ?f _ => unfold f
  | ?f => unfold f
  end.

Ltac stmt_fixpoints :=
  cbn [eval_args assign_lits mark_loop_built bind_vars run_cells fmap
       list_fmap].

Ltac handles_step :=
  lazymatch goal with
  | |- handles _ (mret _) => apply handles_ret
  | |- handles _ (_ ≫= _) => apply handles_bind; [|intros ?]
  | |- handles _ (throw _) => apply handles_throw
  | |- handles _ (try_except _ _ _) =>
      apply handles_try; [apply (bool_decide_unpack _); by vm_compute| |]
  | |- handles _ (name _) => apply handles_name
  | |- handles _ (store _ _) => apply handles_store
  | |- handles _ (gets _) => apply handles_gets
  | |- handles _ (perform _ _) => apply handles_perform
  | |- handles _ (fs_makedirs _ _) => apply handles_fs_makedirs
  | |- handles _ (fs_remove _) => apply handles_fs_remove
  | |- handles _ (match ?x with _ => _ end) => destruct x
  | |- handles _ (eval_args _) => stmt_fixpoints
  | |- handles _ (assign_lits _) => stmt_fixpoints
  | |- handles _ (mark_loop_built _) => stmt_fixpoints
  | |- handles _ (bind_vars _) => stmt_fixpoints
  | |- handles _ (run_cells _) => stmt_fixpoints
  | |- handles _ ?m => unfold_head m
  end.

Lemma zaidel_handles :
  handles ["import flopy"; "remove head file"] zaidel.notebook.
Proof. repeat handles_step. Qed.

Lemma mt3d_handles : handles ["import flopy"] mt3d.notebook.
Proof. repeat handles_step. Qed.

(** ** The calls a statement logs *)

Section logs.

Context (pc : string → bool).

Lemma logs_ret {A} (a : A) : logs pc (mret a).
Proof. intros c0. by apply hoare_ret. Qed.

Lemma logs_bind {A B} (m : M A) (f : A → M B) :
  logs pc m → (∀ a, logs pc (f a)) → logs pc (m ≫= f).
Proof.
  intros Hm Hf c0. eapply hoare_bind; [apply Hm|]. intros a. apply Hf.
Qed.

Lemma logs_throw {A} (e : exn) : logs pc (@throw A e).
Proof. by intros c0 w Hw. Qed.

Lemma logs_try {A} label (body handler : M A) :
  logs pc body → logs pc handler → logs pc (try_except label body handler).
Proof.
  intros Hb Hh c0. eapply hoare_try; [apply Hb|].
  intros e. eapply hoare_conseq; [apply (Hh c0)| |done|done].
  by intros w (w0 & Hw0 & ->).
Qed.

Lemma logs_name (x : string) : logs pc (name x).
Proof. intros c0 w Hw. unfold name. by destruct (globals w !! x). Qed.

Lemma logs_store (x : string) (b : binding) : logs pc (store x b).
Proof. by intros c0 w Hw. Qed.

Lemma logs_gets {A} (f : world → A) : logs pc (gets f).
Proof. by intros c0 w Hw. Qed.

Lemma logs_perform (c : string) (bs : list binding) :
  pc c = true → logs pc (perform c bs).
Proof.
  intros Hc c0 w (new & Hnew & Hall). unfold perform. cbn zeta.
  assert (logged pc c0
            (set_calls (calls w ++ [Entry c bs (lib_raises w (length (calls w)))])
               w)) as Hlog.
  { eexists (new ++ [_]). cbn. rewrite Hnew, app_assoc. split; [done|].
    apply Forall_app. split; [done|]. by apply Forall_singleton. }
  by destruct (lib_raises w (length (calls w))).
Qed.

Lemma logs_fs_makedirs (ok : bool) (p : list string) : logs pc (fs_makedirs ok p).
Proof.
  intros c0 w Hw. unfold fs_makedirs.
  destruct (makedirs (length p) ok p w) as [e|w'] eqn:Hmk; [done|].
  by apply makedirs_frame in Hmk as (d & -> & _).
Qed.

Lemma logs_fs_remove (p : list string) : logs pc (fs_remove p).
Proof.
  intros c0 w Hw. unfold fs_remove.
  destruct (is_file w p); [done|]. by destruct (is_dir w p).
Qed.

End logs.

Ltac logs_step :=
  lazymatch goal with
  | |- logs _ (mret _) => apply logs_ret
  | |- logs _ (_ ≫= _) => apply logs_bind; [|intros ?]
  | |- logs _ (throw _) => apply logs_throw
  | |- logs _ (try_except _ _ _) => apply logs_try
  | |- logs _ (name _) => apply logs_name
  | |- logs _ (store _ _) => apply logs_store
  | |- logs _ (gets _) => apply logs_gets
  | |- logs _ (perform _ _) => apply logs_perform; by vm_compute
  | |- logs _ (fs_makedirs _ _) => apply logs_fs_makedirs
  | |- logs _ (fs_remove _) => apply logs_fs_remove
  | |- logs _ (match ?x with _ => _ end) => destruct x
  | |- logs _ (eval_args _) => stmt_fixpoints
  | |- logs _ (assign_lits _) => stmt_fixpoints
  | |- logs _ (mark_loop_built _) => stmt_fixpoints
  | |- logs _ (bind_vars _) => stmt_fixpoints
  | |- logs _ (run_cells _) => stmt_fixpoints
  | |- logs _ ?m => unfold_head m
  end.

(** A statement that logs no call leaves the log as it is. *)
Lemma logs_nothing {A} (m : M A) (w : world) :
  logs (λ _, false) m → calls (m w).2 = calls w.
Proof.
  intros Hm. specialize (Hm (calls w) w).
  assert (logged (λ _, false) (calls w) w) as Hw.
  { exists []. by rewrite app_nil_r. }
  specialize (Hm Hw).
  assert (∀ w', logged (λ _ : string, false) (calls w) w' → calls w' = calls w)
    as Hnone.
  { intros w' (new & -> & Hall). destruct new as [|e new].
    - by rewrite app_nil_r.
    - by apply Forall_inv in Hall. }
  destruct (m w) as [[a|e] w']; by apply Hnone.
Qed.

(** ** The calls a statement has logged when it returns *)

Lemma emits_eq {A} (cs cs' : list string) (m : M A) :
  emits cs m → cs = cs' → emits cs' m.
Proof. by intros H <-. Qed.

Lemma emits_ret {A} (a : A) : emits [] (mret a).
Proof. intros l. apply hoare_ret. intros w <-. by rewrite app_nil_r. Qed.

Lemma emits_bind {A B} (c1 c2 : list string) (m : M A) (f : A → M B) :
  emits c1 m → (∀ a, emits c2 (f a)) → emits (c1 ++ c2) (m ≫= f).
Proof.
  intros Hm Hf l. eapply hoare_bind; [apply (Hm l)|]. intros a.
  eapply hoare_conseq; [apply (Hf a (l ++ c1))|done| |done].
  intros _ w ->. by rewrite app_assoc.
Qed.

Lemma emits_throw {A} (cs : list string) (e : exn) : emits cs (@throw A e).
Proof. by intros l w Hw. Qed.

Lemma emits_name (x : string) : emits [] (name x).
Proof.
  intros l w <-. unfold name. destruct (globals w !! x); [|done].
  by rewrite app_nil_r.
Qed.

Lemma emits_store (x : string) (b : binding) : emits [] (store x b).
Proof. intros l w <-. cbn. by rewrite app_nil_r. Qed.

Lemma emits_gets {A} (f : world → A) : emits [] (gets f).
Proof. intros l w <-. cbn. by rewrite app_nil_r. Qed.

Lemma emits_perform (c : string) (bs : list binding) : emits [c] (perform c bs).
Proof.
  intros l w <-. unfold perform. cbn zeta.
  destruct (lib_raises w (length (calls w))); [done|].
  cbn. by rewrite fmap_app.
Qed.

Lemma emits_fs_makedirs (ok : bool) (p : list string) :
  emits [] (fs_makedirs ok p).
Proof.
  intros l w <-. unfold fs_makedirs.
  destruct (makedirs (length p) ok p w) as [e|w'] eqn:Hmk; [done|].
  apply makedirs_frame in Hmk as (d & -> & _). cbn. by rewrite app_nil_r.
Qed.

Lemma emits_fs_remove (p : list string) : emits [] (fs_remove p).
Proof.
  intros l w <-. unfold fs_remove.
  destruct (is_file w p); [cbn; by rewrite app_nil_r|].
  by destruct (is_dir w p).
Qed.

(** A [try] whose body and handler log nothing. *)
Lemma emits_try_quiet {A} label (body handler : M A) :
  logs (λ _, false) body → logs (λ _, false) handler →
  emits [] (try_except label body handler).
Proof.
  intros Hb Hh l w <-.
  pose proof (logs_nothing (try_except label body handler) w
                (logs_try _ label body handler Hb Hh)) as Hq.
  destruct (try_except label body handler w) as [[a|e] w']; [|done].
  cbn in Hq. by rewrite Hq, app_nil_r.
Qed.

Ltac emits_step :=
  lazymatch goal with
  | |- emits _ (mret _) => apply emits_ret
  | |- emits _ (_ ≫= _) => eapply emits_bind; [|intros ?]
  | |- emits _ (throw _) => apply emits_throw
  | |- emits _ (try_except _ _ _) =>
      apply emits_try_quiet; repeat logs_step
  | |- emits _ (name _) => apply emits_name
  | |- emits _ (store _ _) => apply emits_store
  | |- emits _ (gets _) => apply emits_gets
  | |- emits _ (perform _ _) => apply emits_perform
  | |- emits _ (fs_makedirs _ _) => apply emits_fs_makedirs
  | |- emits _ (fs_remove _) => apply emits_fs_remove
  | |- emits _ (match ?x with _ => _ end) => destruct x
  | |- emits _ (eval_args _) => stmt_fixpoints
  | |- emits _ (assign_lits _) => stmt_fixpoints
  | |- emits _ (mark_loop_built _) => stmt_fixpoints
  | |- emits _ (bind_vars _) => stmt_fixpoints
  | |- emits _ (run_cells _) => stmt_fixpoints
  | |- emits _ ?m => unfold_head m
  end.

(** The calls of the last cell of the MT3D-USGS notebook. *)
Lemma mt3d_cell26_emits :
  emits ["os.getcwd"; "print"; "mf.write_input"; "mt.write_input"] mt3d.cell26.
Proof. eapply emits_eq; [repeat emits_step|by vm_compute]. Qed.

(** The calls of the cells of the MODFLOW-USG notebook that build, run and
    read the model. *)
Lemma zaidel_cell4_emits :
  emits ["flopy.mfusg.MfUsg"; "flopy.modflow.ModflowDis";
         "flopy.modflow.ModflowBas"; "flopy.mfusg.MfUsgLpf";
         "flopy.modflow.ModflowOc"; "flopy.mfusg.MfUsgSms";
         "mf.write_input"; "mf.run_model"] zaidel.cell4.
Proof. eapply emits_eq; [repeat emits_step|by vm_compute]. Qed.

Lemma zaidel_cell5_emits :
  emits ["flopy.utils.HeadFile"; "headobj.get_times"; "headobj.get_data"]
    zaidel.cell5.
Proof. eapply emits_eq; [repeat emits_step|by vm_compute]. Qed.

Lemma zaidel_cell6_emits :
  emits ["plt.figure"; "fig.subplots_adjust"; "fig.add_subplot"; "ax.plot";
         "ax.fill_between"; "ax.legend"; "leg.draw_frame"; "ax.set_xlabel";
         "ax.set_ylabel"; "ax.set_ylim"] zaidel.cell6.
Proof. eapply emits_eq; [repeat emits_step|by vm_compute]. Qed.

(** No run of the MT3D-USGS notebook starts the solver or reads binary
    output of it. *)
Lemma mt3d_logs :
  logs (λ c, negb (runs_solver c) && negb (reads_binary_output c))
    mt3d.notebook.
Proof. repeat logs_step. Qed.




(** Running straight-line statements from a world whose bindings are known. *)
Ltac run_known :=
  repeat first
    [ progress unfold mbind, M_bind, mret, M_ret, name, store, gets, lit,
        assign, when_, unless, platform_system_is, aug_str, os_path_join
    | progress cbn [globals system dirs files calls raised caught lib_raises
                    set_globals value loop_built existsb mapM as_path
                    assign_lits eval_args concat app orb mbind option_bind
                    mret option_ret]
    | rewrite lookup_insert_eq
    | rewrite lookup_insert_ne by done
    | match goal with H : globals _ !! _ = Some _ |- _ => rewrite H end ].





(** ** Runs of whole notebooks *)

Lemma run_cells_app (xs ys : list (M unit)) (w : world) :
  run_cells (xs ++ ys) w = (run_cells xs;; run_cells ys) w.
Proof.
  revert w. induction xs as [|c xs IH]; intros w.
  - cbn. unfold mbind, M_bind. cbn. by destruct (run_cells ys w) as [[[]|e] w'].
  - cbn [app run_cells]. unfold mbind, M_bind.
    destruct (c w) as [[[]|e] w1]; [|done]. rewrite IH. done.
Qed.

(** A run that returns after cells that log any calls accepted by [pc],
    followed by cells that log exactly [cs]. *)
Lemma returns_tail (pc : string → bool) (pre post : M unit) (cs : list string)
    (w w' : world) :
  logs pc pre → emits cs post → (pre;; post) w = (Ok tt, w') →
  ∃ new, callee <$> calls w' = (callee <$> calls w) ++ new ++ cs
         ∧ Forall (λ c, pc c = true) new.
Proof.
  intros Hpre Hpost Hrun. unfold mbind, M_bind in Hrun.
  specialize (Hpre (calls w) w). destruct (pre w) as [[[]|e] w1]; [|done].
  destruct Hpre as (new & Hnew & Hall). { exists []. by rewrite app_nil_r. }
  specialize (Hpost (callee <$> calls w1) w1 eq_refl). rewrite Hrun in Hpost.
  exists (callee <$> new). rewrite Hpost, Hnew, fmap_app, <- app_assoc.
  split; [done|]. by apply Forall_fmap.
Qed.

Lemma zaidel_setup_logs :
  logs no_file_call (run_cells [zaidel.cell1; zaidel.cell2; zaidel.cell3]).
Proof. repeat logs_step. Qed.

Lemma zaidel_model_emits :
  emits ["flopy.mfusg.MfUsg"; "flopy.modflow.ModflowDis";
         "flopy.modflow.ModflowBas"; "flopy.mfusg.MfUsgLpf";
         "flopy.modflow.ModflowOc"; "flopy.mfusg.MfUsgSms";
         "mf.write_input"; "mf.run_model";
         "flopy.utils.HeadFile"; "headobj.get_times"; "headobj.get_data";
         "plt.figure"; "fig.subplots_adjust"; "fig.add_subplot"; "ax.plot";
         "ax.fill_between"; "ax.legend"; "leg.draw_frame"; "ax.set_xlabel";
         "ax.set_ylabel"; "ax.set_ylim"]
    (run_cells [zaidel.cell4; zaidel.cell5; zaidel.cell6; mret tt]).
Proof.
  cbn [run_cells]. eapply emits_eq.
  - eapply emits_bind; [apply zaidel_cell4_emits|intros _].
    eapply emits_bind; [apply zaidel_cell5_emits|intros _].
    eapply emits_bind; [apply zaidel_cell6_emits|intros _].
    eapply emits_bind; [apply emits_ret|intros _]. apply emits_ret.
  - reflexivity.
Qed.

Lemma mt3d_setup_logs :
  logs no_file_call
    (run_cells
       [mt3d.cell1; mt3d.cell2; mt3d.cell3; mt3d.cell4; mt3d.cell5;
        mt3d.cell6; mt3d.cell7; mt3d.cell8; mt3d.cell9; mt3d.cell10;
        mt3d.cell11; mt3d.cell12; mt3d.cell13; mt3d.cell14; mt3d.cell15;
        mt3d.cell16; mt3d.cell17; mt3d.cell18; mt3d.cell19; mt3d.cell20;
        mt3d.cell21; mt3d.cell22; mt3d.cell23; mt3d.cell24; mt3d.cell25]).
Proof. repeat logs_step. Qed.

Lemma mt3d_write_emits :
  emits ["os.getcwd"; "print"; "mf.write_input"; "mt.write_input"]
    (run_cells [mt3d.cell26; mret tt]).
Proof.
  cbn [run_cells]. eapply emits_eq.
  - eapply emits_bind; [apply mt3d_cell26_emits|intros _].
    eapply emits_bind; [apply emits_ret|intros _]. apply emits_ret.
  - reflexivity.
Qed.

(** The calls of a run of the second notebook that returns: any calls of the
    setup cells, none about the solver's files, then the model is built,
    written, run, read back and plotted. *)
Lemma zaidel_returns (w w' : world) :
  zaidel.notebook w = (Ok tt, w') →
  ∃ new, callee <$> calls w' =
           (callee <$> calls w) ++ new ++
           ["flopy.mfusg.MfUsg"; "flopy.modflow.ModflowDis";
            "flopy.modflow.ModflowBas"; "flopy.mfusg.MfUsgLpf";
            "flopy.modflow.ModflowOc"; "flopy.mfusg.MfUsgSms";
            "mf.write_input"; "mf.run_model";
            "flopy.utils.HeadFile"; "headobj.get_times"; "headobj.get_data";
            "plt.figure"; "fig.subplots_adjust"; "fig.add_subplot"; "ax.plot";
            "ax.fill_between"; "ax.legend"; "leg.draw_frame"; "ax.set_xlabel";
            "ax.set_ylabel"; "ax.set_ylim"]
         ∧ Forall (λ c, no_file_call c = true) new.
Proof.
  intros Hrun. eapply returns_tail;
    [apply zaidel_setup_logs|apply zaidel_model_emits|].
  rewrite <- Hrun. symmetry.
  apply (run_cells_app [zaidel.cell1; zaidel.cell2; zaidel.cell3]).
Qed.

(** The calls of a run of the first notebook that returns: none about the
    solver's files until the last cell writes the input files. *)
Lemma mt3d_returns (w w' : world) :
  mt3d.notebook w = (Ok tt, w') →
  ∃ new, callee <$> calls w' =
           (callee <$> calls w) ++ new ++
           ["os.getcwd"; "print"; "mf.write_input"; "mt.write_input"]
         ∧ Forall (λ c, no_file_call c = true) new.
Proof.
  intros Hrun. eapply returns_tail;
    [apply mt3d_setup_logs|apply mt3d_write_emits|].
  rewrite <- Hrun. symmetry.
  apply (run_cells_app
           [mt3d.cell1; mt3d.cell2; mt3d.cell3; mt3d.cell4; mt3d.cell5;
            mt3d.cell6; mt3d.cell7; mt3d.cell8; mt3d.cell9; mt3d.cell10;
            mt3d.cell11; mt3d.cell12; mt3d.cell13; mt3d.cell14; mt3d.cell15;
            mt3d.cell16; mt3d.cell17; mt3d.cell18; mt3d.cell19; mt3d.cell20;
            mt3d.cell21; mt3d.cell22; mt3d.cell23; mt3d.cell24; mt3d.cell25]).
Qed.

(** ** The notebook's own file system calls *)















(** ** Where loop-built data goes *)

Section confined.

Context (T A : list string).














End confined.





(** ** The notebooks as wholes *)

Lemma no_file_call_inv (c : string) :
  no_file_call c = true →
  writes_input c = false ∧ runs_solver c = false
  ∧ reads_binary_output c = false.
Proof.
  unfold no_file_call, file_call.
  destruct (writes_input c), (runs_solver c), (reads_binary_output c); done.
Qed.


Lemma calls_since_app (w w' : world) (new : list entry) :
  calls w' = calls w ++ new → calls_since w w' = new.
Proof. intros H. unfold calls_since. rewrite H. by rewrite drop_app_length. Qed.

Lemma callees_since (w w' : world) (new : list string) :
  callee <$> calls w' = (callee <$> calls w) ++ new →
  callee <$> calls_since w w' = new.
Proof.
  intros H. unfold calls_since. rewrite fmap_drop, H.
  rewrite <- (length_fmap callee (calls w)). by rewrite drop_app_length.
Qed.

Lemma logs_run {B} (pc : string → bool) (m : M B) (w : world) :
  logs pc m → Forall (λ e, pc (callee e) = true) (calls_since w (m w).2).
Proof.
  intros Hm. specialize (Hm (calls w) w).
  assert (logged pc (calls w) w) as Hw by (exists []; by rewrite app_nil_r).
  specialize (Hm Hw).
  assert (logged pc (calls w) (m w).2) as (new & Hnew & Hall).
  { by destruct (m w) as [[a|e] w']. }
  by rewrite (calls_since_app _ _ _ Hnew).
Qed.

Lemma handles_run {B} (S : list string) (m : M B) (w : world) :
  handles S m →
  accounted S (raised w) (caught w) (pending (m w).1) (m w).2.
Proof.
  intros Hm. specialize (Hm (raised w) (caught w) w).
  assert (accounted S (raised w) (caught w) [] w) as Hw.
  { exists []. by rewrite !app_nil_r. }
  specialize (Hm Hw). by destruct (m w) as [[a|e] w'].
Qed.


(** *** C1 *)

(** C1, counterexample.  The first notebook, run where every call succeeds,
    returns without a call that starts the solver and without a later read
    of binary output: its [run_model()] calls are commented out. *)
Lemma mt3d_never_runs_solver :
  (mt3d.notebook plain_world).1 = Ok tt
  ∧ last (callee <$> calls (mt3d.notebook plain_world).2)
    = Some "mt.write_input"
  ∧ ¬ invokes_then_reads (callee <$> calls (mt3d.notebook plain_world).2).
Proof.
  split; [by vm_compute|]. split; [by vm_compute|].
  intros (i & j & c1 & c2 & Hi & Hrun & _).
  assert (Forall (λ c, runs_solver c = false)
            (callee <$> calls (mt3d.notebook plain_world).2)) as Hall.
  { apply (bool_decide_unpack _). by vm_compute. }
  rewrite Forall_forall in Hall.
  rewrite (Hall c1 (list_elem_of_lookup_2 _ _ _ Hi)) in Hrun. done.
Qed.

(** C1, as amended.  Every run of the second notebook that returns has built
    the model, written its input, started the solver with [mf.run_model()],
    then read the binary head file through [flopy.utils.HeadFile] and
    plotted it, in this order.  No run of the first notebook starts the
    solver or reads binary output; one that returns ends with
    [mf.write_input()] and [mt.write_input()]. *)
Theorem zaidel_runs_solver_then_reads_heads :
  (∀ w w', zaidel.notebook w = (Ok tt, w') →
     ∃ new, callee <$> calls_since w w' =
              new ++
              ["flopy.mfusg.MfUsg"; "flopy.modflow.ModflowDis";
               "flopy.modflow.ModflowBas"; "flopy.mfusg.MfUsgLpf";
               "flopy.modflow.ModflowOc"; "flopy.mfusg.MfUsgSms";
               "mf.write_input"; "mf.run_model";
               "flopy.utils.HeadFile"; "headobj.get_times";
               "headobj.get_data";
               "plt.figure"; "fig.subplots_adjust"; "fig.add_subplot";
               "ax.plot"; "ax.fill_between"; "ax.legend"; "leg.draw_frame";
               "ax.set_xlabel"; "ax.set_ylabel"; "ax.set_ylim"]
            ∧ Forall (λ c, runs_solver c = false
                           ∧ reads_binary_output c = false) new)
  ∧ (∀ w, Forall (λ e, runs_solver (callee e) = false
                       ∧ reads_binary_output (callee e) = false)
            (calls_since w (mt3d.notebook w).2))
  ∧ (∀ w w', mt3d.notebook w = (Ok tt, w') →
       ∃ new, callee <$> calls_since w w' =
                new ++ ["os.getcwd"; "print"; "mf.write_input";
                        "mt.write_input"]).
Proof.
  split; [|split].
  - intros w w' Hrun. destruct (zaidel_returns w w' Hrun) as (new & Hc & Hnew).
    exists new. split; [by apply callees_since|].
    eapply Forall_impl; [exact Hnew|]. intros c Hc'.
    by destruct (no_file_call_inv c Hc') as (_ & ? & ?).
  - intros w. eapply Forall_impl; [apply (logs_run _ _ w mt3d_logs)|].
    intros e He. cbn in He. apply andb_prop in He as [H1 H2].
    by destruct (runs_solver (callee e)), (reads_binary_output (callee e)).
  - intros w w' Hrun. destruct (mt3d_returns w w' Hrun) as (new & Hc & _).
    exists new. by apply callees_since.
Qed.

Lemma zaidel_runs_solver_then_reads_heads_witness :
  zaidel.notebook plain_world = (Ok tt, (zaidel.notebook plain_world).2)
  ∧ ∃ new, callee <$> calls_since plain_world (zaidel.notebook plain_world).2 =
             new ++
             ["flopy.mfusg.MfUsg"; "flopy.modflow.ModflowDis";
              "flopy.modflow.ModflowBas"; "flopy.mfusg.MfUsgLpf";
              "flopy.modflow.ModflowOc"; "flopy.mfusg.MfUsgSms";
              "mf.write_input"; "mf.run_model";
              "flopy.utils.HeadFile"; "headobj.get_times";
              "headobj.get_data";
              "plt.figure"; "fig.subplots_adjust"; "fig.add_subplot";
              "ax.plot"; "ax.fill_between"; "ax.legend"; "leg.draw_frame";
              "ax.set_xlabel"; "ax.set_ylabel"; "ax.set_ylim"]
           ∧ Forall (λ c, runs_solver c = false
                          ∧ reads_binary_output c = false) new.
Proof.
  assert (zaidel.notebook plain_world
          = (Ok tt, (zaidel.notebook plain_world).2)) as Hrun.
  { assert ((zaidel.notebook plain_world).1 = Ok tt) as H1 by (by vm_compute).
    destruct (zaidel.notebook plain_world) as [r w']. cbn in *. by subst. }
  split; [exact Hrun|].
  exact (proj1 zaidel_runs_solver_then_reads_heads plain_world _ Hrun).
Defined.

(** *** C2 *)

(** The cleanup reads the name [model_ws], which the notebook never binds
    (the workspace is [modelpth]): the bare [except] drops the [NameError]
    and no file is removed. *)
Lemma remove_head_file_unbound (w : world) (o : binding) :
  globals w !! "os" = Some o → globals w !! "model_ws" = None →
  zaidel.remove_head_file w =
    (Ok tt,
     set_caught (caught w ++ [("remove head file", NameError "model_ws")])
       (set_raised (raised w ++ [NameError "model_ws"]) w)).
Proof.
  intros Ho Hws.
  unfold zaidel.remove_head_file, try_except, os_remove. run_known.
  by rewrite Hws.
Qed.

(** C2, the code at the failing input.  With the head file of an earlier
    run in the workspace and every call succeeding, the second notebook
    returns, has called [mf.run_model()], and the old head file is still
    there: the cleanup ended in a [NameError] that its [except] dropped. *)
Theorem stale_head_file_survives :
  (zaidel.notebook stale_head_file).1 = Ok tt
  ∧ is_file stale_head_file ["data"; "zaidel"; "zaidel.hds"] = true
  ∧ is_file (zaidel.notebook stale_head_file).2
      ["data"; "zaidel"; "zaidel.hds"] = true
  ∧ caught (zaidel.notebook stale_head_file).2
    = [("remove head file", NameError "model_ws")]
  ∧ "mf.run_model" ∈ callee <$> calls (zaidel.notebook stale_head_file).2.
Proof.
  split; [by vm_compute|]. split; [by vm_compute|]. split; [by vm_compute|].
  split; [by vm_compute|]. apply (bool_decide_unpack _). by vm_compute.
Qed.

(** *** C3 *)

(** C3, counterexample.  Where flopy is not installed, the first
    [import flopy] raises and the [try] around it catches the exception;
    both notebooks then return. *)
Lemma import_fallback_catches :
  (zaidel.notebook (flopy_missing 6)).1 = Ok tt
  ∧ caught (zaidel.notebook (flopy_missing 6)).2
    = [("import flopy", LibraryError "import flopy");
       ("remove head file", NameError "model_ws")]
  ∧ (mt3d.notebook (flopy_missing 7)).1 = Ok tt
  ∧ caught (mt3d.notebook (flopy_missing 7)).2
    = [("import flopy", LibraryError "import flopy")].
Proof. repeat split; by vm_compute. Qed.

(** C3, as amended.  In every run, the only statements that catch an
    exception are the [try] around [import flopy] (both notebooks) and the
    [try] around the removal of the head file (second notebook); every other
    exception raised is the outcome of the run.  The creation of the model
    workspace catches nothing: it is guarded by a test. *)
Theorem only_import_and_cleanup_catch :
  (∀ w, accounted ["import flopy"] (raised w) (caught w)
          (pending (mt3d.notebook w).1) (mt3d.notebook w).2)
  ∧ (∀ w, accounted ["import flopy"; "remove head file"] (raised w) (caught w)
            (pending (zaidel.notebook w).1) (zaidel.notebook w).2)
  ∧ (∀ w, accounted [] (raised w) (caught w)
            (pending (ensure_modelpth w).1) (ensure_modelpth w).2).
Proof.
  split; [|split]; intros w; apply handles_run.
  - apply mt3d_handles.
  - apply zaidel_handles.
  - repeat handles_step.
Qed.

(** *** C4 *)




(** *** C5 *)




(** *** C7 *)


(** ** The theorems at concrete inputs *)


Lemma bdlknc_expansion_witness :
  ({[ 0%nat := [[0; 0; 0]; [0; 1; 0]; [0; 0; 0]]%Q ]} : gmap mt3d.ref ndarray2)
    !! 0%nat = Some [[0; 0; 0]; [0; 1; 0]; [0; 0; 0]]%Q
  ∧ rect 3 [[0; 0; 0]; [0; 1; 0]; [0; 0; 0]]%Q
  ∧ binary [[0; 0; 0]; [0; 1; 0]; [0; 0; 0]]%Q
  ∧ ∃ bdlknc_lyr1 h' B,
      mt3d.bdlknc_expand 0%nat
        {[ 0%nat := [[0; 0; 0]; [0; 1; 0]; [0; 0; 0]]%Q ]}
        = Some (bdlknc_lyr1, h')
      ∧ h' !! bdlknc_lyr1 = Some B
      ∧ (getitem2 B 0 1 = Some 1%Q ↔
           getitem2 [[0; 0; 0]; [0; 1; 0]; [0; 0; 0]]%Q 0 1 = Some 1%Q
           ∨ ∃ i' j', (i', j') ∈ mt3d.neighbours 0 1
                      ∧ mt3d.in_bounds [[0; 0; 0]; [0; 1; 0]; [0; 0; 0]]%Q i' j'
                      ∧ getitem2 [[0; 0; 0]; [0; 1; 0]; [0; 0; 0]]%Q i' j'
                        = Some 1%Q).
Proof.
  assert (rect 3 [[0; 0; 0]; [0; 1; 0]; [0; 0; 0]]%Q) as Hrect.
  { repeat first [apply Forall_nil_2 | apply Forall_cons_2 | reflexivity]. }
  assert (binary [[0; 0; 0]; [0; 1; 0]; [0; 0; 0]]%Q) as Hbin.
  { repeat first [apply Forall_nil_2 | apply Forall_cons_2
                  | left; reflexivity | right; reflexivity]. }
  assert (({[ 0%nat := [[0; 0; 0]; [0; 1; 0]; [0; 0; 0]]%Q ]}
             : gmap mt3d.ref ndarray2) !! 0%nat
          = Some [[0; 0; 0]; [0; 1; 0]; [0; 0; 0]]%Q) as Hlook by reflexivity.
  split; [exact Hlook|]. split; [exact Hrect|]. split; [exact Hbin|].
  destruct (bdlknc_expansion _ _ _ 3 Hlook Hrect Hbin)
    as (bd & h' & B & Hrun & _ & _ & _ & HB & Hcells).
  exists bd, h', B. split; [exact Hrun|]. split; [exact HB|].
  apply Hcells. unfold mt3d.in_bounds, shape0, shape1. simpl length. lia.
Defined.


Lemma botm_staircase_witness :
  0 ≤ 40 < 200
  ∧ ∃ botm base, zaidel.botm_loop = Some (botm, base)
                 ∧ getitem3 botm 1 0 40 = Some 15%Q.
Proof.
  assert (0 ≤ 40 < 200) as H40 by lia.
  split; [exact H40|].
  destruct botm_staircase as (botm & base & Hloop & Hcols).
  exists botm, base. split; [exact Hloop|].
  destruct (Hcols 40 H40) as (H & _). exact H.
Defined.

(** ** The lake cell with any lake array *)

Lemma if_bool_ext {A} (c c' : bool) (x y : A) :
  (c = true ↔ c' = true) → (if c then x else y) = (if c' then x else y).
Proof. destruct c, c'; intros [H1 H2]; try done; [by discriminate H1|by discriminate H2]. Qed.

Lemma cell_eqb_in_range nr nc a i j v :
  has_shape nr nc a → in_range nr nc i j →
  ∃ x, getitem2 a i j = Some x ∧ cell_eqb a i j v = Qeq_bool x v.
Proof.
  intros Ha Hij.
  destruct (getitem2_in_range _ _ _ _ _ Ha Hij) as (r & _ & _ & Hget & [x Hx]).
  exists x. unfold cell_eqb. rewrite Hget, Hx. done.
Qed.

Section lake_expansion_any.

Context (LakArr_lyr1 bdlknc_lyr1 : mt3d.ref) (L : ndarray2) (nr nc : nat).
Context (h0 : gmap mt3d.ref ndarray2).
Hypothesis distinct : LakArr_lyr1 ≠ bdlknc_lyr1.
Hypothesis L_shape : has_shape nr nc L.

Local Abbreviation lake_store := (mt3d.lake_store LakArr_lyr1 bdlknc_lyr1 L nr nc h0).

Lemma lak_write_any (g : bool) (i j i' j' : Z) (B : ndarray2) h :
  lake_store B h → in_range nr nc i j →
  (g = true → in_range nr nc i' j') →
  ∃ B' h',
    (if g then mt3d.lak_write LakArr_lyr1 bdlknc_lyr1 i j i' j' h else Some h)
      = Some h'
    ∧ lake_store B' h'
    ∧ ∀ a b, in_range nr nc a b →
        getitem2 B' a b =
          if g && bool_decide (a = i' ∧ b = j') && cell_eqb L i j 1
             && cell_eqb L i' j' 0
          then Some 1%Q else getitem2 B a b.
Proof.
  intros Hst Hij Hg. pose proof Hst as (HhL & HhB & HB & Hother).
  destruct g; [|by exists B, h]. specialize (Hg eq_refl).
  unfold mt3d.lak_write. rewrite HhL. simpl.
  destruct (cell_eqb_in_range _ _ _ _ _ 1%Q L_shape Hij) as (x & -> & ->).
  simpl. destruct (Qeq_bool x 1).
  - destruct (cell_eqb_in_range _ _ _ _ _ 0%Q L_shape Hg) as (y & -> & ->).
    simpl. destruct (Qeq_bool y 0).
    + rewrite HhB. simpl.
      destruct (setitem2_in_range _ _ _ _ _ 1%Q HB Hg) as (B' & -> & HB' & Hget).
      simpl. exists B', (<[bdlknc_lyr1:=B']> h). split; [done|]. split.
      { split; [by rewrite lookup_insert_ne|].
        split; [by rewrite lookup_insert_eq|]. split; [done|].
        intros l Hl. rewrite lookup_insert_ne by done. by apply Hother. }
      intros a b Hab. rewrite (Hget _ _ Hab). rewrite !andb_true_r.
      destruct (decide (a = i' ∧ b = j')) as [Heq|Hne].
      * by rewrite bool_decide_eq_true_2.
      * by rewrite bool_decide_eq_false_2.
    + exists B, h. split; [done|]. split; [done|]. intros a b _.
      by rewrite andb_false_r.
  - exists B, h. split; [done|]. split; [done|]. intros a b _.
    by rewrite andb_false_r.
Qed.

Lemma L_shape0_any : shape0 L = Z.of_nat nr.
Proof. unfold shape0. by destruct L_shape as [-> _]. Qed.

Lemma L_shape1_any (i j : Z) : in_range nr nc i j → shape1 L = Z.of_nat nc.
Proof.
  intros Hij. destruct (has_shape_row _ _ _ _ _ L_shape Hij) as (r & Hr & Hlen).
  destruct L_shape as [_ Hrect]. unfold shape1.
  destruct L as [|r0 L']; [done|]. by rewrite (Forall_inv Hrect).
Qed.

Lemma lak_body_any (i j : Z) (B : ndarray2) h :
  lake_store B h → in_range nr nc i j →
  ∃ B' h',
    mt3d.lak_body LakArr_lyr1 bdlknc_lyr1 i j h = Some h'
    ∧ lake_store B' h'
    ∧ ∀ a b, in_range nr nc a b →
        getitem2 B' a b =
          if cell_eqb L i j 1 && cell_eqb L a b 0
             && bool_decide ((a, b) ∈ mt3d.neighbours i j)
          then Some 1%Q else getitem2 B a b.
Proof.
  intros Hst Hij. pose proof Hij as [Hi Hj]. unfold mt3d.lak_body.
  destruct (lak_write_any (i - 1 >=? 0) i j (i - 1) j B h Hst Hij)
    as (B1 & h1 & -> & Hst1 & H1).
  { rewrite Z.geb_leb. intros ?%Z.leb_le. unfold in_range. lia. }
  simpl. destruct Hst1 as (HL1 & Hst1). rewrite HL1. simpl.
  rewrite L_shape0_any.
  destruct (lak_write_any (i + 1 <? Z.of_nat nr) i j (i + 1) j B1 h1
              (conj HL1 Hst1) Hij) as (B2 & h2 & -> & Hst2 & H2).
  { intros ?%Z.ltb_lt. unfold in_range. lia. }
  simpl.
  destruct (lak_write_any (j - 1 >=? 0) i j i (j - 1) B2 h2 Hst2 Hij)
    as (B3 & h3 & -> & Hst3 & H3).
  { rewrite Z.geb_leb. intros ?%Z.leb_le. unfold in_range. lia. }
  simpl. destruct Hst3 as (HL3 & Hst3). rewrite HL3. simpl.
  rewrite (L_shape1_any _ _ Hij).
  destruct (lak_write_any (j + 1 <? Z.of_nat nc) i j i (j + 1) B3 h3
              (conj HL3 Hst3) Hij) as (B4 & h4 & -> & Hst4 & H4).
  { intros ?%Z.ltb_lt. unfold in_range. lia. }
  exists B4, h4. split; [done|]. split; [done|].
  intros a b Hab. pose proof Hab as [Ha Hb].
  rewrite (H4 _ _ Hab), (H3 _ _ Hab), (H2 _ _ Hab), (H1 _ _ Hab).
  destruct (cell_eqb L i j 1); [|by rewrite !andb_false_r].
  rewrite !andb_true_r. cbn [andb].
  unfold mt3d.neighbours.
  destruct (decide (a = i - 1 ∧ b = j)) as [[-> ->]|N1].
  { rewrite (bool_decide_eq_true_2 (i - 1 = i - 1 ∧ j = j)) by done.
    assert ((i - 1 >=? 0) = true) as -> by (rewrite Z.geb_leb; apply Z.leb_le; lia).
    rewrite (bool_decide_eq_true_2 ((i - 1, j) ∈ _))
      by (apply list_elem_of_here).
    rewrite andb_true_r. cbn [andb].
    rewrite !(bool_decide_eq_false_2 (i - 1 = _ ∧ _)) by lia.
    rewrite !andb_false_r, ?andb_false_l.
    by destruct (cell_eqb L (i - 1) j 0). }
  rewrite (bool_decide_eq_false_2 (a = i - 1 ∧ b = j)) by done.
  rewrite andb_false_r. cbn [andb].
  destruct (decide (a = i + 1 ∧ b = j)) as [[-> ->]|N2].
  { rewrite (bool_decide_eq_true_2 (i + 1 = i + 1 ∧ j = j)) by done.
    assert ((i + 1 <? Z.of_nat nr) = true) as -> by (apply Z.ltb_lt; lia).
    rewrite (bool_decide_eq_true_2 ((i + 1, j) ∈ _))
      by (apply list_elem_of_further, list_elem_of_here).
    rewrite andb_true_r. cbn [andb].
    rewrite !(bool_decide_eq_false_2 (i + 1 = _ ∧ _)) by lia.
    rewrite !andb_false_r, ?andb_false_l.
    by destruct (cell_eqb L (i + 1) j 0). }
  rewrite (bool_decide_eq_false_2 (a = i + 1 ∧ b = j)) by done.
  rewrite andb_false_r. cbn [andb].
  destruct (decide (a = i ∧ b = j - 1)) as [[-> ->]|N3].
  { rewrite (bool_decide_eq_true_2 (i = i ∧ j - 1 = j - 1)) by done.
    assert ((j - 1 >=? 0) = true) as -> by (rewrite Z.geb_leb; apply Z.leb_le; lia).
    rewrite (bool_decide_eq_true_2 ((i, j - 1) ∈ _))
      by (do 2 apply list_elem_of_further; apply list_elem_of_here).
    rewrite andb_true_r. cbn [andb].
    rewrite !(bool_decide_eq_false_2 (i = _ ∧ j - 1 = _)) by lia.
    rewrite !andb_false_r, ?andb_false_l.
    by destruct (cell_eqb L i (j - 1) 0). }
  rewrite (bool_decide_eq_false_2 (a = i ∧ b = j - 1)) by done.
  rewrite andb_false_r. cbn [andb].
  destruct (decide (a = i ∧ b = j + 1)) as [[-> ->]|N4].
  { rewrite (bool_decide_eq_true_2 (i = i ∧ j + 1 = j + 1)) by done.
    assert ((j + 1 <? Z.of_nat nc) = true) as -> by (apply Z.ltb_lt; lia).
    rewrite (bool_decide_eq_true_2 ((i, j + 1) ∈ _))
      by (do 3 apply list_elem_of_further; apply list_elem_of_here).
    rewrite andb_true_r. cbn [andb].
    by destruct (cell_eqb L i (j + 1) 0). }
  rewrite (bool_decide_eq_false_2 (a = i ∧ b = j + 1)) by done.
  rewrite andb_false_r.
  rewrite (bool_decide_eq_false_2 ((a, b) ∈ _)); [by rewrite andb_false_r|].
  rewrite !elem_of_cons, elem_of_nil.
  intros [Heq|[Heq|[Heq|[Heq|[]]]]]; injection Heq as ??; tauto.
Qed.

Lemma shore_of_ext (V V' : Z → Z → bool) (a b : Z) :
  (∀ x y, in_range nr nc x y → V x y = V' x y) →
  shore_of L nr nc V a b = shore_of L nr nc V' a b.
Proof.
  intros HV. unfold shore_of. f_equal.
  induction (mt3d.neighbours a b) as [|[x y] l IH]; [done|].
  cbn [existsb fst snd]. rewrite IH. f_equal.
  destruct (decide (in_range nr nc x y)) as [Hxy|Hxy].
  - by rewrite (HV _ _ Hxy).
  - rewrite (bool_decide_eq_false_2 _ Hxy). by rewrite !andb_false_r.
Qed.

Lemma expanded_any_ext (V V' : Z → Z → bool) (B : ndarray2) :
  (∀ x y, in_range nr nc x y → V x y = V' x y) →
  expanded_any L nr nc V B → expanded_any L nr nc V' B.
Proof.
  intros HV HB a b Hab. rewrite (HB _ _ Hab).
  by rewrite (shore_of_ext V V' a b HV).
Qed.

(** Adding the cell just visited to the visited cells. *)
Lemma shore_of_visit (V V' : Z → Z → bool) (i j a b : Z) :
  in_range nr nc i j →
  (∀ x y, V' x y = V x y || bool_decide (x = i ∧ y = j)) →
  shore_of L nr nc V' a b
  = shore_of L nr nc V a b
    || (cell_eqb L i j 1 && cell_eqb L a b 0
        && bool_decide ((a, b) ∈ mt3d.neighbours i j)).
Proof.
  intros Hij HV. unfold shore_of.
  destruct (cell_eqb L a b 0); [|by rewrite !andb_false_r].
  rewrite !andb_true_l, andb_true_r.
  assert (bool_decide ((a, b) ∈ mt3d.neighbours i j)
          = bool_decide ((i, j) ∈ mt3d.neighbours a b)) as ->.
  { apply bool_decide_ext, neighbours_sym. }
  induction (mt3d.neighbours a b) as [|[x y] l IH].
  { cbn. rewrite (bool_decide_eq_false_2 ((i, j) ∈ [])) by apply not_elem_of_nil.
    by rewrite andb_false_r. }
  cbn [existsb fst snd]. rewrite IH, HV. clear IH.
  destruct (decide (x = i ∧ y = j)) as [[-> ->]|Hne].
  - rewrite (bool_decide_eq_true_2 (i = i ∧ j = j)) by done.
    rewrite (bool_decide_eq_true_2 (in_range nr nc i j)) by done.
    rewrite (bool_decide_eq_true_2 ((i, j) ∈ (i, j) :: l))
      by apply list_elem_of_here.
    rewrite orb_true_r, !andb_true_r, andb_true_l.
    by destruct (cell_eqb L i j 1), (V i j), (existsb _ l),
      (bool_decide ((i, j) ∈ l)).
  - rewrite (bool_decide_eq_false_2 (x = i ∧ y = j)) by done.
    rewrite orb_false_r.
    assert (bool_decide ((i, j) ∈ (x, y) :: l) = bool_decide ((i, j) ∈ l)) as ->.
    { apply bool_decide_ext. rewrite elem_of_cons. split; [|tauto].
      intros [Heq|?]; [|done]. injection Heq as ??. by destruct Hne. }
    by rewrite orb_assoc.
Qed.

Lemma expanded_any_visit (V V' : Z → Z → bool) (i j : Z) (B B' : ndarray2) :
  in_range nr nc i j →
  (∀ x y, V' x y = V x y || bool_decide (x = i ∧ y = j)) →
  expanded_any L nr nc V B →
  (∀ a b, in_range nr nc a b →
     getitem2 B' a b =
       if cell_eqb L i j 1 && cell_eqb L a b 0
          && bool_decide ((a, b) ∈ mt3d.neighbours i j)
       then Some 1%Q else getitem2 B a b) →
  expanded_any L nr nc V' B'.
Proof.
  intros Hij HV HB Hstep a b Hab.
  rewrite (Hstep _ _ Hab), (HB _ _ Hab), (shore_of_visit V V' i j a b Hij HV).
  destruct (shore_of L nr nc V a b); [|done].
  by destruct (_ && _).
Qed.

Lemma lak_inner_any (i : Z) (B : ndarray2) h :
  0 ≤ i < Z.of_nat nr →
  lake_store B h → expanded_any L nr nc (λ a _, bool_decide (a < i)) B →
  ∃ B' h',
    for_opt (np_arange 0 (Z.of_nat nc) 1) (mt3d.lak_body LakArr_lyr1 bdlknc_lyr1 i) h
      = Some h'
    ∧ lake_store B' h'
    ∧ expanded_any L nr nc (λ a _, bool_decide (a < i + 1)) B'.
Proof.
  intros Hi Hst HB. rewrite np_arange_unit.
  destruct (for_opt_seqZ_inv
    (λ k h, ∃ B, lake_store B h
                 ∧ expanded_any L nr nc
                     (λ a b, bool_decide (a < i ∨ (a = i ∧ b < k))) B)
    (mt3d.lak_body LakArr_lyr1 bdlknc_lyr1 i) (Z.of_nat nc) h)
    as (h' & Hrun & B' & Hst' & HB').
  - exists B. split; [done|]. eapply expanded_any_ext; [|done].
    intros a b [_ ?]. apply bool_decide_ext. lia.
  - intros k hk Hk (Bk & Hstk & HBk).
    destruct (lak_body_any i k Bk hk Hstk) as (Bk' & hk' & Hbody & Hstk' & Hrel);
      [done|].
    exists hk'. split; [done|]. exists Bk'. split; [done|].
    eapply (expanded_any_visit _ _ i k); [done| |done|done].
    intros x y. cbn beta.
    destruct (decide (x = i ∧ y = k)) as [[-> ->]|Hne].
    + rewrite (bool_decide_eq_true_2 (i = i ∧ k = k)) by done.
      rewrite orb_true_r. apply bool_decide_eq_true. lia.
    + rewrite (bool_decide_eq_false_2 (x = i ∧ y = k)) by done.
      rewrite orb_false_r. apply bool_decide_ext. lia.
  - exists B', h'. split; [done|]. split; [done|].
    eapply expanded_any_ext; [|done]. intros a b [_ ?]. apply bool_decide_ext. lia.
Qed.

Lemma lak_loop_any (B : ndarray2) h :
  lake_store B h → expanded_any L nr nc (λ _ _, false) B →
  ∃ B' h',
    mt3d.lak_loop LakArr_lyr1 bdlknc_lyr1 h = Some h'
    ∧ lake_store B' h' ∧ expanded_any L nr nc (λ _ _, true) B'.
Proof.
  intros Hst HB. unfold mt3d.lak_loop.
  destruct Hst as (HhL & Hst). rewrite HhL. simpl.
  rewrite L_shape0_any, np_arange_unit.
  destruct (for_opt_seqZ_inv
    (λ k h, ∃ B, lake_store B h
                 ∧ expanded_any L nr nc (λ a _, bool_decide (a < k)) B)
    (λ i h, n1 ← shape1 <$> h !! LakArr_lyr1;
            for_opt (np_arange 0 n1 1) (mt3d.lak_body LakArr_lyr1 bdlknc_lyr1 i) h)
    (Z.of_nat nr) h)
    as (h' & Hrun & B' & Hst' & HB').
  - exists B. split; [done|]. eapply expanded_any_ext; [|done].
    intros a b [? _]. symmetry. apply bool_decide_eq_false. lia.
  - intros k hk Hk (Bk & Hstk & HBk).
    destruct Hstk as (HkL & Hstk). rewrite HkL. simpl.
    destruct (decide (nc = 0%nat)) as [Hnc|Hnc].
    + assert (shape1 L = 0) as ->.
      { destruct L_shape as [_ Hrect]. unfold shape1.
        destruct L as [|r0 L']; [done|]. rewrite (Forall_inv Hrect). lia. }
      exists hk. split; [reflexivity|]. exists Bk. split; [by split|].
      intros a b [_ ?]. lia.
    + rewrite (L_shape1_any k 0) by (unfold in_range; lia).
      destruct (lak_inner_any k Bk hk Hk (conj HkL Hstk) HBk)
        as (Bk' & hk' & -> & ? & ?).
      exists hk'. split; [done|]. by exists Bk'.
  - exists B', h'. split; [done|]. split; [done|].
    eapply expanded_any_ext; [|done]. intros a b [? _].
    apply bool_decide_eq_true. lia.
Qed.

End lake_expansion_any.

Lemma shore_of_all (nr nc : nat) (L : ndarray2) (a b : Z) :
  has_shape nr nc L →
  shore_of L nr nc (λ _ _, true) a b = lake_shore L a b.
Proof.
  intros HL. unfold shore_of, lake_shore. f_equal.
  induction (mt3d.neighbours a b) as [|[x y] l IH]; [done|].
  cbn [existsb fst snd]. rewrite IH. f_equal. f_equal.
  apply bool_decide_ext. symmetry. by apply in_bounds_in_range.
Qed.

Lemma ndarray2_ext (nr nc : nat) (A B : ndarray2) :
  has_shape nr nc A → has_shape nr nc B →
  (∀ i j, in_range nr nc i j → getitem2 A i j = getitem2 B i j) → A = B.
Proof.
  intros HA HB Heq. pose proof HA as [HlA HrA]. pose proof HB as [HlB HrB].
  apply list_eq_same_length with nr; [done|done|].
  intros i rA rB Hi HiA HiB.
  unfold rect in HrA, HrB. rewrite Forall_forall in HrA, HrB.
  pose proof (HrA _ (list_elem_of_lookup_2 _ _ _ HiA)) as HlenA.
  pose proof (HrB _ (list_elem_of_lookup_2 _ _ _ HiB)) as HlenB.
  apply list_eq_same_length with nc; [done|done|].
  intros j x y Hj Hx Hy.
  assert (in_range nr nc (Z.of_nat i) (Z.of_nat j)) as Hij
    by (unfold in_range; lia).
  specialize (Heq _ _ Hij).
  destruct (getitem2_in_range _ _ _ _ _ HA Hij) as (r & Hr & _ & HgA & _).
  destruct (getitem2_in_range _ _ _ _ _ HB Hij) as (r' & Hr' & _ & HgB & _).
  rewrite Nat2Z.id in Hr, Hr', HgA, HgB.
  rewrite HgA, HgB in Heq. congruence.
Qed.

(** The copy and the loops, from a store that holds any rectangular array
    under [LakArr_lyr1]. *)
Lemma bdlknc_expand_any (h : gmap mt3d.ref ndarray2) (LakArr_lyr1 : mt3d.ref)
    (L : ndarray2) (nc : nat) :
  h !! LakArr_lyr1 = Some L → rect nc L →
  ∃ B h',
    mt3d.lak_loop LakArr_lyr1 (fresh (dom h)) (<[fresh (dom h) := L]> h)
      = Some h'
    ∧ fresh (dom h) ≠ LakArr_lyr1
    ∧ mt3d.lake_store LakArr_lyr1 (fresh (dom h)) L (length L) nc
        (<[fresh (dom h) := L]> h) B h'
    ∧ ∀ i j, mt3d.in_bounds L i j →
        getitem2 B i j = if lake_shore L i j then Some 1%Q else getitem2 L i j.
Proof.
  intros HhL Hrect.
  assert (has_shape (length L) nc L) as HL by done.
  set (bd := fresh (dom h)).
  assert (bd ≠ LakArr_lyr1) as Hne.
  { intros Heq. apply (is_fresh (dom h)). fold bd. rewrite Heq.
    apply elem_of_dom. by exists L. }
  destruct (lak_loop_any LakArr_lyr1 bd L (length L) nc (<[bd:=L]> h)
              (not_eq_sym Hne) HL L (<[bd:=L]> h)) as (B & h' & Hrun & Hst & HB).
  { split; [by rewrite lookup_insert_ne|].
    split; [by rewrite lookup_insert_eq|]. by split. }
  { intros a b _. unfold shore_of, mt3d.neighbours. cbn.
    by rewrite andb_false_r. }
  exists B, h'. split; [done|]. split; [done|]. split; [done|].
  intros i j Hij. apply (in_bounds_in_range _ _ _ _ _ HL) in Hij.
  rewrite (HB _ _ Hij). by rewrite (shore_of_all _ _ _ _ _ HL).
Qed.

(** X1.  The lake cell with any lake array.  For every rectangular lake array
    of layer 1, whatever its entries, the copy and the two nested loops
    return without an [IndexError] and leave [LakArr_lyr1] as it was;
    [bdlknc_lyr1] has the shape of [LakArr_lyr1], holds 1 in the cells that
    are 0 in [LakArr_lyr1] and have a neighbour inside the array that is 1,
    and holds the entry of [LakArr_lyr1] everywhere else: only lake number 1
    is expanded, and lake cells are never overwritten. *)
Theorem bdlknc_expansion_any (h : gmap mt3d.ref ndarray2)
    (LakArr_lyr1 : mt3d.ref) (L : ndarray2) (nc : nat) :
  h !! LakArr_lyr1 = Some L → rect nc L →
  ∃ bdlknc_lyr1 h' B,
    mt3d.bdlknc_expand LakArr_lyr1 h = Some (bdlknc_lyr1, h')
    ∧ h' !! LakArr_lyr1 = Some L
    ∧ h' !! bdlknc_lyr1 = Some B
    ∧ length B = length L ∧ rect nc B
    ∧ ∀ i j, mt3d.in_bounds L i j →
        getitem2 B i j = if lake_shore L i j then Some 1%Q else getitem2 L i j.
Proof.
  intros HhL Hrect.
  destruct (bdlknc_expand_any h LakArr_lyr1 L nc HhL Hrect)
    as (B & h' & Hrun & Hne & (HL' & HB' & [Hlen HrB] & _) & Hcells).
  exists (fresh (dom h)), h', B.
  split. { unfold mt3d.bdlknc_expand, mt3d.np_copy. rewrite HhL. simpl.
           by rewrite Hrun. }
  done.
Qed.

Lemma bdlknc_expansion_any_witness :
  ({[ 0%nat := [[0; 1; 0]; [2; 0; 0]]%Q ]} : gmap mt3d.ref ndarray2) !! 0%nat
    = Some [[0; 1; 0]; [2; 0; 0]]%Q
  ∧ rect 3 [[0; 1; 0]; [2; 0; 0]]%Q
  ∧ ∃ bdlknc_lyr1 h' B,
      mt3d.bdlknc_expand 0%nat {[ 0%nat := [[0; 1; 0]; [2; 0; 0]]%Q ]}
        = Some (bdlknc_lyr1, h')
      ∧ h' !! bdlknc_lyr1 = Some B
      ∧ getitem2 B 0 0 = Some 1%Q ∧ getitem2 B 1 0 = Some 2%Q
      ∧ getitem2 B 1 2 = Some 0%Q.
Proof.
  assert (({[ 0%nat := [[0; 1; 0]; [2; 0; 0]]%Q ]}
             : gmap mt3d.ref ndarray2) !! 0%nat
          = Some [[0; 1; 0]; [2; 0; 0]]%Q) as Hlook by reflexivity.
  assert (rect 3 [[0; 1; 0]; [2; 0; 0]]%Q) as Hrect.
  { repeat first [apply Forall_nil_2 | apply Forall_cons_2 | reflexivity]. }
  split; [exact Hlook|]. split; [exact Hrect|].
  destruct (bdlknc_expansion_any _ _ _ 3 Hlook Hrect)
    as (bd & h' & B & Hrun & _ & HB & _ & _ & Hcells).
  exists bd, h', B. split; [exact Hrun|]. split; [exact HB|].
  assert (∀ i j, 0 ≤ i < 2 → 0 ≤ j < 3 →
                 mt3d.in_bounds [[0; 1; 0]; [2; 0; 0]]%Q i j) as Hin.
  { intros i j Hi Hj. unfold mt3d.in_bounds, shape0, shape1. simpl length. lia. }
  split; [|split].
  - exact (Hcells 0 0 (Hin 0 0 ltac:(lia) ltac:(lia))).
  - exact (Hcells 1 0 (Hin 1 0 ltac:(lia) ltac:(lia))).
  - exact (Hcells 1 2 (Hin 1 2 ltac:(lia) ltac:(lia))).
Defined.

(** X2.  No lake, no change.  Where no cell of the lake array is 1 (an array
    of zeros, an array with no rows), [bdlknc_lyr1] ends as an exact copy
    of [LakArr_lyr1]. *)
Theorem bdlknc_without_lake (h : gmap mt3d.ref ndarray2)
    (LakArr_lyr1 : mt3d.ref) (L : ndarray2) (nc : nat) :
  h !! LakArr_lyr1 = Some L → rect nc L →
  (∀ i j, mt3d.in_bounds L i j → cell_eqb L i j 1 = false) →
  ∃ bdlknc_lyr1 h',
    mt3d.bdlknc_expand LakArr_lyr1 h = Some (bdlknc_lyr1, h')
    ∧ bdlknc_lyr1 ≠ LakArr_lyr1
    ∧ h' !! bdlknc_lyr1 = Some L.
Proof.
  intros HhL Hrect Hnone.
  destruct (bdlknc_expand_any h LakArr_lyr1 L nc HhL Hrect)
    as (B & h' & Hrun & Hne & (HL' & HB' & HsB & _) & Hcells).
  exists (fresh (dom h)), h'.
  split. { unfold mt3d.bdlknc_expand, mt3d.np_copy. rewrite HhL. simpl.
           by rewrite Hrun. }
  split; [done|]. rewrite HB'. f_equal.
  assert (has_shape (length L) nc L) as HL by done.
  apply (ndarray2_ext (length L) nc); [done|done|].
  intros i j Hij. apply (in_bounds_in_range _ _ _ _ _ HL) in Hij.
  rewrite (Hcells _ _ Hij).
  assert (lake_shore L i j = false) as ->; [|done].
  unfold lake_shore. apply andb_false_intro2.
  induction (mt3d.neighbours i j) as [|[x y] l IH]; [done|].
  cbn [existsb fst snd]. rewrite IH, orb_false_r.
  destruct (decide (mt3d.in_bounds L x y)) as [Hxy|Hxy].
  - by rewrite (Hnone _ _ Hxy), andb_false_r.
  - by rewrite (bool_decide_eq_false_2 _ Hxy).
Qed.

Lemma bdlknc_without_lake_witness :
  ({[ 0%nat := [[0; 0]; [0; 2]]%Q ]} : gmap mt3d.ref ndarray2) !! 0%nat
    = Some [[0; 0]; [0; 2]]%Q
  ∧ rect 2 [[0; 0]; [0; 2]]%Q
  ∧ ∃ bdlknc_lyr1 h',
      mt3d.bdlknc_expand 0%nat {[ 0%nat := [[0; 0]; [0; 2]]%Q ]}
        = Some (bdlknc_lyr1, h')
      ∧ bdlknc_lyr1 ≠ 0%nat
      ∧ h' !! bdlknc_lyr1 = Some [[0; 0]; [0; 2]]%Q.
Proof.
  assert (({[ 0%nat := [[0; 0]; [0; 2]]%Q ]}
             : gmap mt3d.ref ndarray2) !! 0%nat
          = Some [[0; 0]; [0; 2]]%Q) as Hlook by reflexivity.
  assert (rect 2 [[0; 0]; [0; 2]]%Q) as Hrect.
  { repeat first [apply Forall_nil_2 | apply Forall_cons_2 | reflexivity]. }
  split; [exact Hlook|]. split; [exact Hrect|].
  apply (bdlknc_without_lake _ _ _ 2 Hlook Hrect).
  intros i j [Hi Hj]. unfold shape0, shape1 in Hi, Hj. simpl length in Hi, Hj.
  assert (i = 0 ∨ i = 1) as [-> | ->] by lia;
    (assert (j = 0 ∨ j = 1) as [-> | ->] by lia); reflexivity.
Defined.

Lemma fresh_ne_lookup (h : gmap mt3d.ref ndarray2) (l : mt3d.ref) (a : ndarray2) :
  h !! l = Some a → fresh (dom h) ≠ l.
Proof.
  intros Hl Heq. apply (is_fresh (dom h)). rewrite Heq.
  apply elem_of_dom. by exists a.
Qed.

(** X3.  The three layers of the lake-bed leakance.  For every rectangular
    lake array, the cell builds [bdlknc] without an [IndexError]: its first
    layer is [LakArr_lyr1] expanded by one cell around lake 1, its second
    layer is [LakArr_lyr1] itself, which the writes into [bdlknc_lyr1] do
    not reach because [copy()] made two separate arrays, and its third
    layer is zero everywhere.  [LakArr_lyr1] is left as it was. *)
Theorem bdlknc_layers (h : gmap mt3d.ref ndarray2) (LakArr_lyr1 : mt3d.ref)
    (L : ndarray2) (nc : nat) :
  h !! LakArr_lyr1 = Some L → rect nc L →
  ∃ B Z3 h',
    bdlknc LakArr_lyr1 h = Some ([B; L; Z3], h')
    ∧ h' !! LakArr_lyr1 = Some L
    ∧ ∀ i j, mt3d.in_bounds L i j →
        getitem2 B i j = (if lake_shore L i j then Some 1%Q else getitem2 L i j)
        ∧ getitem2 Z3 i j = Some 0%Q.
Proof.
  intros HhL Hrect.
  assert (has_shape (length L) nc L) as HL by done.
  unfold bdlknc, mt3d.np_copy, np_zeros_like. rewrite HhL. simpl.
  set (bd1 := fresh (dom h)). set (h1 := <[bd1:=L]> h).
  assert (bd1 ≠ LakArr_lyr1) as Hne1 by (by eapply fresh_ne_lookup).
  assert (h1 !! LakArr_lyr1 = Some L) as H1L
    by (unfold h1; by rewrite lookup_insert_ne).
  assert (h1 !! bd1 = Some L) as H1b
    by (unfold h1; by rewrite lookup_insert_eq).
  rewrite H1L. simpl.
  set (bd2 := fresh (dom h1)). set (h2 := <[bd2:=L]> h1).
  assert (bd2 ≠ LakArr_lyr1) as Hne2 by (by eapply fresh_ne_lookup).
  assert (bd2 ≠ bd1) as Hne21 by (by eapply fresh_ne_lookup).
  assert (h2 !! LakArr_lyr1 = Some L) as H2L
    by (unfold h2; by rewrite lookup_insert_ne).
  assert (h2 !! bd1 = Some L) as H2b
    by (unfold h2; by rewrite lookup_insert_ne).
  assert (h2 !! bd2 = Some L) as H2c
    by (unfold h2; by rewrite lookup_insert_eq).
  rewrite H2L. simpl.
  set (Z3 := replicate (length L) (replicate (Z.to_nat (shape1 L)) 0%Q)).
  set (bd3 := fresh (dom h2)). set (h3 := <[bd3:=Z3]> h2).
  assert (bd3 ≠ LakArr_lyr1) as Hne3 by (by eapply fresh_ne_lookup).
  assert (bd3 ≠ bd1) as Hne31 by (by eapply fresh_ne_lookup).
  assert (bd3 ≠ bd2) as Hne32 by (by eapply fresh_ne_lookup).
  destruct (lak_loop_any LakArr_lyr1 bd1 L (length L) nc h3
              (not_eq_sym Hne1) HL L h3) as (B & h' & Hrun & Hst & HB).
  { unfold h3. split; [by rewrite lookup_insert_ne|].
    split; [by rewrite lookup_insert_ne|]. by split. }
  { intros a b _. unfold shore_of, mt3d.neighbours. cbn.
    by rewrite andb_false_r. }
  rewrite Hrun. simpl. destruct Hst as (HL' & HB' & _ & Hother).
  rewrite HB'. simpl.
  rewrite (Hother bd2) by done. unfold h3 at 1.
  rewrite lookup_insert_ne by done. rewrite H2c. simpl.
  rewrite (Hother bd3) by done. unfold h3 at 1.
  rewrite lookup_insert_eq. simpl.
  exists B, Z3, h'. split; [done|]. split; [done|].
  intros i j Hij. pose proof Hij as Hij'.
  apply (in_bounds_in_range _ _ _ _ _ HL) in Hij'. split.
  - rewrite (HB _ _ Hij'). by rewrite (shore_of_all _ _ _ _ _ HL).
  - destruct Hij as [Hi Hj]. unfold shape0 in Hi.
    unfold getitem2, Z3. rewrite length_replicate.
    rewrite np_index_in by lia. simpl.
    rewrite lookup_replicate_2 by lia. simpl. rewrite length_replicate.
    rewrite np_index_in by lia. simpl. by rewrite lookup_replicate_2 by lia.
Qed.

Lemma bdlknc_layers_witness :
  ({[ 0%nat := [[0; 1; 0]; [2; 0; 0]]%Q ]} : gmap mt3d.ref ndarray2) !! 0%nat
    = Some [[0; 1; 0]; [2; 0; 0]]%Q
  ∧ rect 3 [[0; 1; 0]; [2; 0; 0]]%Q
  ∧ ∃ B Z3 h',
      bdlknc 0%nat {[ 0%nat := [[0; 1; 0]; [2; 0; 0]]%Q ]}
        = Some ([B; [[0; 1; 0]; [2; 0; 0]]%Q; Z3], h')
      ∧ getitem2 B 0 0 = Some 1%Q ∧ getitem2 Z3 0 0 = Some 0%Q.
Proof.
  assert (({[ 0%nat := [[0; 1; 0]; [2; 0; 0]]%Q ]}
             : gmap mt3d.ref ndarray2) !! 0%nat
          = Some [[0; 1; 0]; [2; 0; 0]]%Q) as Hlook by reflexivity.
  assert (rect 3 [[0; 1; 0]; [2; 0; 0]]%Q) as Hrect.
  { repeat first [apply Forall_nil_2 | apply Forall_cons_2 | reflexivity]. }
  split; [exact Hlook|]. split; [exact Hrect|].
  destruct (bdlknc_layers _ _ _ 3 Hlook Hrect) as (B & Z3 & h' & Hrun & _ & Hcells).
  exists B, Z3, h'. split; [exact Hrun|].
  assert (mt3d.in_bounds [[0; 1; 0]; [2; 0; 0]]%Q 0 0) as Hin.
  { unfold mt3d.in_bounds, shape0, shape1. simpl length. lia. }
  exact (Hcells 0 0 Hin).
Defined.

(** ** The cells of the general head boundary *)

(** X4.  One boundary row per cell.  The list [sp] handed to [ModflowGhb] has
    exactly one row for every cell of grid row 299, in each of the three
    layers, and no row for any other cell: no cell is given twice and none
    of row 299 is left out. *)
Theorem ghb_one_row_per_cell :
  NoDup (ghb_cell <$> mt3d.sp)
  ∧ ∀ k i j, [Int k; Int i; Int j] ∈ ghb_cell <$> mt3d.sp
             ↔ 0 ≤ k < 3 ∧ i = 299 ∧ 0 ≤ j < 300.
Proof.
  assert (NoDup (ghb_cell <$> mt3d.sp)) as Hnd.
  { apply (bool_decide_unpack _). by vm_compute. }
  assert (ghb_cell <$> mt3d.sp ⊆ cells_of_row 299) as Hsub.
  { apply (bool_decide_unpack _). by vm_compute. }
  assert (cells_of_row 299 ⊆ ghb_cell <$> mt3d.sp) as Hsup.
  { apply (bool_decide_unpack _). by vm_compute. }
  assert (∀ k i j, [Int k; Int i; Int j] ∈ cells_of_row 299
                   ↔ 0 ≤ k < 3 ∧ i = 299 ∧ 0 ≤ j < 300) as Hcells.
  { intros k i j. unfold cells_of_row. rewrite list_elem_of_bind. split.
    - intros (k' & Hin & Hk'%elem_of_seqZ).
      apply list_elem_of_bind in Hin as (j' & Hin & Hj'%elem_of_seqZ).
      apply list_elem_of_singleton in Hin. injection Hin as -> -> ->.
      unfold mt3d.nlay, mt3d.ncol in *. lia.
    - intros (Hk & -> & Hj). exists k.
      split; [|apply elem_of_seqZ; unfold mt3d.nlay; lia].
      apply list_elem_of_bind. exists j.
      split; [by apply list_elem_of_singleton|].
      apply elem_of_seqZ. unfold mt3d.ncol. lia. }
  split; [done|]. intros k i j. rewrite <- Hcells. split; [apply Hsub|apply Hsup].
Qed.

(** X5.  Stage and conductance.  Every row of [sp] is a cell with a stage and
    a conductance.  In the six columns 26..31 the stage is 238.20 and the
    conductance 3409.0801; in every other column the conductance is 11.3636
    and the stage lies between 229 and 240. *)
Theorem ghb_stage_and_conductance (row : list num) :
  row ∈ mt3d.sp →
  ∃ k i j h c,
    row = [Int k; Int i; Int j; Float h; Float c]
    ∧ if bool_decide (26 ≤ j ≤ 31)
      then h = 238.20%Q ∧ c = 3409.0801%Q
      else c = 11.3636%Q ∧ (229 < h)%Q ∧ (h < 240)%Q.
Proof.
  intros Hrow.
  assert (Forall (λ r, ghb_row_ok r = true) mt3d.sp) as Hall.
  { apply (bool_decide_unpack _). by vm_compute. }
  rewrite Forall_forall in Hall. specialize (Hall row Hrow).
  destruct row as [|[k|] [|[i|] [|[j|] [|[|h] [|[|c] [|]]]]]]; try done.
  exists k, i, j, h, c. split; [done|]. cbn in Hall.
  destruct (bool_decide (26 ≤ j ≤ 31)).
  - apply andb_prop in Hall as [Hh Hc].
    split; by eapply bool_decide_eq_true_1.
  - apply andb_prop in Hall as [Hall Hhi]. apply andb_prop in Hall as [Hc Hlo].
    split; [by eapply bool_decide_eq_true_1|]. split.
    + apply Qnot_le_lt. intros Hle. apply Qle_bool_iff in Hle.
      by rewrite Hle in Hlo.
    + apply Qnot_le_lt. intros Hle. apply Qle_bool_iff in Hle.
      by rewrite Hle in Hhi.
Qed.

Lemma ghb_stage_and_conductance_witness :
  [Int 0; Int 299; Int 26; Float 238.20; Float 3409.0801] ∈ mt3d.sp
  ∧ ∃ k i j h c,
      [Int 0; Int 299; Int 26; Float 238.20; Float 3409.0801]
      = [Int k; Int i; Int j; Float h; Float c]
      ∧ if bool_decide (26 ≤ j ≤ 31)
        then h = 238.20%Q ∧ c = 3409.0801%Q
        else c = 11.3636%Q ∧ (229 < h)%Q ∧ (h < 240)%Q.
Proof.
  assert ([Int 0; Int 299; Int 26; Float 238.20; Float 3409.0801] ∈ mt3d.sp)
    as Hin.
  { apply (bool_decide_unpack _). by vm_compute. }
  split; [exact Hin|]. exact (ghb_stage_and_conductance _ Hin).
Defined.

(** ** numpy arrays with their shape *)

Lemma np_full_holds (n0 n1 n2 : Z) (v : Q) :
  0 ≤ n0 → 0 ≤ n1 → 0 ≤ n2 →
  ∃ a, np_full n0 n1 n2 v = inr a
       ∧ dim0 a = Z.to_nat n0 ∧ dim1 a = Z.to_nat n1 ∧ dim2 a = Z.to_nat n2
       ∧ holds a (λ _ _ _, v).
Proof.
  intros H0 H1 H2. unfold np_full. rewrite bool_decide_eq_true_2 by done.
  eexists. split; [reflexivity|]. unfold holds. cbn [dim0 dim1 dim2 cells].
  do 3 (split; [done|]). split.
  - unfold np_full3. by rewrite length_replicate.
  - intros l Hl. exists (replicate (Z.to_nat n1) (replicate (Z.to_nat n2) v)).
    unfold np_full3. rewrite lookup_replicate_2 by done.
    split; [done|]. split; [by rewrite length_replicate|].
    intros i Hi. exists (replicate (Z.to_nat n2) v).
    rewrite lookup_replicate_2 by done.
    split; [done|]. split; [by rewrite length_replicate|].
    intros j Hj. by rewrite lookup_replicate_2.
Qed.

Lemma np_full_negative (n0 n1 n2 : Z) (v : Q) :
  n0 < 0 ∨ n1 < 0 ∨ n2 < 0 → np_full n0 n1 n2 v = inl ValueError.
Proof. intros H. unfold np_full. rewrite bool_decide_eq_false_2; [done|lia]. Qed.

Lemma arr_get_holds (a : array3) (f : nat → nat → nat → Q) (l i j : Z) :
  holds a f →
  0 ≤ l < Z.of_nat (dim0 a) → 0 ≤ i < Z.of_nat (dim1 a) →
  0 ≤ j < Z.of_nat (dim2 a) →
  arr_get a l i j = inr (f (Z.to_nat l) (Z.to_nat i) (Z.to_nat j)).
Proof.
  intros [_ Ha] Hl Hi Hj. unfold arr_get.
  rewrite !np_index_in by done.
  destruct (Ha (Z.to_nat l)) as (lay & -> & _ & Hlay); [lia|]. simpl.
  destruct (Hlay (Z.to_nat i)) as (r & -> & _ & Hr); [lia|]. simpl.
  rewrite Hr by lia. done.
Qed.

Lemma arr_set_col_holds (a : array3) (f : nat → nat → nat → Q) (j : Z)
    (j' : nat) (v : Q) :
  holds a f → np_index (dim2 a) j = Some j' → (j' < dim2 a)%nat →
  ∃ a', arr_set_col a j v = inr a'
        ∧ dim0 a' = dim0 a ∧ dim1 a' = dim1 a ∧ dim2 a' = dim2 a
        ∧ holds a' (λ l i c, if decide (c = j') then v else f l i c).
Proof.
  intros [Hlen Ha] Hj Hj'. unfold arr_set_col. rewrite Hj.
  eexists. split; [reflexivity|]. unfold holds. cbn [dim0 dim1 dim2 cells].
  do 3 (split; [done|]). split.
  - by rewrite length_fmap.
  - intros l Hl. destruct (Ha l Hl) as (lay & Hlay & Hll & Hrows).
    exists ((λ r : list Q, <[j':=v]> r) <$> lay). rewrite list_lookup_fmap, Hlay.
    split; [done|]. split; [by rewrite length_fmap|].
    intros i Hi. destruct (Hrows i Hi) as (r & Hr & Hlr & Hcells).
    exists (<[j':=v]> r). rewrite list_lookup_fmap, Hr.
    split; [done|]. split; [by rewrite length_insert|].
    intros c Hc. destruct (decide (c = j')) as [->|Hne].
    + apply list_lookup_insert_eq. lia.
    + rewrite list_lookup_insert_ne by done. by apply Hcells.
Qed.

Lemma arr_set_layer_col_holds (a : array3) (f : nat → nat → nat → Q) (l j : Z)
    (v : Q) :
  holds a f → 0 ≤ l < Z.of_nat (dim0 a) → 0 ≤ j < Z.of_nat (dim2 a) →
  ∃ a', arr_set_layer_col a l j v = inr a'
        ∧ dim0 a' = dim0 a ∧ dim1 a' = dim1 a ∧ dim2 a' = dim2 a
        ∧ holds a' (λ l0 i c, if decide (l0 = Z.to_nat l ∧ c = Z.to_nat j)
                              then v else f l0 i c).
Proof.
  intros [Hlen Ha] Hl Hj. unfold arr_set_layer_col.
  rewrite !np_index_in by done.
  eexists. split; [reflexivity|]. unfold holds. cbn [dim0 dim1 dim2 cells].
  do 3 (split; [done|]). split.
  - by rewrite length_alter.
  - intros l0 Hl0. destruct (Ha l0 Hl0) as (lay & Hlay & Hll & Hrows).
    destruct (decide (l0 = Z.to_nat l)) as [->|Hne].
    + exists ((λ r : list Q, <[Z.to_nat j:=v]> r) <$> lay).
      rewrite list_lookup_alter_eq, Hlay.
      split; [done|]. split; [by rewrite length_fmap|].
      intros i Hi. destruct (Hrows i Hi) as (r & Hr & Hlr & Hcells).
      exists (<[Z.to_nat j:=v]> r). rewrite list_lookup_fmap, Hr.
      split; [done|]. split; [by rewrite length_insert|].
      intros c Hc. destruct (decide (c = Z.to_nat j)) as [->|Hnec].
      * rewrite decide_True by done. apply list_lookup_insert_eq. lia.
      * rewrite decide_False by (intros [_ ?]; done).
        rewrite list_lookup_insert_ne by done. by apply Hcells.
    + exists lay. rewrite list_lookup_alter_ne by done.
      split; [done|]. split; [done|].
      intros i Hi. destruct (Hrows i Hi) as (r & Hr & Hlr & Hcells).
      exists r. split; [done|]. split; [done|].
      intros c Hc. rewrite decide_False by (intros [? _]; done).
      by apply Hcells.
Qed.

Lemma holds_ext (a : array3) (f g : nat → nat → nat → Q) :
  (∀ l i j, (l < dim0 a)%nat → (i < dim1 a)%nat → (j < dim2 a)%nat →
            f l i j = g l i j) →
  holds a f → holds a g.
Proof.
  intros Hfg [Hlen Ha]. split; [done|].
  intros l Hl. destruct (Ha l Hl) as (lay & Hlay & Hll & Hrows).
  exists lay. split; [done|]. split; [done|].
  intros i Hi. destruct (Hrows i Hi) as (r & Hr & Hlr & Hcells).
  exists r. split; [done|]. split; [done|].
  intros j Hj. rewrite <- Hfg by done. by apply Hcells.
Qed.

(** ** The MODFLOW-USG notebook: the model parameters *)

Lemma np_index_last (n : nat) : (0 < n)%nat → np_index n (-1) = Some (n - 1)%nat.
Proof.
  intros Hn. unfold np_index.
  rewrite bool_decide_eq_false_2 by lia. rewrite bool_decide_eq_true_2 by lia.
  f_equal. lia.
Qed.

Lemma np_index_empty (j : Z) : np_index 0 j = None.
Proof.
  unfold np_index. rewrite bool_decide_eq_false_2 by (cbn; lia).
  by rewrite bool_decide_eq_false_2 by (cbn; lia).
Qed.

(** X6.  The boundary cells.  For a grid with at least one column, [ibound]
    is -1 in the first and in the last column of every row of every layer
    and 1 elsewhere (with one column, the two assignments write the same
    column); for a grid without columns the first assignment raises
    [IndexError]. *)
Theorem ibound_marks_both_ends (nlay nrow ncol : Z) :
  0 ≤ nlay → 0 ≤ nrow → 0 ≤ ncol →
  if bool_decide (ncol = 0)
  then zaidel_grid.ibound nlay nrow ncol = inl IndexError
  else ∃ a, zaidel_grid.ibound nlay nrow ncol = inr a
            ∧ dim0 a = Z.to_nat nlay ∧ dim1 a = Z.to_nat nrow
            ∧ dim2 a = Z.to_nat ncol
            ∧ ∀ l i j, 0 ≤ l < nlay → 0 ≤ i < nrow → 0 ≤ j < ncol →
                arr_get a l i j
                = inr (if bool_decide (j = 0 ∨ j = ncol - 1)
                       then (-1)%Q else 1%Q).
Proof.
  intros Hl Hr Hc. unfold zaidel_grid.ibound.
  destruct (np_full_holds nlay nrow ncol 1 Hl Hr Hc)
    as (a0 & -> & Hd0 & Hd1 & Hd2 & Ha0).
  cbn [mbind res_bind].
  destruct (decide (ncol = 0)) as [->|Hne].
  { rewrite bool_decide_eq_true_2 by done. unfold arr_set_col.
    rewrite Hd2. cbn [Z.to_nat]. by rewrite np_index_empty. }
  rewrite bool_decide_eq_false_2 by done.
  destruct (arr_set_col_holds a0 _ 0 0%nat (-1) Ha0)
    as (a1 & -> & Hd0' & Hd1' & Hd2' & Ha1).
  { rewrite Hd2. apply np_index_in. lia. }
  { lia. }
  cbn [mbind res_bind].
  destruct (arr_set_col_holds a1 _ (-1) (dim2 a1 - 1)%nat (-1) Ha1)
    as (a2 & -> & Hd0'' & Hd1'' & Hd2'' & Ha2).
  { apply np_index_last. lia. }
  { lia. }
  exists a2. split; [done|]. split; [congruence|]. split; [congruence|].
  split; [congruence|]. intros l i j Hl' Hi' Hj'.
  rewrite (arr_get_holds a2 _ l i j Ha2) by lia. f_equal.
  destruct (decide (Z.to_nat j = (dim2 a1 - 1)%nat)) as [Hlast|Hlast].
  - rewrite bool_decide_eq_true_2 by lia. done.
  - destruct (decide (Z.to_nat j = 0%nat)) as [Hfirst|Hfirst].
    + rewrite bool_decide_eq_true_2 by lia. done.
    + rewrite bool_decide_eq_false_2 by lia. done.
Qed.

Lemma ibound_marks_both_ends_witness :
  0 ≤ 1 ∧ 0 ≤ 200
  ∧ ∃ a, zaidel_grid.ibound 1 1 200 = inr a
         ∧ arr_get a 0 0 0 = inr (-1)%Q ∧ arr_get a 0 0 1 = inr 1%Q
         ∧ arr_get a 0 0 199 = inr (-1)%Q.
Proof.
  assert (0 ≤ 1) as H1 by lia. assert (0 ≤ 200) as H200 by lia.
  split; [exact H1|]. split; [exact H200|].
  destruct (ibound_marks_both_ends 1 1 200 H1 H1 H200)
    as (a & Hrun & _ & _ & _ & Hcells).
  exists a. split; [exact Hrun|].
  split; [|split].
  - exact (Hcells 0 0 0 ltac:(lia) ltac:(lia) ltac:(lia)).
  - exact (Hcells 0 0 1 ltac:(lia) ltac:(lia) ltac:(lia)).
  - exact (Hcells 0 0 199 ltac:(lia) ltac:(lia) ltac:(lia)).
Defined.

(** The starting heads on a grid with a column. *)
Lemma strt_cells (nlay nrow ncol : Z) (h1 h2 : Q) :
  0 ≤ nlay → 0 ≤ nrow → 1 ≤ ncol →
  ∃ a, zaidel_grid.strt nlay nrow ncol h1 h2 = inr a
       ∧ dim0 a = Z.to_nat nlay ∧ dim1 a = Z.to_nat nrow
       ∧ dim2 a = Z.to_nat ncol
       ∧ ∀ l i j, 0 ≤ l < nlay → 0 ≤ i < nrow → 0 ≤ j < ncol →
           arr_get a l i j
           = inr (if bool_decide (j = ncol - 1) then h2 else h1).
Proof.
  intros Hl Hr Hc. unfold zaidel_grid.strt.
  destruct (np_full_holds nlay nrow ncol h1 Hl Hr ltac:(lia))
    as (a0 & -> & Hd0 & Hd1 & Hd2 & Ha0).
  cbn [mbind res_bind].
  destruct (arr_set_col_holds a0 _ (-1) (dim2 a0 - 1)%nat h2 Ha0)
    as (a1 & -> & Hd0' & Hd1' & Hd2' & Ha1).
  { apply np_index_last. lia. }
  { lia. }
  exists a1. split; [done|]. split; [congruence|]. split; [congruence|].
  split; [congruence|]. intros l i j Hl' Hi' Hj'.
  rewrite (arr_get_holds a1 _ l i j Ha1) by lia. f_equal.
  destruct (decide (Z.to_nat j = (dim2 a0 - 1)%nat)) as [Hlast|Hlast].
  - rewrite bool_decide_eq_true_2 by lia. done.
  - rewrite bool_decide_eq_false_2 by lia. done.
Qed.

(** X7.  The starting heads.  For a grid with at least one column, [strt] is
    [h2] in the last column and [h1] elsewhere; for a grid without columns
    the assignment to the last column raises [IndexError]. *)
Theorem strt_heads (nlay nrow ncol : Z) (h1 h2 : Q) :
  0 ≤ nlay → 0 ≤ nrow → 0 ≤ ncol →
  if bool_decide (ncol = 0)
  then zaidel_grid.strt nlay nrow ncol h1 h2 = inl IndexError
  else ∃ a, zaidel_grid.strt nlay nrow ncol h1 h2 = inr a
            ∧ dim0 a = Z.to_nat nlay ∧ dim1 a = Z.to_nat nrow
            ∧ dim2 a = Z.to_nat ncol
            ∧ ∀ l i j, 0 ≤ l < nlay → 0 ≤ i < nrow → 0 ≤ j < ncol →
                arr_get a l i j
                = inr (if bool_decide (j = ncol - 1) then h2 else h1).
Proof.
  intros Hl Hr Hc.
  destruct (decide (ncol = 0)) as [->|Hne].
  - rewrite bool_decide_eq_true_2 by done. unfold zaidel_grid.strt.
    destruct (np_full_holds nlay nrow 0 h1 Hl Hr Hc)
      as (a0 & -> & Hd0 & Hd1 & Hd2 & Ha0).
    cbn [mbind res_bind]. unfold arr_set_col.
    rewrite Hd2. cbn [Z.to_nat]. by rewrite np_index_empty.
  - rewrite bool_decide_eq_false_2 by done.
    apply strt_cells; lia.
Qed.

Lemma strt_heads_witness :
  0 ≤ 1 ∧ 0 ≤ 200
  ∧ ∃ a, zaidel_grid.strt 1 1 200 23 5 = inr a
         ∧ arr_get a 0 0 0 = inr 23%Q ∧ arr_get a 0 0 199 = inr 5%Q.
Proof.
  assert (0 ≤ 1) as H1 by lia. assert (0 ≤ 200) as H200 by lia.
  split; [exact H1|]. split; [exact H200|].
  destruct (strt_heads 1 1 200 23 5 H1 H1 H200)
    as (a & Hrun & _ & _ & _ & Hcells).
  exists a. split; [exact Hrun|]. split.
  - exact (Hcells 0 0 0 ltac:(lia) ltac:(lia) ltac:(lia)).
  - exact (Hcells 0 0 199 ltac:(lia) ltac:(lia) ltac:(lia)).
Defined.

Lemma for_res_seqZ_inv {St : Type} (I : Z → St → Prop)
    (body : Z → St → res St) (n : Z) (s : St) :
  I 0 s →
  (∀ k s, 0 ≤ k < n → I k s → ∃ s', body k s = inr s' ∧ I (k + 1) s') →
  ∃ s', for_res (seqZ 0 n) body s = inr s' ∧ I (Z.max 0 n) s'.
Proof.
  intros H0 Hstep.
  assert (∀ (m : nat) (k : Z) s, 0 ≤ k → k + Z.of_nat m = Z.max 0 n → I k s →
            ∃ s', for_res (seqZ k (Z.of_nat m)) body s = inr s'
                  ∧ I (Z.max 0 n) s') as Hgen.
  { induction m as [|m IH]; intros k s0 Hk Hkm Hs0.
    - exists s0. split; [done|]. by replace (Z.max 0 n) with k by lia.
    - rewrite seqZ_cons by lia. simpl.
      destruct (Hstep k s0) as (s1 & -> & Hs1); [lia|done|].
      replace (Z.pred (Z.of_nat (S m))) with (Z.of_nat m) by lia.
      apply IH; [lia|lia|]. by replace (Z.succ k) with (k + 1) by lia. }
  destruct (decide (0 ≤ n)) as [Hn|Hn].
  - specialize (Hgen (Z.to_nat n) 0 s). rewrite Z2Nat.id in Hgen by done.
    apply Hgen; [lia|lia|done].
  - rewrite seqZ_nil by lia. exists s. split; [done|].
    by replace (Z.max 0 n) with 0 by lia.
Qed.

Lemma steps_at_or_below_succ (k : Z) :
  zaidel.steps_at_or_below (k + 1)
  = zaidel.steps_at_or_below k
    + (if bool_decide (k + 1 ∈ [40; 80; 120; 160]) then 1 else 0).
Proof.
  unfold zaidel.steps_at_or_below. cbn [filter list_filter].
  destruct (bool_decide (k + 1 ∈ [40; 80; 120; 160])) eqn:Hk.
  - apply bool_decide_eq_true in Hk.
    rewrite !elem_of_cons, elem_of_nil in Hk.
    repeat case_decide; cbn [length]; lia.
  - apply bool_decide_eq_false in Hk.
    rewrite !elem_of_cons, elem_of_nil in Hk.
    repeat case_decide; cbn [length]; lia.
Qed.

Lemma steps_at_or_below_range (k : Z) : 0 ≤ zaidel.steps_at_or_below k ≤ 4.
Proof.
  unfold zaidel.steps_at_or_below. cbn [filter list_filter].
  repeat case_decide; cbn [length]; lia.
Qed.

(** The bottom array after the loop, for any grid with a layer. *)
Lemma botm_holds (nlay nrow ncol : Z) :
  1 ≤ nlay → 0 ≤ nrow → 0 ≤ ncol →
  ∃ a base f,
    zaidel_grid.botm nlay nrow ncol = inr (a, base)
    ∧ dim0 a = Z.to_nat (nlay + 1) ∧ dim1 a = Z.to_nat nrow
    ∧ dim2 a = Z.to_nat ncol
    ∧ (base == inject_Z (20 - 5 * zaidel.steps_at_or_below ncol))%Q
    ∧ holds a f
    ∧ ∀ l i j, (j < Z.to_nat ncol)%nat →
        Qeq (f l i j)
          (if bool_decide (l = 1%nat)
           then inject_Z (20 - 5 * zaidel.steps_at_or_below (Z.of_nat j))
           else 25%Q).
Proof.
  intros Hl Hr Hc. unfold zaidel_grid.botm.
  destruct (np_full_holds (nlay + 1) nrow ncol 25 ltac:(lia) Hr Hc)
    as (a0 & -> & Hd0 & Hd1 & Hd2 & Ha0).
  cbn [mbind res_bind]. unfold range.
  destruct (for_res_seqZ_inv
    (λ k st, ∃ f,
       dim0 st.1 = Z.to_nat (nlay + 1) ∧ dim1 st.1 = Z.to_nat nrow
       ∧ dim2 st.1 = Z.to_nat ncol
       ∧ (st.2 == inject_Z (20 - 5 * zaidel.steps_at_or_below k))%Q
       ∧ holds st.1 f
       ∧ ∀ l i j, (j < Z.to_nat ncol)%nat →
           Qeq (f l i j)
             (if bool_decide (l = 1%nat ∧ Z.of_nat j < k)
              then inject_Z (20 - 5 * zaidel.steps_at_or_below (Z.of_nat j))
              else 25%Q))
    zaidel_grid.botm_body ncol (a0, 20%Q))
    as ([a base] & Hrun & f & Hd0' & Hd1' & Hd2' & Hbase & Ha & Hf).
  - exists (λ _ _ _, 25%Q). cbn [fst snd]. do 3 (split; [done|]).
    split; [done|]. split; [done|]. intros l i j Hj.
    by rewrite bool_decide_eq_false_2 by lia.
  - intros k [ak bk] Hk (f & Hk0 & Hk1 & Hk2 & Hbk & Hak & Hfk).
    cbn [fst snd] in *. unfold zaidel_grid.botm_body.
    destruct (arr_set_layer_col_holds ak f 1 k bk Hak)
      as (ak' & -> & Hk0' & Hk1' & Hk2' & Hak'); [lia|lia|].
    cbn [mbind res_bind mret res_ret]. eexists. split; [reflexivity|].
    eexists. cbn [fst snd]. split; [congruence|]. split; [congruence|].
    split; [congruence|]. split; [|split; [exact Hak'|]].
    + rewrite steps_at_or_below_succ.
      destruct (bool_decide (k + 1 ∈ [40; 80; 120; 160])).
      * rewrite Hbk. unfold Qeq. cbn. lia.
      * rewrite Hbk. unfold Qeq. cbn. lia.
    + intros l i j Hj. cbn beta.
      destruct (decide (l = Z.to_nat 1 ∧ j = Z.to_nat k)) as [[-> ->]|Hne].
      * rewrite bool_decide_eq_true_2 by lia. rewrite Z2Nat.id by lia. done.
      * rewrite (Hfk l i j Hj).
        destruct (decide (l = 1%nat ∧ Z.of_nat j < k)) as [Hin|Hout].
        -- rewrite !bool_decide_eq_true_2 by lia. done.
        -- rewrite !bool_decide_eq_false_2 by lia. done.
  - exists a, base, f. cbn [fst snd] in *. rewrite Hrun.
    replace (Z.max 0 ncol) with ncol in * by lia.
    do 6 (split; [done|]). intros l i j Hj. rewrite (Hf l i j Hj).
    destruct (decide (l = 1%nat)) as [->|Hne].
    + rewrite !bool_decide_eq_true_2 by lia. done.
    + rewrite bool_decide_eq_false_2 by lia.
      by rewrite bool_decide_eq_false_2 by done.
Qed.

Lemma botm_stairway_any_grid_aux (nlay nrow ncol : Z) :
  1 ≤ nlay → 0 ≤ nrow → 0 ≤ ncol →
  ∃ a base,
    zaidel_grid.botm nlay nrow ncol = inr (a, base)
    ∧ ∀ l i j, 0 ≤ l < nlay + 1 → 0 ≤ i < nrow → 0 ≤ j < ncol →
        ∃ v, arr_get a l i j = inr v
             ∧ Qeq v (if bool_decide (l = 1)
                      then inject_Z (20 - 5 * zaidel.steps_at_or_below j)
                      else 25%Q).
Proof.
  intros Hl Hr Hc.
  destruct (botm_holds nlay nrow ncol Hl Hr Hc)
    as (a & base & f & Hrun & Hd0 & Hd1 & Hd2 & _ & Ha & Hf).
  exists a, base. split; [done|].
  intros l i j Hl' Hi' Hj'. eexists.
  split; [apply (arr_get_holds a f l i j Ha); lia|].
  rewrite (Hf (Z.to_nat l) (Z.to_nat i) (Z.to_nat j)) by lia.
  rewrite Z2Nat.id by lia.
  destruct (decide (l = 1)) as [->|Hl1].
  - by rewrite !bool_decide_eq_true_2 by done.
  - by rewrite !bool_decide_eq_false_2 by lia.
Qed.

(** X8.  The stairway on any grid.  For any grid with a layer or without
    columns, the bottom array is 25 in its layer 0 (the top of the model)
    and in any layer past 1, and in layer 1 it is [20 - 5 * n] in column
    [j], with [n] the number of 40, 80, 120, 160 that are at most [j]; past
    column 160 it stays at 0.  With no layer ([nlay = 0]) and a column the
    first assignment raises [IndexError]. *)
Theorem botm_stairway_any_grid (nlay nrow ncol : Z) :
  0 ≤ nlay → 0 ≤ nrow → 0 ≤ ncol →
  if bool_decide (nlay = 0 ∧ 0 < ncol)
  then zaidel_grid.botm nlay nrow ncol = inl IndexError
  else ∃ a base,
      zaidel_grid.botm nlay nrow ncol = inr (a, base)
      ∧ dim0 a = Z.to_nat (nlay + 1) ∧ dim1 a = Z.to_nat nrow
      ∧ dim2 a = Z.to_nat ncol
      ∧ ∀ l i j, 0 ≤ l < nlay + 1 → 0 ≤ i < nrow → 0 ≤ j < ncol →
          ∃ v, arr_get a l i j = inr v
               ∧ Qeq v (if bool_decide (l = 1)
                        then inject_Z (20 - 5 * zaidel.steps_at_or_below j)
                        else 25%Q).
Proof.
  intros Hl Hr Hc.
  destruct (decide (nlay = 0)) as [->|Hne].
  - destruct (decide (0 < ncol)) as [Hpos|Hzero].
    + rewrite bool_decide_eq_true_2 by done. unfold zaidel_grid.botm.
      destruct (np_full_holds (0 + 1) nrow ncol 25 ltac:(lia) Hr Hc)
        as (a0 & -> & Hd0 & Hd1 & Hd2 & Ha0).
      cbn [mbind res_bind]. unfold range. rewrite seqZ_cons by done.
      cbn [for_res]. unfold zaidel_grid.botm_body, arr_set_layer_col.
      rewrite Hd0. by cbn.
    + rewrite bool_decide_eq_false_2 by lia.
      assert (ncol = 0) as -> by lia. unfold zaidel_grid.botm.
      destruct (np_full_holds (0 + 1) nrow 0 25 ltac:(lia) Hr Hc)
        as (a0 & -> & Hd0 & Hd1 & Hd2 & Ha0).
      cbn [mbind res_bind]. exists a0, 20%Q. split; [done|].
      do 3 (split; [done|]). intros l i j _ _ Hj. lia.
  - rewrite bool_decide_eq_false_2 by lia.
    destruct (botm_holds nlay nrow ncol ltac:(lia) Hr Hc)
      as (a & base & f & Hrun & Hd0 & Hd1 & Hd2 & _ & Ha & Hf).
    exists a, base. split; [done|]. do 3 (split; [done|]).
    intros l i j Hl' Hi' Hj'. eexists.
    split; [apply (arr_get_holds a f l i j Ha); lia|].
    rewrite (Hf (Z.to_nat l) (Z.to_nat i) (Z.to_nat j)) by lia.
    rewrite Z2Nat.id by lia.
    destruct (decide (l = 1)) as [->|Hl1].
    + by rewrite !bool_decide_eq_true_2 by done.
    + by rewrite !bool_decide_eq_false_2 by lia.
Qed.

Lemma botm_stairway_any_grid_witness :
  0 ≤ 1 ∧ 0 ≤ 200
  ∧ ∃ a base, zaidel_grid.botm 1 1 200 = inr (a, base)
      ∧ ∃ v, arr_get a 1 0 40 = inr v ∧ (v == 15)%Q.
Proof.
  assert (0 ≤ 1) as H1 by lia. assert (0 ≤ 200) as H200 by lia.
  split; [exact H1|]. split; [exact H200|].
  destruct (botm_stairway_any_grid 1 1 200 H1 H1 H200)
    as (a & base & Hrun & _ & _ & _ & Hcells).
  exists a, base. split; [exact Hrun|].
  exact (Hcells 1 0 40 ltac:(lia) ltac:(lia) ltac:(lia)).
Defined.

(** On the grid of the notebook the array with its shape is the array of
    [zaidel.botm_loop]. *)
Lemma botm_grid_agrees :
  match zaidel_grid.botm zaidel.nlay zaidel.nrow zaidel.ncol, zaidel.botm_loop with
  | inr (a, base), Some (botm, base') => cells a = botm ∧ base = base'
  | _, _ => False
  end.
Proof. vm_compute. by split. Qed.

(** X9.  Heads start above the bottom.  With one column more than the last
    step of the stairway ([ncol >= 161]) and boundary heads [h1] above 20
    and [h2] above 0, neither above 25, the starting head of every cell of
    the first layer is above the bottom of the cell and not above its top:
    no cell starts dry. *)
Theorem strt_above_botm (nlay nrow ncol : Z) (h1 h2 : Q) :
  1 ≤ nlay → 0 ≤ nrow → 161 ≤ ncol →
  (20 < h1)%Q → (h1 <= 25)%Q → (0 < h2)%Q → (h2 <= 25)%Q →
  ∃ s b base,
    zaidel_grid.strt nlay nrow ncol h1 h2 = inr s
    ∧ zaidel_grid.botm nlay nrow ncol = inr (b, base)
    ∧ ∀ i j, 0 ≤ i < nrow → 0 ≤ j < ncol →
        ∃ head bottom top,
          arr_get s 0 i j = inr head ∧ arr_get b 1 i j = inr bottom
          ∧ arr_get b 0 i j = inr top
          ∧ (bottom < head)%Q ∧ (head <= top)%Q.
Proof.
  intros Hl Hr Hc H1lo H1hi H2lo H2hi.
  destruct (strt_cells nlay nrow ncol h1 h2 ltac:(lia) Hr ltac:(lia))
    as (s & Hs & _ & _ & _ & Hscells).
  pose proof (botm_stairway_any_grid_aux nlay nrow ncol Hl Hr ltac:(lia)) as Hb.
  destruct Hb as (b & base & Hb & Hbcells).
  exists s, b, base. split; [done|]. split; [done|].
  intros i j Hi Hj.
  destruct (Hbcells 1 i j ltac:(lia) Hi Hj) as (bottom & Hbot & Hbv).
  destruct (Hbcells 0 i j ltac:(lia) Hi Hj) as (top & Htop & Htv).
  rewrite bool_decide_eq_true_2 in Hbv by done.
  rewrite bool_decide_eq_false_2 in Htv by done.
  eexists _, bottom, top.
  split; [apply Hscells; lia|]. split; [done|]. split; [done|].
  rewrite Hbv, Htv. pose proof (steps_at_or_below_range j) as Hrange.
  destruct (decide (j = ncol - 1)) as [->|Hlast].
  - rewrite bool_decide_eq_true_2 by done. split; [|done].
    assert (zaidel.steps_at_or_below (ncol - 1) = 4) as ->.
    { unfold zaidel.steps_at_or_below. cbn [filter list_filter].
      repeat case_decide; cbn [length]; lia. }
    done.
  - rewrite bool_decide_eq_false_2 by done. split; [|done].
    eapply Qle_lt_trans; [|exact H1lo].
    unfold Qle. cbn. lia.
Qed.

Lemma strt_above_botm_witness :
  1 ≤ 1 ∧ 0 ≤ 1 ∧ 161 ≤ 200
  ∧ (20 < 23)%Q ∧ (23 <= 25)%Q ∧ (0 < 5)%Q ∧ (5 <= 25)%Q
  ∧ ∃ s b base,
      zaidel_grid.strt 1 1 200 23 5 = inr s
      ∧ zaidel_grid.botm 1 1 200 = inr (b, base)
      ∧ ∃ head bottom top,
          arr_get s 0 0 199 = inr head ∧ arr_get b 1 0 199 = inr bottom
          ∧ arr_get b 0 0 199 = inr top
          ∧ (bottom < head)%Q ∧ (head <= top)%Q.
Proof.
  assert (1 ≤ 1) as Hl by lia. assert (0 ≤ 1) as Hr by lia.
  assert (161 ≤ 200) as Hc by lia.
  assert (20 < 23)%Q as H1lo by reflexivity.
  assert (23 <= 25)%Q as H1hi by (unfold Qle; cbn; lia).
  assert (0 < 5)%Q as H2lo by reflexivity.
  assert (5 <= 25)%Q as H2hi by (unfold Qle; cbn; lia).
  do 7 (split; [assumption|]).
  destruct (strt_above_botm 1 1 200 23 5 Hl Hr Hc H1lo H1hi H2lo H2hi)
    as (s & b & base & Hs & Hb & Hcells).
  exists s, b, base. split; [exact Hs|]. split; [exact Hb|].
  exact (Hcells 0 199 ltac:(lia) ltac:(lia)).
Defined.


(** ** The MT3D-USGS notebook: the grid *)

Lemma np_linspace_centres (L : Q) (n j : Z) :
  1 ≤ n → 0 ≤ j < n →
  (L / inject_Z n / 2
   + inject_Z j * ((inject_Z n * (L / inject_Z n) - L / inject_Z n / 2
                    - L / inject_Z n / 2) / inject_Z (n - 1))
   == (inject_Z j + 1 / 2) * (L / inject_Z n))%Q.
Proof.
  intros Hn Hj.
  assert (¬ inject_Z n == 0)%Q as Hn0.
  { unfold Qeq. cbn. lia. }
  destruct (decide (n = 1)) as [->|Hn1].
  - assert (j = 0) as -> by lia.
    change (inject_Z 0) with 0%Q. unfold Qdiv. ring.
  - assert (¬ inject_Z (n - 1) == 0)%Q as Hn10.
    { unfold Qeq. cbn. lia. }
    assert (inject_Z (n - 1) == inject_Z n - 1)%Q as Hm.
    { unfold Qeq, Qminus, Qplus, Qopp, inject_Z. cbn. lia. }
    rewrite Hm in Hn10 |- *. field. split; done.
Qed.

(** X11.  The grid.  For a grid with at least one row and one column, [X] and
    [Y] have [nrow] rows of [ncol] columns and hold the coordinates of the
    cell centres: [X[i, j]] is [(j + 1/2) * Lx / ncol], [Y[i, j]] is
    [Ly - (i + 1/2) * Ly / nrow], so the first row is the far edge in [Y].
    Without columns, or with columns and without rows, the cell raises
    [ZeroDivisionError]. *)
Theorem grid_cell_centres (Lx Ly : Q) (nrow ncol : Z) :
  0 ≤ nrow → 0 ≤ ncol →
  if bool_decide (ncol = 0 ∨ nrow = 0)
  then mt3d_grid.XY Lx Ly nrow ncol = inl ZeroDivisionError
  else ∃ X Y, mt3d_grid.XY Lx Ly nrow ncol = inr (X, Y)
         ∧ has_shape (Z.to_nat nrow) (Z.to_nat ncol) X
         ∧ has_shape (Z.to_nat nrow) (Z.to_nat ncol) Y
         ∧ ∀ i j, 0 ≤ i < nrow → 0 ≤ j < ncol →
             ∃ u v, getitem2 X i j = Some u ∧ getitem2 Y i j = Some v
                    ∧ Qeq u ((inject_Z j + 1 / 2) * (Lx / inject_Z ncol))
                    ∧ Qeq v (Ly - (inject_Z i + 1 / 2) * (Ly / inject_Z nrow)).
Proof.
  intros Hr Hc. unfold mt3d_grid.XY, float_div.
  destruct (Z.eqb_spec ncol 0) as [->|Hc0].
  { by rewrite bool_decide_eq_true_2 by (by left). }
  cbn [mbind res_bind].
  destruct (Z.eqb_spec nrow 0) as [->|Hr0].
  { by rewrite bool_decide_eq_true_2 by (by right). }
  rewrite bool_decide_eq_false_2 by lia.
  cbn [mbind res_bind]. unfold np_linspace.
  destruct (Z.ltb_spec ncol 0); [lia|]. cbn [mbind res_bind].
  destruct (Z.ltb_spec nrow 0); [lia|]. cbn [mbind res_bind mret res_ret].
  unfold np_meshgrid. eexists _, _. split; [reflexivity|].
  split; [|split].
  - split; [by rewrite !length_fmap, length_seqZ|].
    unfold rect. rewrite !Forall_fmap. apply Forall_forall. intros k _.
    cbn. by rewrite length_fmap, length_seqZ.
  - split; [by rewrite !length_fmap, length_seqZ|].
    unfold rect. rewrite !Forall_fmap. apply Forall_forall. intros k _.
    cbn. by rewrite !length_fmap, length_seqZ.
  - intros i j Hi Hj. eexists _, _.
    split; [|split; [|split]].
    + unfold getitem2. rewrite !length_fmap, length_seqZ.
      rewrite np_index_in by lia. cbn [mbind option_bind].
      rewrite !list_lookup_fmap, lookup_seqZ_lt by lia.
      cbn [fmap option_fmap option_map mbind option_bind].
      rewrite length_fmap, length_seqZ, np_index_in by lia.
      cbn [mbind option_bind].
      rewrite list_lookup_fmap, lookup_seqZ_lt by lia. reflexivity.
    + unfold getitem2. rewrite !length_fmap, length_seqZ.
      rewrite np_index_in by lia. cbn [mbind option_bind].
      rewrite !list_lookup_fmap, lookup_seqZ_lt by lia.
      cbn [fmap option_fmap option_map mbind option_bind].
      rewrite !length_fmap, length_seqZ, np_index_in by lia.
      cbn [mbind option_bind].
      rewrite !list_lookup_fmap, lookup_seqZ_lt by lia. reflexivity.
    + cbn beta. rewrite Z.add_0_l, Z2Nat.id by lia.
      apply np_linspace_centres; lia.
    + cbn beta. rewrite Z.add_0_l, Z2Nat.id by lia.
      assert (¬ inject_Z nrow == 0)%Q as Hn0 by (unfold Qeq; cbn; lia).
      destruct (decide (nrow = 1)) as [->|Hn1].
      * assert (i = 0) as -> by lia.
        unfold Qdiv. change (/ inject_Z 1)%Q with 1%Q.
        change (inject_Z 0) with 0%Q. change (inject_Z 1) with 1%Q. ring.
      * assert (¬ inject_Z (nrow - 1) == 0)%Q as Hn10
          by (unfold Qeq; cbn; lia).
        assert (inject_Z (nrow - 1) == inject_Z nrow - 1)%Q as Hm.
        { unfold Qeq, Qminus, Qplus, Qopp, inject_Z. cbn. lia. }
        rewrite Hm in Hn10 |- *. field. split; done.
Qed.

Lemma grid_cell_centres_witness :
  0 ≤ 300
  ∧ ∃ X Y, mt3d_grid.XY 90000 90000 300 300 = inr (X, Y)
      ∧ ∃ u v, getitem2 X 0 0 = Some u ∧ getitem2 Y 0 0 = Some v
               ∧ (u == 150)%Q ∧ (v == 89850)%Q.
Proof.
  assert (0 ≤ 300) as H300 by lia.
  split; [exact H300|].
  destruct (grid_cell_centres 90000 90000 300 300 H300 H300)
    as (X & Y & Hrun & _ & _ & Hcells).
  exists X, Y. split; [exact Hrun|].
  destruct (Hcells 0 0 ltac:(lia) ltac:(lia)) as (u & v & Hu & Hv & Hxu & Hyv).
  exists u, v. split; [exact Hu|]. split; [exact Hv|].
  split; [rewrite Hxu; reflexivity | rewrite Hyv; reflexivity].
Defined.

(** ** Names read before they are bound *)

Lemma mkdir_no_name_error (U : list string) (p : list string) (w : world) (e : exn) :
  mkdir p w = inl e → name_error_in U e = true.
Proof.
  unfold mkdir. intros Hmk. repeat case_match; by simplify_eq.
Qed.

Lemma makedirs_no_name_error (U : list string) (n : nat) (ok : bool)
    (p : list string) (w : world) (e : exn) :
  makedirs n ok p w = inl e → name_error_in U e = true.
Proof.
  revert p w e. induction n as [|n IH]; intros p w e; cbn [makedirs].
  - destruct (mkdir p w) as [e'|w'] eqn:Hmk; [|done].
    destruct (negb ok || negb (is_dir w p)); [|done].
    intros H. simplify_eq. by eapply mkdir_no_name_error.
  - destruct (bool_decide (removelast p ≠ []) && negb (path_exists w (removelast p))).
    + destruct (makedirs n ok (removelast p) w) as [e'|w'] eqn:Hhead.
      * specialize (IH _ _ _ Hhead).
        destruct e'; try (intros H; by simplify_eq).
        destruct (mkdir p w) as [e'|w'] eqn:Hmk; [|done].
        destruct (negb ok || negb (is_dir w p)); [|done].
        intros H. simplify_eq. by eapply mkdir_no_name_error.
      * destruct (mkdir p w') as [e'|w''] eqn:Hmk; [|done].
        destruct (negb ok || negb (is_dir w' p)); [|done].
        intros H. simplify_eq. by eapply mkdir_no_name_error.
    + destruct (mkdir p w) as [e'|w'] eqn:Hmk; [|done].
      destruct (negb ok || negb (is_dir w p)); [|done].
      intros H. simplify_eq. by eapply mkdir_no_name_error.
Qed.

Section scoped.

Context (U : list string).

Lemma scope_inv_raise (D : list string) (r0 : list exn) (e : exn) (w : world) :
  name_error_in U e = true → scope_inv U D r0 w →
  scope_inv U D r0 (set_raised (raised w ++ [e]) w).
Proof.
  intros He (HD & new & Hr & Hall). split; [done|].
  exists (new ++ [e]). cbn. rewrite Hr, app_assoc. split; [done|].
  apply Forall_app. split; [done|]. by apply Forall_singleton.
Qed.

Lemma scoped_ret {A} (D : list string) (a : A) : scoped U D D (mret a).
Proof. intros r0. by apply hoare_ret. Qed.

Lemma scoped_ret_sub {A} (D D' : list string) (a : A) :
  D' ⊆ D → scoped U D D' (mret a).
Proof.
  intros Hsub r0. apply hoare_ret. intros w (HD & Hr). split; [|done].
  intros x Hx. apply HD. by apply Hsub.
Qed.

Lemma scoped_bind {A B} (D D1 D2 : list string) (m : M A) (f : A → M B) :
  scoped U D D1 m → D ⊆ D1 → (∀ a, scoped U D1 D2 (f a)) →
  scoped U D D2 (m ≫= f).
Proof.
  intros Hm Hsub Hf r0. eapply hoare_bind; [apply Hm|]. intros a.
  eapply hoare_conseq; [apply (Hf a r0)|done|done|].
  intros e w (HD & Hr). split; [|done]. intros x Hx. apply HD. by apply Hsub.
Qed.

Lemma scoped_throw {A} (D D' : list string) (e : exn) :
  name_error_in U e = true → scoped U D D' (@throw A e).
Proof. intros He r0 w Hw. by apply scope_inv_raise. Qed.

Lemma scoped_try {A} (D D1 D2 : list string) label (body handler : M A) :
  scoped U D D1 body → scoped U D D2 handler → D1 ⊆ D2 →
  scoped U D D1 (try_except label body handler).
Proof.
  intros Hb Hh Hsub r0. eapply hoare_try; [apply Hb|].
  intros e. eapply hoare_conseq; [apply (Hh r0)| | |done].
  - by intros w (w0 & Hw0 & ->).
  - intros _ w (HD & Hr). split; [|done]. intros x Hx. apply HD. by apply Hsub.
Qed.

Lemma scoped_name (D : list string) (x : string) :
  x ∈ D → scoped U D D (name x).
Proof.
  intros Hx r0 w Hw. unfold name. pose proof Hw as [HD _].
  destruct (HD x Hx) as [b ->]. done.
Qed.

Lemma scoped_name_unbound (D : list string) (x : string) :
  x ∈ U → scoped U D D (name x).
Proof.
  intros Hx r0 w Hw. unfold name. destruct (globals w !! x); [done|].
  apply scope_inv_raise; [|done]. by apply bool_decide_eq_true.
Qed.

Lemma scoped_store (D : list string) (x : string) (b : binding) :
  scoped U D (x :: D) (store x b).
Proof.
  intros r0 w (HD & Hr). split; [|done]. intros y Hy. cbn.
  destruct (decide (y = x)) as [->|Hne].
  - rewrite lookup_insert_eq. by eexists.
  - rewrite lookup_insert_ne by done. apply HD.
    apply elem_of_cons in Hy as [?|?]; done.
Qed.

Lemma scoped_gets {A} (D : list string) (f : world → A) : scoped U D D (gets f).
Proof. by intros r0 w Hw. Qed.

Lemma scoped_perform (D : list string) (c : string) (bs : list binding) :
  scoped U D D (perform c bs).
Proof.
  intros r0 w Hw. unfold perform. cbn zeta.
  destruct (lib_raises w (length (calls w))); [|done].
  by apply (scope_inv_raise D r0 (LibraryError c)).
Qed.

Lemma scoped_fs_makedirs (D : list string) (ok : bool) (p : list string) :
  scoped U D D (fs_makedirs ok p).
Proof.
  intros r0 w Hw. unfold fs_makedirs.
  destruct (makedirs (length p) ok p w) as [e|w'] eqn:Hmk.
  - apply scope_inv_raise; [|done]. by eapply makedirs_no_name_error.
  - by apply makedirs_frame in Hmk as (d & -> & _).
Qed.

Lemma scoped_fs_remove (D : list string) (p : list string) :
  scoped U D D (fs_remove p).
Proof.
  intros r0 w Hw. unfold fs_remove.
  destruct (is_file w p); [done|].
  destruct (is_dir w p); by apply scope_inv_raise.
Qed.

End scoped.

Ltac list_check := apply (bool_decide_unpack _); by vm_compute.

(** [D ⊆ x1 :: ... :: xn :: D]. *)
Ltac grown_check :=
  first [ solve [repeat first [reflexivity | apply list_subseteq_cons]]
        | list_check ].

Ltac scoped_step :=
  lazymatch goal with
  | |- scoped _ _ _ (mret _) =>
      first [apply scoped_ret | apply scoped_ret_sub; list_check]
  | |- scoped _ _ _ (_ ≫= _) =>
      eapply scoped_bind; [|shelve|intros ?]
  | |- scoped _ _ _ (throw _) => apply scoped_throw; reflexivity
  | |- scoped _ _ _ (try_except _ _ _) => eapply scoped_try; [| |shelve]
  | |- scoped _ _ _ (name _) =>
      first [apply scoped_name; list_check
            | apply scoped_name_unbound; list_check]
  | |- scoped _ _ _ (store _ _) => apply scoped_store
  | |- scoped _ _ _ (gets _) => apply scoped_gets
  | |- scoped _ _ _ (perform _ _) => apply scoped_perform
  | |- scoped _ _ _ (fs_makedirs _ _) => apply scoped_fs_makedirs
  | |- scoped _ _ _ (fs_remove _) => apply scoped_fs_remove
  | |- scoped _ _ _ (match ?x with _ => _ end) => destruct x
  | |- scoped _ _ _ (eval_args _) => stmt_fixpoints
  | |- scoped _ _ _ (assign_lits _) => stmt_fixpoints
  | |- scoped _ _ _ (mark_loop_built _) => stmt_fixpoints
  | |- scoped _ _ _ (bind_vars _) => stmt_fixpoints
  | |- scoped _ _ _ (run_cells _) => stmt_fixpoints
  | |- scoped _ _ _ ?m => unfold_head m
  end.

Ltac scoped_cells :=
  cbn [run_cells];
  repeat (eapply scoped_bind;
          [unshelve (repeat scoped_step); grown_check | grown_check | intros _]);
  apply scoped_ret.

Lemma zaidel_scoped : ∃ D, scoped ["model_ws"] [] D zaidel.notebook.
Proof. eexists. unfold zaidel.notebook. scoped_cells. Qed.

Lemma mt3d_scoped : ∃ D, scoped [] [] D mt3d.notebook.
Proof. eexists. unfold mt3d.notebook. scoped_cells. Qed.

Lemma scoped_run {A} (U D : list string) (m : M A) (w : world) :
  scoped U [] D m →
  Forall (λ e, name_error_in U e = true) (raised_since w (m w).2).
Proof.
  intros Hm. specialize (Hm (raised w) w).
  assert (scope_inv U [] (raised w) w) as Hw.
  { split; [by intros x Hx%elem_of_nil|]. exists []. by rewrite app_nil_r. }
  specialize (Hm Hw).
  assert (∃ D', scope_inv U D' (raised w) (m w).2) as (D' & _ & new & Hnew & Hall).
  { destruct (m w) as [[a|e] w']; by eexists. }
  unfold raised_since. by rewrite Hnew, drop_app_length.
Qed.

(** ** The order of the calls into the modeling library *)

Section traces.

Context (f : string → bool).

Lemma traced_raise (c0 : list entry) (l cs : list string) (w : world) :
  traced f c0 l w → ∃ p, p `prefix_of` cs ∧ traced f c0 (l ++ p) w.
Proof. intros Hw. exists []. split; [apply prefix_nil|]. by rewrite app_nil_r. Qed.

Lemma traces_eq {A} (cs cs' : list string) (m : M A) :
  traces f cs m → cs = cs' → traces f cs' m.
Proof. by intros H <-. Qed.

Lemma traces_ret {A} (a : A) : traces f [] (mret a).
Proof. intros c0 l. apply hoare_ret. intros w Hw. by rewrite app_nil_r. Qed.

Lemma traces_bind {A B} (c1 c2 : list string) (m : M A) (k : A → M B) :
  traces f c1 m → (∀ a, traces f c2 (k a)) → traces f (c1 ++ c2) (m ≫= k).
Proof.
  intros Hm Hk c0 l. eapply hoare_bind.
  - eapply hoare_conseq; [apply (Hm c0 l)|done|done|].
    intros e w (p & Hp & Hw). exists p. split; [|done].
    by apply prefix_app_r.
  - intros a. eapply hoare_conseq; [apply (Hk a c0 (l ++ c1))|done| |].
    + intros b w Hw. by rewrite app_assoc.
    + intros e w (p & Hp & Hw). exists (c1 ++ p).
      split; [by apply prefix_app|]. by rewrite app_assoc.
Qed.

Lemma traces_throw {A} (cs : list string) (e : exn) : traces f cs (@throw A e).
Proof.
  intros c0 l w Hw. apply traced_raise. destruct Hw as (new & Hnew & Hl).
  by exists new.
Qed.

Lemma traces_name (x : string) : traces f [] (name x).
Proof.
  intros c0 l w Hw. unfold name. destruct (globals w !! x).
  - by rewrite app_nil_r.
  - by apply (traces_throw (A:=binding) [] (NameError x) c0 l).
Qed.

Lemma traces_store (x : string) (b : binding) : traces f [] (store x b).
Proof. intros c0 l w Hw. cbn. by rewrite app_nil_r. Qed.

Lemma traces_gets {A} (g : world → A) : traces f [] (gets g).
Proof. intros c0 l w Hw. cbn. by rewrite app_nil_r. Qed.

Lemma traces_perform (c : string) (bs : list binding) :
  traces f (if f c then [c] else []) (perform c bs).
Proof.
  intros c0 l w (new & Hnew & Hl). unfold perform. cbn zeta.
  assert (traced f c0 (l ++ (if f c then [c] else []))
            (set_calls (calls w ++ [Entry c bs (lib_raises w (length (calls w)))])
               w)) as Hlog.
  { eexists (new ++ [_]). cbn. rewrite Hnew, app_assoc. split; [done|].
    rewrite fmap_app, List.filter_app, Hl. cbn. by destruct (f c). }
  destruct (lib_raises w (length (calls w))); [|done].
  exists (if f c then [c] else []). split; [done|].
  destruct Hlog as (new' & Hnew' & Hl'). by exists new'.
Qed.

Lemma traces_fs_makedirs (ok : bool) (p : list string) :
  traces f [] (fs_makedirs ok p).
Proof.
  intros c0 l w Hw. unfold fs_makedirs.
  destruct (makedirs (length p) ok p w) as [e|w'] eqn:Hmk.
  - by apply (traces_throw (A:=unit) [] e c0 l).
  - apply makedirs_frame in Hmk as (d & -> & _). by rewrite app_nil_r.
Qed.

Lemma traces_fs_remove (p : list string) : traces f [] (fs_remove p).
Proof.
  intros c0 l w Hw. unfold fs_remove.
  destruct (is_file w p); [by rewrite app_nil_r|].
  destruct (is_dir w p); by apply (traces_throw (A:=unit) [] _ c0 l).
Qed.

(** A [try] whose body and handler make no call accepted by [f]. *)
Lemma traces_try_quiet {A} label (body handler : M A) :
  logs (λ c, negb (f c)) body → logs (λ c, negb (f c)) handler →
  traces f [] (try_except label body handler).
Proof.
  intros Hb Hh c0 l w (new & Hnew & Hl).
  pose proof (logs_try _ label body handler Hb Hh (calls w) w) as Hq.
  assert (logged (λ c, negb (f c)) (calls w) w) as Hw.
  { exists []. by rewrite app_nil_r. }
  specialize (Hq Hw).
  assert (∀ w', logged (λ c, negb (f c)) (calls w) w' → traced f c0 l w')
    as Hkeep.
  { intros w' (more & Hmore & Hall). exists (new ++ more).
    rewrite Hmore, Hnew, app_assoc. split; [done|].
    rewrite fmap_app, List.filter_app, Hl.
    assert (List.filter f (callee <$> more) = []) as ->.
    { clear Hmore. induction Hall as [|e more He _ IH]; [done|]. cbn.
      apply negb_true_iff in He. by rewrite He. }
    by rewrite app_nil_r. }
  destruct (try_except label body handler w) as [[a|e] w'].
  - rewrite app_nil_r. by apply Hkeep.
  - apply traced_raise. by apply Hkeep.
Qed.

Lemma traces_run {A} (cs : list string) (m : M A) (w : world) :
  traces f cs m →
  List.filter f (callee <$> calls_since w (m w).2) `prefix_of` cs
  ∧ (∀ a, (m w).1 = Ok a →
          List.filter f (callee <$> calls_since w (m w).2) = cs).
Proof.
  intros Hm. specialize (Hm (calls w) [] w).
  assert (traced f (calls w) [] w) as Hw.
  { exists []. by rewrite app_nil_r. }
  specialize (Hm Hw). destruct (m w) as [[a|e] w']; cbn.
  - destruct Hm as (new & Hnew & Hl).
    rewrite (calls_since_app _ _ _ Hnew), Hl. split; [done|]. by intros _ _.
  - destruct Hm as (p & Hp & new & Hnew & Hl).
    rewrite (calls_since_app _ _ _ Hnew), Hl. split; [done|]. by intros ? ?.
Qed.

End traces.

Ltac traces_step0 :=
  lazymatch goal with
  | |- traces _ _ (mret _) => apply traces_ret
  | |- traces _ _ (_ ≫= _) => eapply traces_bind; [|intros ?]
  | |- traces _ _ (throw _) => apply traces_throw
  | |- traces _ _ (try_except _ _ _) =>
      apply traces_try_quiet; repeat logs_step
  | |- traces _ _ (name _) => apply traces_name
  | |- traces _ _ (store _ _) => apply traces_store
  | |- traces _ _ (gets _) => apply traces_gets
  | |- traces _ _ (perform _ _) => apply traces_perform
  | |- traces _ _ (fs_makedirs _ _) => apply traces_fs_makedirs
  | |- traces _ _ (fs_remove _) => apply traces_fs_remove
  | |- traces _ _ (match ?x with _ => _ end) => destruct x
  | |- traces _ _ (eval_args _) => stmt_fixpoints
  | |- traces _ _ (assign_lits _) => stmt_fixpoints
  | |- traces _ _ (mark_loop_built _) => stmt_fixpoints
  | |- traces _ _ (bind_vars _) => stmt_fixpoints
  | |- traces _ _ (run_cells _) => stmt_fixpoints
  | |- traces _ _ ?m => unfold_head m
  end.

(** Where the calls are already fixed by another branch, the calls of a
    compound statement are compared with them afterwards. *)
Ltac traces_step :=
  lazymatch goal with
  | |- traces _ ?cs ?m =>
      tryif is_evar cs then traces_step0
      else lazymatch m with
           | _ ≫= _ => eapply traces_eq; [|shelve]
           | perform _ _ => eapply traces_eq; [|shelve]
           | _ => traces_step0
           end
  end.

Ltac traces_cells :=
  cbn [run_cells];
  repeat (eapply traces_bind;
          [unshelve (repeat traces_step); by vm_compute|intros _]);
  apply traces_ret.

Lemma zaidel_traces : traces library_call zaidel_library_calls zaidel.notebook.
Proof.
  eapply traces_eq; [unfold zaidel.notebook; traces_cells|by vm_compute].
Qed.

Lemma mt3d_traces : traces library_call mt3d_library_calls mt3d.notebook.
Proof.
  eapply traces_eq; [unfold mt3d.notebook; traces_cells|by vm_compute].
Qed.

(** ** The setup cells *)

Lemma set_globals_id (w : world) : set_globals (globals w) w = w.
Proof. by destruct w. Qed.

Lemma makedirs_returns_dir (n : nat) (p : list string) (w w' : world) :
  makedirs n true p w = inr w' → is_dir w' p = true.
Proof.
  assert (∀ w1 w2, match mkdir p w1 with
                   | inl e => if negb true || negb (is_dir w1 p)
                              then inl e else inr w1
                   | inr w2 => inr w2
                   end = inr w2 → is_dir w2 p = true) as Hleaf.
  { intros w1 w2. unfold mkdir.
    destruct (path_exists w1 p); [|destruct (is_file w1 (removelast p));
      [|destruct (negb (is_dir w1 (removelast p)))]]; cbn.
    1-3: destruct (is_dir w1 p) eqn:Hd; cbn; intros H; by simplify_eq.
    intros H. simplify_eq. unfold is_dir. apply bool_decide_eq_true. right.
    cbn. apply elem_of_union_l. by apply elem_of_singleton. }
  destruct n as [|n]; cbn [makedirs]; [apply Hleaf|].
  destruct (bool_decide (removelast p ≠ []) && negb (path_exists w (removelast p)));
    [|apply Hleaf].
  destruct (makedirs n true (removelast p) w) as [[]|w1]; try done; apply Hleaf.
Qed.

(** The guarded [os.makedirs] changes directories only, and leaves the model
    workspace a directory when it returns. *)
Lemma ensure_modelpth_returns (w w' : world) :
  ensure_modelpth w = (Ok tt, w') →
  ∃ o b p d, globals w !! "os" = Some o
             ∧ globals w !! "modelpth" = Some b ∧ as_path (value b) = Some p
             ∧ w' = set_dirs d w ∧ is_dir w' (norm p) = true.
Proof.
  unfold ensure_modelpth, unless, os_path_isdir, os_makedirs, name, gets,
    mbind, M_bind.
  destruct (globals w !! "os") as [o|] eqn:Ho; [|done].
  destruct (globals w !! "modelpth") as [b|] eqn:Hb; [|done].
  destruct (as_path (value b)) as [p|] eqn:Hp; [|done].
  destruct (is_dir w (norm p)) eqn:Hd.
  - intros H. injection H as <-. exists o, b, p, (dirs w).
    by rewrite set_dirs_id.
  - rewrite Ho, Hb, Hp. unfold fs_makedirs.
    destruct (makedirs (length (norm p)) true (norm p) w) as [e|w1] eqn:Hmk;
      [done|].
    intros H. simplify_eq.
    pose proof (makedirs_returns_dir _ _ _ _ Hmk) as Hdir.
    apply makedirs_frame in Hmk as (d & -> & _). by exists o, b, p, d.
Qed.

Lemma ensure_modelpth_again (w w' : world) :
  ensure_modelpth w = (Ok tt, w') → ensure_modelpth w' = (Ok tt, w').
Proof.
  intros Hrun. pose proof Hrun as Hrun'. revert Hrun'.
  destruct (ensure_modelpth_returns w w' Hrun)
    as (o & b & p & d & Ho & Hb & Hp & -> & Hd).
  intros _. unfold ensure_modelpth, unless, os_path_isdir, name, gets,
    mbind, M_bind.
  change (globals (set_dirs d w)) with (globals w).
  rewrite Ho. cbn beta iota.
  change (globals (set_dirs d w)) with (globals w).
  rewrite Hb. cbn beta iota. by rewrite Hp, Hd.
Qed.

Lemma zaidel_cell2_unfold (w : world) (o pl : binding) :
  globals w !! "os" = Some o → globals w !! "platform" = Some pl →
  zaidel.cell2 w =
    ensure_modelpth
      (set_globals
         (zaidel_setup_globals (bool_decide (system w = "Windows")) (globals w))
         w).
Proof.
  intros Ho Hpl. unfold zaidel.cell2, zaidel_setup_globals. run_known.
  destruct (bool_decide (system w = "Windows")); by run_known.
Qed.

Lemma zaidel_cell2_imports (w w' : world) :
  zaidel.cell2 w = (Ok tt, w') →
  ∃ o pl, globals w !! "os" = Some o ∧ globals w !! "platform" = Some pl.
Proof.
  destruct (globals w !! "platform") as [pl|] eqn:Hpl.
  - destruct (globals w !! "os") as [o|] eqn:Ho; [by eexists _, _|].
    unfold zaidel.cell2. run_known.
    destruct (bool_decide (system w = "Windows")); run_known;
      by rewrite Ho.
  - unfold zaidel.cell2. run_known. by rewrite Hpl.
Qed.

Lemma zaidel_setup_globals_again (win : bool) (g : gmap string binding) :
  zaidel_setup_globals win (zaidel_setup_globals win g)
  = zaidel_setup_globals win g.
Proof.
  apply map_eq. intros k. unfold zaidel_setup_globals.
  destruct win; rewrite !lookup_insert; by repeat case_decide.
Qed.

Lemma mt3d_cell2_names (w : world) (o pl : binding) :
  globals w !! "os" = Some o → globals w !! "platform" = Some pl →
  ∃ g, mt3d.cell2 w =
         (ensure_modelpth;;
          assign "mf"
            (call "flopy" "modflow.Modflow"
               [name "modelname"; name "mfexe"; name "modelpth"]))
           (set_globals g w)
       ∧ g !! "modelname" = Some (Binding (VStr "no3") false)
       ∧ g !! "mfexe" = Some (Binding (VStr (exe_on w "mfnwt")) false)
       ∧ g !! "mtexe" = Some (Binding (VStr (exe_on w "mt3dusgs")) false)
       ∧ g !! "modelpth" = Some (Binding (VPath ["."; "temp"; "no3"]) false)
       ∧ g !! "flopy" = globals w !! "flopy".
Proof.
  intros Ho Hpl. unfold mt3d.cell2, exe_on. run_known.
  destruct (bool_decide (system w = "Windows")); run_known.
  all: eexists; split; [reflexivity|]; by run_known.
Qed.

(** What follows the bindings in the first notebook's setup cell, from a
    state where they are known. *)
Lemma mt3d_cell2_tail (w w' : world) (n e p : binding) (r : outcome unit) :
  globals w !! "modelname" = Some n → globals w !! "mfexe" = Some e →
  globals w !! "modelpth" = Some p →
  (ensure_modelpth;;
   assign "mf"
     (call "flopy" "modflow.Modflow"
        [name "modelname"; name "mfexe"; name "modelpth"])) w = (r, w') →
  (∀ x, x ≠ "mf" → globals w' !! x = globals w !! x)
  ∧ (calls w' = calls w
     ∨ ∃ f, calls w' = calls w ++ [Entry "flopy.modflow.Modflow" [n; e; p] f]).
Proof.
  intros Hn He Hp. unfold mbind at 1, M_bind at 1.
  destruct (ensure_modelpth w) as [[[]|ex] w1] eqn:Hens.
  - apply ensure_modelpth_returns in Hens as (_ & _ & _ & d & _ & _ & _ & -> & _).
    assert (globals (set_dirs d w) = globals w) as Hg by done.
    assert (calls (set_dirs d w) = calls w) as Hc by done.
    revert Hg Hc. generalize (set_dirs d w). intros w2 Hg Hc.
    rewrite <- Hg in Hn, He, Hp. rewrite <- Hg, <- Hc. clear Hg Hc.
    unfold assign, call. run_known.
    destruct (globals w2 !! "flopy") as [fl|] eqn:Hfl; run_known.
    + unfold perform. cbn zeta.
      destruct (lib_raises _ _); cbn; intros H; simplify_eq; cbn.
      * split; [done|]. right. cbn. by eexists.
      * split; [|right; by eexists].
        intros x Hx. by rewrite lookup_insert_ne.
    + unfold throw. cbn. intros H. simplify_eq. cbn. split; [done|]. by left.
  - assert (globals w1 = globals w ∧ calls w1 = calls w) as [Hg Hc].
    { revert Hens. unfold ensure_modelpth, unless, os_path_isdir, os_makedirs,
        name, gets, mbind, M_bind, fs_makedirs, throw.
      destruct (globals w !! "os") as [o|] eqn:Ho; [|intros H; by simplify_eq].
      rewrite Hp. destruct (as_path (value p)) as [q|] eqn:Hq;
        [|intros H; by simplify_eq].
      destruct (is_dir w (norm q)); [done|]. rewrite Ho, Hp, Hq.
      destruct (makedirs _ _ _ _); intros H; by simplify_eq. }
    intros H. simplify_eq. rewrite Hg, Hc. split; [done|]. by left.
Qed.

Lemma ensure_modelpth_frame (w : world) :
  globals (ensure_modelpth w).2 = globals w
  ∧ calls (ensure_modelpth w).2 = calls w.
Proof.
  unfold ensure_modelpth, unless, os_path_isdir, os_makedirs,
    name, gets, mbind, M_bind, fs_makedirs, throw.
  destruct (globals w !! "os") as [o|] eqn:Ho; [|done].
  destruct (globals w !! "modelpth") as [b|] eqn:Hb; [|done].
  destruct (as_path (value b)) as [q|] eqn:Hq; [|done].
  destruct (is_dir w (norm q)); [done|]. rewrite Ho, Hb, Hq.
  destruct (makedirs _ _ _ _) as [e|w1] eqn:Hmk; [done|].
  by apply makedirs_frame in Hmk as (d & -> & _).
Qed.

(** X12.  The executables.  Where [os] and [platform] are imported, the setup
    cells bind the names of the executables with [.exe] appended on Windows
    and as they are elsewhere, and the only call the first notebook's cell
    can make is the constructor of the flow model, with the model name, that
    executable name and the model workspace. *)
Theorem exe_names_follow_platform (w : world) (o pl : binding) :
  globals w !! "os" = Some o → globals w !! "platform" = Some pl →
  globals (zaidel.cell2 w).2 !! "mfexe"
    = Some (Binding (VStr (exe_on w "mfusg")) false)
  ∧ globals (mt3d.cell2 w).2 !! "mfexe"
    = Some (Binding (VStr (exe_on w "mfnwt")) false)
  ∧ globals (mt3d.cell2 w).2 !! "mtexe"
    = Some (Binding (VStr (exe_on w "mt3dusgs")) false)
  ∧ ∀ e, e ∈ calls_since w (mt3d.cell2 w).2 →
      callee e = "flopy.modflow.Modflow"
      ∧ args e = [Binding (VStr "no3") false;
                  Binding (VStr (exe_on w "mfnwt")) false;
                  Binding (VPath ["."; "temp"; "no3"]) false].
Proof.
  intros Ho Hpl. split.
  - rewrite (zaidel_cell2_unfold w o pl Ho Hpl).
    destruct (ensure_modelpth_frame
                (set_globals
                   (zaidel_setup_globals (bool_decide (system w = "Windows"))
                      (globals w)) w)) as [-> _].
    cbn [globals set_globals]. unfold zaidel_setup_globals, exe_on.
    rewrite lookup_insert_ne by done. rewrite lookup_insert_ne by done.
    rewrite lookup_insert_eq. by destruct (bool_decide _).
  - destruct (mt3d_cell2_names w o pl Ho Hpl)
      as (g & Hrun & Hn & He & Ht & Hp & _).
    destruct (mt3d.cell2 w) as [r w'] eqn:Hcell. symmetry in Hrun.
    destruct (mt3d_cell2_tail (set_globals g w) w' _ _ _ r Hn He Hp Hrun)
      as [Hg Hc].
    cbn [snd]. rewrite !Hg by done. cbn [globals set_globals] in *.
    split; [done|]. split; [done|].
    intros e. unfold calls_since. destruct Hc as [->| [f ->]]; cbn [calls set_globals].
    + rewrite drop_all. by intros ?%elem_of_nil.
    + rewrite drop_app_length. by intros ->%list_elem_of_singleton.
Qed.

Lemma exe_names_follow_platform_witness :
  globals (zaidel.cell1 plain_world).2 !! "os"
    = Some (Binding (VObj "os") false)
  ∧ globals (zaidel.cell1 plain_world).2 !! "platform"
    = Some (Binding (VObj "platform") false)
  ∧ globals (zaidel.cell2 (zaidel.cell1 plain_world).2).2 !! "mfexe"
    = Some (Binding (VStr "mfusg") false).
Proof.
  assert (globals (zaidel.cell1 plain_world).2 !! "os"
          = Some (Binding (VObj "os") false)) as Ho by (by vm_compute).
  assert (globals (zaidel.cell1 plain_world).2 !! "platform"
          = Some (Binding (VObj "platform") false)) as Hpl by (by vm_compute).
  split; [exact Ho|]. split; [exact Hpl|].
  exact (proj1 (exe_names_follow_platform _ _ _ Ho Hpl)).
Defined.

(** X13.  Running the setup cell again.  When the setup cell of the MODFLOW-USG
    notebook has returned, running it once more returns and changes
    nothing: not a binding, not a directory. *)
Theorem setup_cell_again (w w1 : world) :
  zaidel.cell2 w = (Ok tt, w1) → zaidel.cell2 w1 = (Ok tt, w1).
Proof.
  intros Hrun. destruct (zaidel_cell2_imports w w1 Hrun) as (o & pl & Ho & Hpl).
  rewrite (zaidel_cell2_unfold w o pl Ho Hpl) in Hrun.
  pose proof (ensure_modelpth_again _ _ Hrun) as Hagain.
  pose proof (ensure_modelpth_frame
                (set_globals
                   (zaidel_setup_globals (bool_decide (system w = "Windows"))
                      (globals w)) w)) as [Hg _].
  rewrite Hrun in Hg. cbn [snd globals set_globals] in Hg.
  assert (system w1 = system w) as Hsys.
  { apply ensure_modelpth_returns in Hrun as (_ & _ & _ & d & _ & _ & _ & -> & _).
    done. }
  assert (∃ o' pl', globals w1 !! "os" = Some o'
                    ∧ globals w1 !! "platform" = Some pl') as (o' & pl' & Ho' & Hpl').
  { exists o, pl. rewrite Hg. unfold zaidel_setup_globals.
    destruct (bool_decide _); by rewrite !lookup_insert_ne by done. }
  rewrite (zaidel_cell2_unfold w1 o' pl' Ho' Hpl'), Hsys, Hg.
  rewrite zaidel_setup_globals_again, <- Hg, set_globals_id. exact Hagain.
Qed.

Lemma setup_cell_again_witness :
  zaidel.cell2 (zaidel.cell1 plain_world).2
    = (Ok tt, (zaidel.cell2 (zaidel.cell1 plain_world).2).2)
  ∧ zaidel.cell2 (zaidel.cell2 (zaidel.cell1 plain_world).2).2
    = (Ok tt, (zaidel.cell2 (zaidel.cell1 plain_world).2).2).
Proof.
  assert (zaidel.cell2 (zaidel.cell1 plain_world).2
          = (Ok tt, (zaidel.cell2 (zaidel.cell1 plain_world).2).2)) as Hrun.
  { assert ((zaidel.cell2 (zaidel.cell1 plain_world).2).1 = Ok tt) as H1
      by (by vm_compute).
    destruct (zaidel.cell2 (zaidel.cell1 plain_world).2) as [r w']. cbn in *.
    by subst. }
  split; [exact Hrun|]. exact (setup_cell_again _ _ Hrun).
Defined.

(** ** The import of the modeling library *)

(** X14.  The import fallback.  The statement returns only with [flopy]
    imported, the import being the last call made; when it raises, the first
    import had failed and was caught, and [flopy] is bound as before. *)
Theorem import_flopy_outcomes (w : world) :
  match import_flopy w with
  | (Ok _, w') =>
      globals w' !! "flopy" = Some (Binding (VObj "flopy") false)
      ∧ last (calls w') = Some (Entry "import flopy" [] false)
  | (Raise e, w') =>
      caught w' = caught w ++ [("import flopy", LibraryError "import flopy")]
      ∧ globals w' !! "flopy" = globals w !! "flopy"
  end.
Proof.
  unfold import_flopy, try_except, import_, perform, mbind, M_bind. cbn zeta.
  destruct (lib_raises w (length (calls w))) eqn:Hfirst; cbn.
  2: { rewrite lookup_insert_eq, last_snoc. done. }
  unfold assign, call, do_, method, os_path_join, name, store, lit, perform,
    mbind, M_bind, mret, M_ret, throw.
  cbn [globals calls raised caught set_globals set_calls set_raised set_caught
       lib_raises eval_args mapM].
  repeat first
    [ progress cbn [globals calls raised caught set_globals set_calls
                    set_raised set_caught lib_raises eval_args mapM value
                    as_path concat app existsb loop_built mbind option_bind
                    mret option_ret fst snd]
    | progress unfold mbind, M_bind, mret, M_ret
    | rewrite lookup_insert_eq
    | rewrite lookup_insert_ne by done
    | match goal with
      | |- context [globals w !! ?x] =>
          let H := fresh in destruct (globals w !! x) eqn:H
      | |- context [lib_raises w ?n] =>
          let H := fresh in destruct (lib_raises w n) eqn:H
      end
    | rewrite last_snoc
    | done ].
Qed.

(** ** The cleanup before the run *)




(** ** Every run of the notebooks *)

(** X17.  Names of the first notebook.  In no run of the MT3D-USGS notebook,
    whatever the kernel holds and whichever calls fail, is a name read
    before it is bound: no [NameError] is raised. *)
Theorem mt3d_reads_no_unbound_name (w : world) :
  Forall (λ e, ∀ x, e ≠ NameError x) (raised_since w (mt3d.notebook w).2).
Proof.
  destruct mt3d_scoped as [D HD].
  eapply Forall_impl; [apply (scoped_run [] D _ w HD)|].
  intros e He x ->. cbn in He. by apply bool_decide_eq_true, elem_of_nil in He.
Qed.

(** X18.  Names of the second notebook.  In every run of the MODFLOW-USG
    notebook the only name that can be read unbound is [model_ws]. *)
Theorem zaidel_unbound_name_is_model_ws (w : world) :
  Forall (λ e, ∀ x, e = NameError x → x = "model_ws")
    (raised_since w (zaidel.notebook w).2).
Proof.
  destruct zaidel_scoped as [D HD].
  eapply Forall_impl; [apply (scoped_run ["model_ws"] D _ w HD)|].
  intros e He x ->. cbn in He.
  by apply bool_decide_eq_true, list_elem_of_singleton in He.
Qed.

(** X19.  Order of the calls, first notebook.  In every run of the MT3D-USGS
    notebook the calls into the modeling library are made in the order of
    [mt3d_library_calls]: a run that raises has made the first few of them,
    a run that returns all of them.  So the input files are written only
    after every package has been constructed, [ModflowUpw] only after
    [ModflowDis], and the transport model only after [ModflowLmt]. *)
Theorem mt3d_library_calls_in_order (w : world) :
  List.filter library_call (callee <$> calls_since w (mt3d.notebook w).2)
    `prefix_of` mt3d_library_calls
  ∧ ((mt3d.notebook w).1 = Ok tt →
     List.filter library_call (callee <$> calls_since w (mt3d.notebook w).2)
     = mt3d_library_calls).
Proof.
  destruct (traces_run _ _ _ w mt3d_traces) as [Hp Hall].
  split; [done|]. apply Hall.
Qed.

(** X20.  Order of the calls, second notebook.  In every run of the MODFLOW-USG
    notebook the calls into the modeling library are made in the order of
    [zaidel_library_calls]: the solver is started only after
    [mf.write_input()] was called, and the head file is opened only after
    [mf.run_model()] was called.  A run that returns has made all of
    them. *)
Theorem zaidel_library_calls_in_order (w : world) :
  List.filter library_call (callee <$> calls_since w (zaidel.notebook w).2)
    `prefix_of` zaidel_library_calls
  ∧ ((zaidel.notebook w).1 = Ok tt →
     List.filter library_call (callee <$> calls_since w (zaidel.notebook w).2)
     = zaidel_library_calls).
Proof.
  destruct (traces_run _ _ _ w zaidel_traces) as [Hp Hall].
  split; [done|]. apply Hall.
Qed.

Lemma mt3d_library_calls_in_order_witness :
  (mt3d.notebook plain_world).1 = Ok tt
  ∧ List.filter library_call
      (callee <$> calls_since plain_world (mt3d.notebook plain_world).2)
    = mt3d_library_calls.
Proof.
  assert ((mt3d.notebook plain_world).1 = Ok tt) as Hrun.
  { vm_compute. reflexivity. }
  split; [exact Hrun|].
  exact (proj2 (mt3d_library_calls_in_order plain_world) Hrun).
Defined.

Lemma zaidel_library_calls_in_order_witness :
  (zaidel.notebook plain_world).1 = Ok tt
  ∧ List.filter library_call
      (callee <$> calls_since plain_world (zaidel.notebook plain_world).2)
    = zaidel_library_calls.
Proof.
  assert ((zaidel.notebook plain_world).1 = Ok tt) as Hrun.
  { vm_compute. reflexivity. }
  split; [exact Hrun|].
  exact (proj2 (zaidel_library_calls_in_order plain_world) Hrun).
Defined.

(** ** The drains *)

Lemma nonzero_cells_elem (a : ndarray2) (p : Z * Z) :
  p ∈ nonzero_cells a
  ↔ mt3d.in_bounds a p.1 p.2 ∧ cell_eqb a p.1 p.2 0 = false.
Proof.
  unfold nonzero_cells, mt3d.in_bounds. rewrite list_elem_of_bind. split.
  - intros (i & Hin & Hi%elem_of_seqZ).
    apply list_elem_of_bind in Hin as (j & Hin & Hj%elem_of_seqZ).
    destruct (cell_eqb a i j 0) eqn:Hc; [by apply elem_of_nil in Hin|].
    apply list_elem_of_singleton in Hin as ->. simpl. split; [lia|done].
  - destruct p as [i j]. simpl. intros [[Hi Hj] Hc]. exists i.
    split; [|apply elem_of_seqZ; lia].
    apply list_elem_of_bind. exists j. split; [|apply elem_of_seqZ; lia].
    rewrite Hc. by apply list_elem_of_singleton.
Qed.

Lemma nonzero_cells_NoDup (a : ndarray2) : NoDup (nonzero_cells a).
Proof.
  unfold nonzero_cells. apply NoDup_bind; [| |apply NoDup_seqZ].
  - intros i1 i2 p _ _ H1 H2.
    apply list_elem_of_bind in H1 as (j1 & H1 & _).
    apply list_elem_of_bind in H2 as (j2 & H2 & _).
    destruct (cell_eqb a i1 j1 0); [by apply elem_of_nil in H1|].
    destruct (cell_eqb a i2 j2 0); [by apply elem_of_nil in H2|].
    apply list_elem_of_singleton in H1, H2. congruence.
  - intros i _. apply NoDup_bind; [| |apply NoDup_seqZ].
    + intros j1 j2 p _ _ H1 H2.
      destruct (cell_eqb a i j1 0); [by apply elem_of_nil in H1|].
      destruct (cell_eqb a i j2 0); [by apply elem_of_nil in H2|].
      apply list_elem_of_singleton in H1, H2. congruence.
    + intros j _. destruct (cell_eqb a i j 0); [apply NoDup_nil_2|].
      apply NoDup_singleton.
Qed.

Lemma mapM_res_total {A B : Type} (f : A → res B) (g : A → B) (l : list A) :
  (∀ x, x ∈ l → f x = inr (g x)) → mapM f l = inr (g <$> l).
Proof.
  induction l as [|x l IH]; intros Hf; [done|].
  cbn. rewrite (Hf x) by apply list_elem_of_here. cbn.
  rewrite IH; [done|]. intros y Hy. apply Hf. by apply list_elem_of_further.
Qed.

Lemma np_take2_nonzero (a : ndarray2) (nr nc : nat) :
  has_shape nr nc a →
  np_take2 a (np_nonzero a) = inr (entry_of a <$> nonzero_cells a).
Proof.
  intros Ha. unfold np_take2, np_nonzero. cbn [fst snd]. rewrite zip_fst_snd.
  apply mapM_res_total. intros [i j] [Hb _]%nonzero_cells_elem.
  apply (in_bounds_in_range nr nc) in Hb; [|done].
  destruct (cell_eqb_in_range nr nc a i j 0 Ha Hb) as (x & Hx & _).
  unfold entry_of. cbn [fst snd] in *. by rewrite Hx.
Qed.

Lemma stress_period_data_rows (drnElv drnCond : ndarray2)
    (nr nc nr' nc' : nat) :
  has_shape nr nc drnElv → has_shape nr' nc' drnCond →
  mt3d_drn.stress_period_data drnElv drnCond
  = if bool_decide (length (nonzero_cells drnElv)
                    = length (nonzero_cells drnCond))
    then inr (zip_with (λ p q, drn_row p (entry_of drnElv p)
                                 (entry_of drnCond q))
                (nonzero_cells drnElv) (nonzero_cells drnCond))
    else inl ValueError.
Proof.
  intros HE HC. unfold mt3d_drn.stress_period_data.
  rewrite (np_take2_nonzero _ _ _ HE), (np_take2_nonzero _ _ _ HC).
  cbn [mbind res_bind]. unfold np_nonzero. cbn [fst snd].
  set (lE := nonzero_cells drnElv). set (lC := nonzero_cells drnCond).
  unfold pd_DataFrame_values. cbn [omap list_omap column_length].
  rewrite !length_fmap. cbn [forallb]. rewrite !Nat.eqb_refl. cbn [andb].
  rewrite andb_true_r.
  destruct (Nat.eqb_spec (length lE) (length lC)) as [Heq|Hne].
  - rewrite bool_decide_eq_true_2 by done. f_equal.
    apply list_eq. intros k. rewrite list_lookup_fmap, lookup_zip_with.
    destruct (decide (k < length lE)%nat) as [Hk|Hk].
    + rewrite lookup_seq_lt by done. cbn [fmap option_fmap option_map].
      destruct (lookup_lt_is_Some_2 lE k Hk) as [p Hp].
      destruct (lookup_lt_is_Some_2 lC k ltac:(lia)) as [q Hq].
      rewrite Hp, Hq. cbn. unfold drn_row.
      rewrite !list_lookup_fmap, Hp, Hq. done.
    + rewrite lookup_seq_ge by lia.
      rewrite (lookup_ge_None_2 lE) by lia. done.
  - by rewrite bool_decide_eq_false_2.
Qed.

Lemma drn_rows_at (drnElv drnCond : ndarray2) (nr nc nr' nc' : nat) :
  has_shape nr nc drnElv → has_shape nr' nc' drnCond →
  length (nonzero_cells drnElv) = length (nonzero_cells drnCond) →
  ∃ rows,
    mt3d_drn.stress_period_data drnElv drnCond = inr rows
    ∧ ∀ k p q, nonzero_cells drnElv !! k = Some p →
               nonzero_cells drnCond !! k = Some q →
        ∃ e c, getitem2 drnElv p.1 p.2 = Some e
               ∧ getitem2 drnCond q.1 q.2 = Some c
               ∧ rows !! k = Some [1%Q; inject_Z (p.1 + 1);
                                   inject_Z (p.2 + 1); e; c].
Proof.
  intros HE HC Hlen. rewrite (stress_period_data_rows _ _ _ _ _ _ HE HC).
  rewrite bool_decide_eq_true_2 by done. eexists. split; [done|].
  intros k [i j] [i' j'] Hp Hq.
  assert (mt3d.in_bounds drnElv i j) as Hb.
  { by eapply (nonzero_cells_elem drnElv (i, j)), list_elem_of_lookup_2. }
  assert (mt3d.in_bounds drnCond i' j') as Hb'.
  { by eapply (nonzero_cells_elem drnCond (i', j')), list_elem_of_lookup_2. }
  apply (in_bounds_in_range nr nc) in Hb; [|done].
  apply (in_bounds_in_range nr' nc') in Hb'; [|done].
  destruct (cell_eqb_in_range _ _ _ _ _ 0 HE Hb) as (e & He & _).
  destruct (cell_eqb_in_range _ _ _ _ _ 0 HC Hb') as (c & Hc & _).
  exists e, c. cbn [fst snd]. split; [done|]. split; [done|].
  rewrite lookup_zip_with, Hp, Hq. cbn. unfold drn_row, entry_of.
  cbn [fst snd]. by rewrite He, Hc.
Qed.

(** X21.  The drains, row by row.  For two arrays with as many entries that are
    not 0, the cell builds one row per such entry: row [k] holds layer 1,
    the row and the column, counted from 1, of the [k]-th cell of [drnElv]
    that is not 0, the elevation of that cell, and the conductance of the
    [k]-th cell of [drnCond] that is not 0.  With different numbers of such
    entries [pd.DataFrame] raises [ValueError]; no index is out of range. *)
Theorem drn_rows_by_position (drnElv drnCond : ndarray2)
    (nr nc nr' nc' : nat) :
  has_shape nr nc drnElv → has_shape nr' nc' drnCond →
  if bool_decide (length (nonzero_cells drnElv)
                  = length (nonzero_cells drnCond))
  then ∃ rows,
      mt3d_drn.stress_period_data drnElv drnCond = inr rows
      ∧ length rows = length (nonzero_cells drnElv)
      ∧ ∀ k p q, nonzero_cells drnElv !! k = Some p →
                 nonzero_cells drnCond !! k = Some q →
          ∃ e c, getitem2 drnElv p.1 p.2 = Some e
                 ∧ getitem2 drnCond q.1 q.2 = Some c
                 ∧ rows !! k = Some [1%Q; inject_Z (p.1 + 1);
                                     inject_Z (p.2 + 1); e; c]
  else mt3d_drn.stress_period_data drnElv drnCond = inl ValueError.
Proof.
  intros HE HC. case_bool_decide as Hlen.
  - destruct (drn_rows_at _ _ _ _ _ _ HE HC Hlen) as (rows & Hrun & Hrows).
    exists rows. split; [done|]. split; [|done].
    rewrite (stress_period_data_rows _ _ _ _ _ _ HE HC) in Hrun.
    rewrite bool_decide_eq_true_2 in Hrun by done.
    injection Hrun as <-. by rewrite length_zip_with_l_eq.
  - rewrite (stress_period_data_rows _ _ _ _ _ _ HE HC).
    by rewrite bool_decide_eq_false_2.
Qed.

Lemma drn_rows_by_position_witness :
  has_shape 2 2 [[0; 7]; [9; 0]]%Q ∧ has_shape 2 2 [[0; 3]; [4; 0]]%Q
  ∧ ∃ rows,
      mt3d_drn.stress_period_data [[0; 7]; [9; 0]]%Q [[0; 3]; [4; 0]]%Q
      = inr rows
      ∧ rows !! 1%nat = Some [1; 2; 1; 9; 4]%Q.
Proof.
  assert (has_shape 2 2 [[0; 7]; [9; 0]]%Q) as HE.
  { split; [reflexivity|].
    repeat first [apply Forall_nil_2 | apply Forall_cons_2 | reflexivity]. }
  assert (has_shape 2 2 [[0; 3]; [4; 0]]%Q) as HC.
  { split; [reflexivity|].
    repeat first [apply Forall_nil_2 | apply Forall_cons_2 | reflexivity]. }
  split; [exact HE|]. split; [exact HC|].
  pose proof (drn_rows_by_position _ _ 2 2 2 2 HE HC) as H.
  rewrite bool_decide_eq_true_2 in H by reflexivity.
  destruct H as (rows & Hrun & _ & Hrows). exists rows. split; [exact Hrun|].
  destruct (Hrows 1%nat (1, 0) (1, 0) eq_refl eq_refl)
    as (e & c & He & Hc & Hrow).
  injection He as <-. injection Hc as <-. exact Hrow.
Defined.

Lemma nonzero_cells_same (a b : ndarray2) (nr nc : nat) :
  has_shape nr nc a → has_shape nr nc b →
  (∀ i j, in_range nr nc i j → cell_eqb a i j 0 = cell_eqb b i j 0) →
  nonzero_cells a = nonzero_cells b.
Proof.
  intros Ha Hb Hsame. unfold nonzero_cells.
  assert (shape0 a = shape0 b) as H0.
  { unfold shape0. by rewrite (proj1 Ha), (proj1 Hb). }
  assert (0 < shape0 a → shape1 a = shape1 b) as H1.
  { destruct Ha as [Hla Hra], Hb as [Hlb Hrb]. unfold shape0, shape1.
    destruct a as [|ra a], b as [|rb b]; simpl in *; try lia.
    intros _. by rewrite (Forall_inv Hra), (Forall_inv Hrb). }
  rewrite <- H0. apply Forall_bind_ext, Forall_forall.
  intros i Hi%elem_of_seqZ. rewrite <- H1 by lia.
  apply Forall_bind_ext, Forall_forall. intros j Hj%elem_of_seqZ.
  rewrite Hsame; [done|].
  apply (in_bounds_in_range nr nc a); [done|]. split; lia.
Qed.

(** X22.  One row per drain.  Where the two arrays have one shape and are not 0
    in the same cells, the cell builds exactly one row for every cell with
    an elevation that is not 0: layer 1, the row and the column counted from
    1, and the elevation and the conductance of that very cell. *)
Theorem drn_one_row_per_drain (drnElv drnCond : ndarray2) (nr nc : nat) :
  has_shape nr nc drnElv → has_shape nr nc drnCond →
  (∀ i j, in_range nr nc i j →
          cell_eqb drnElv i j 0 = cell_eqb drnCond i j 0) →
  ∃ rows,
    mt3d_drn.stress_period_data drnElv drnCond = inr rows
    ∧ NoDup rows
    ∧ ∀ row, row ∈ rows
        ↔ ∃ i j e c,
            in_range nr nc i j
            ∧ getitem2 drnElv i j = Some e ∧ Qeq_bool e 0 = false
            ∧ getitem2 drnCond i j = Some c
            ∧ row = [1%Q; inject_Z (i + 1); inject_Z (j + 1); e; c].
Proof.
  intros HE HC Hsame. rewrite (stress_period_data_rows _ _ _ _ _ _ HE HC).
  rewrite <- (nonzero_cells_same _ _ _ _ HE HC Hsame).
  rewrite bool_decide_eq_true_2 by done. rewrite zip_with_diag.
  eexists. split; [done|]. split.
  - apply NoDup_fmap_2_strong; [|apply nonzero_cells_NoDup].
    intros [i j] [i' j'] _ _ Heq. unfold drn_row in Heq. cbn [fst snd] in Heq.
    injection Heq as Hi Hj _. f_equal; lia.
  - intros row. rewrite list_elem_of_fmap. split.
    + intros ([i j] & -> & [Hb Hnz]%nonzero_cells_elem). cbn [fst snd] in *.
      apply (in_bounds_in_range nr nc) in Hb; [|done].
      destruct (cell_eqb_in_range _ _ _ _ _ 0 HE Hb) as (e & He & Hee).
      destruct (cell_eqb_in_range _ _ _ _ _ 0 HC Hb) as (c & Hc & _).
      exists i, j, e, c. split; [done|]. split; [done|].
      split; [by rewrite <- Hee|]. split; [done|].
      unfold drn_row, entry_of. cbn [fst snd]. by rewrite He, Hc.
    + intros (i & j & e & c & Hb & He & Hnz & Hc & ->). exists (i, j). split.
      * unfold drn_row, entry_of. cbn [fst snd]. by rewrite He, Hc.
      * apply nonzero_cells_elem. cbn [fst snd]. split.
        -- by apply (in_bounds_in_range nr nc).
        -- unfold cell_eqb. by rewrite He.
Qed.

Lemma drn_one_row_per_drain_witness :
  has_shape 2 2 [[0; 7]; [9; 0]]%Q ∧ has_shape 2 2 [[0; 3]; [4; 0]]%Q
  ∧ (∀ i j, in_range 2 2 i j →
            cell_eqb [[0; 7]; [9; 0]]%Q i j 0
            = cell_eqb [[0; 3]; [4; 0]]%Q i j 0)
  ∧ ∃ rows,
      mt3d_drn.stress_period_data [[0; 7]; [9; 0]]%Q [[0; 3]; [4; 0]]%Q
      = inr rows
      ∧ [1; 1; 2; 7; 3]%Q ∈ rows.
Proof.
  assert (has_shape 2 2 [[0; 7]; [9; 0]]%Q) as HE.
  { split; [reflexivity|].
    repeat first [apply Forall_nil_2 | apply Forall_cons_2 | reflexivity]. }
  assert (has_shape 2 2 [[0; 3]; [4; 0]]%Q) as HC.
  { split; [reflexivity|].
    repeat first [apply Forall_nil_2 | apply Forall_cons_2 | reflexivity]. }
  assert (∀ i j, in_range 2 2 i j →
            cell_eqb [[0; 7]; [9; 0]]%Q i j 0
            = cell_eqb [[0; 3]; [4; 0]]%Q i j 0) as Hsame.
  { intros i j [Hi Hj].
    assert (i = 0 ∨ i = 1) as [-> | ->] by lia;
      (assert (j = 0 ∨ j = 1) as [-> | ->] by lia); reflexivity. }
  split; [exact HE|]. split; [exact HC|]. split; [exact Hsame|].
  destruct (drn_one_row_per_drain _ _ 2 2 HE HC Hsame)
    as (rows & Hrun & _ & Hrows).
  exists rows. split; [exact Hrun|]. apply Hrows.
  exists 0, 1, 7%Q, 3%Q. repeat split; reflexivity || lia.
Defined.




(** ** The values handed to the library *)

Lemma drop_name_notin (x : string) (P : list (string * binding)) (y : string)
    (b : binding) :
  (y, b) ∈ drop_name x P → y ≠ x ∧ (y, b) ∈ P.
Proof.
  unfold drop_name. intros [Hy Hne]%list_elem_of_In%filter_In. split.
  - cbn in Hne. intros ->. by rewrite String.eqb_refl in Hne.
  - by apply list_elem_of_In.
Qed.

Lemma elem_of_ancestors (q p : list string) :
  q ∈ ancestors p ↔ q ≠ [] ∧ q `prefix_of` p.
Proof.
  unfold ancestors. rewrite list_elem_of_fmap. split.
  - intros (k & -> & Hk%elem_of_seq). split; [|apply prefix_take].
    intros Hnil. apply (f_equal length) in Hnil.
    rewrite length_take in Hnil. cbn in Hnil. lia.
  - intros [Hne [r ->]]. exists (length q). split; [by rewrite take_app_length|].
    apply elem_of_seq. rewrite length_app.
    destruct q; [done|]. cbn. lia.
Qed.

Lemma mkdir_within (p : list string) (w w' : world) :
  mkdir p w = inr w' → dirs w' = {[p]} ∪ dirs w ∧ p ≠ [].
Proof.
  intros Hmk. split; [by apply mkdir_inr in Hmk as ->|].
  intros ->. unfold mkdir, path_exists, is_dir in Hmk.
  by rewrite bool_decide_eq_true_2 in Hmk by by left.
Qed.

(** [os.makedirs(p)] makes [p] and paths above it, at most. *)
Lemma makedirs_within (n : nat) (ok : bool) (p : list string) (w w' : world) :
  makedirs n ok p w = inr w' →
  ∀ q, q ∈ dirs w' → q ∈ dirs w ∨ q ∈ ancestors p.
Proof.
  assert (∀ w1 w2 : world,
            (∀ q, q ∈ dirs w1 → q ∈ dirs w ∨ q ∈ ancestors p) →
            match mkdir p w1 with
            | inl e => if negb ok || negb (is_dir w1 p) then inl e else inr w1
            | inr w2 => inr w2
            end = inr w2 →
            ∀ q, q ∈ dirs w2 → q ∈ dirs w ∨ q ∈ ancestors p) as Hleaf.
  { intros w1 w2 H1 Hmk q Hq.
    destruct (mkdir p w1) as [e|w3] eqn:Hp.
    - destruct (negb ok || negb (is_dir w1 p)); [done|].
      injection Hmk as <-. by apply H1.
    - injection Hmk as <-. apply mkdir_within in Hp as [Hd Hne].
      rewrite Hd in Hq. apply elem_of_union in Hq as [->%elem_of_singleton|Hq].
      + right. by apply elem_of_ancestors.
      + by apply H1. }
  revert p w w' Hleaf. induction n as [|n IH]; intros p w w' Hleaf Hmk;
    cbn [makedirs] in Hmk.
  - apply (Hleaf w w'); [by left|done].
  - destruct (bool_decide (removelast p ≠ []) &&
              negb (path_exists w (removelast p))).
    + destruct (makedirs n ok (removelast p) w) as [e1|w1] eqn:H1.
      * destruct e1; try done. apply (Hleaf w w'); [by left|done].
      * apply (Hleaf w1 w'); [|done]. intros q Hq.
        assert (∀ q0, q0 ∈ dirs w1 →
                      q0 ∈ dirs w ∨ q0 ∈ ancestors (removelast p)) as Hup.
        { apply (IH (removelast p) w w1); [|done].
          intros w2 w3 H2 Hmk2 q0 Hq0.
          destruct (mkdir (removelast p) w2) as [e|w4] eqn:Hp.
          - destruct (negb ok || negb (is_dir w2 (removelast p))); [done|].
            injection Hmk2 as <-. by apply H2.
          - injection Hmk2 as <-. apply mkdir_within in Hp as [Hd Hne].
            rewrite Hd in Hq0.
            apply elem_of_union in Hq0 as [->%elem_of_singleton|Hq0].
            + right. by apply elem_of_ancestors.
            + by apply H2. }
        destruct (Hup q Hq) as [?|[Hne Hpre]%elem_of_ancestors]; [by left|].
        right. apply elem_of_ancestors. split; [done|].
        etrans; [done|apply removelast_prefix].
    + apply (Hleaf w w'); [by left|done].
Qed.

Section pinned.

Context (good : entry → Prop) (win : bool).
Context (D : list (list string)) (R : bool).

Lemma pin_inv_raise P c0 d0 f0 e w :
  pin_inv good win D R P c0 d0 f0 w →
  pin_inv good win D R P c0 d0 f0 (set_raised (raised w ++ [e]) w).
Proof. done. Qed.

Lemma pin_inv_sub P P' c0 d0 f0 w :
  P' ⊆ P → pin_inv good win D R P c0 d0 f0 w →
  pin_inv good win D R P' c0 d0 f0 w.
Proof.
  intros Hsub (Hs & HP & Hlog). split; [done|]. split; [|done].
  intros x b Hx. apply HP. by apply Hsub.
Qed.

Lemma pinned_ret {A} P E (a : A) : pinned good win D R P P E (mret a).
Proof. intros c0 d0 f0. by apply hoare_ret. Qed.

Lemma pinned_ret_sub {A} P P' E (a : A) :
  P' ⊆ P → pinned good win D R P P' E (mret a).
Proof.
  intros Hsub c0 d0 f0. apply hoare_ret. intros w. by apply pin_inv_sub.
Qed.

Lemma pinned_bind {A B} P P1 P2 E (m : M A) (f : A → M B) :
  pinned good win D R P P1 E m → (∀ a, pinned good win D R P1 P2 E (f a)) →
  pinned good win D R P P2 E (m ≫= f).
Proof.
  intros Hm Hf c0 d0 f0. eapply hoare_bind; [apply Hm|]. intros a. apply Hf.
Qed.

Lemma pinned_bind_expr {A B} P P2 E (m : M A) (φ : A → Prop)
    (f : A → M B) :
  yields good win D R P E m φ →
  (∀ a, φ a → pinned good win D R P P2 E (f a)) →
  pinned good win D R P P2 E (m ≫= f).
Proof.
  intros Hm Hf c0 d0 f0. eapply hoare_bind; [apply Hm|]. intros a w [Ha Hw].
  by apply Hf.
Qed.

Lemma pinned_throw {A} P P' E (e : exn) :
  E ⊆ P → pinned good win D R P P' E (@throw A e).
Proof.
  intros Hsub c0 d0 f0 w Hw. apply pin_inv_raise. by eapply pin_inv_sub.
Qed.

(** The handler starts from what the statement guarded by [try] started
    from. *)
Lemma pinned_try {A} P P1 P2 E label (body handler : M A) :
  pinned good win D R P P1 P body → pinned good win D R P P2 E handler →
  P1 ⊆ P2 →
  pinned good win D R P P1 E (try_except label body handler).
Proof.
  intros Hb Hh Hsub c0 d0 f0. eapply hoare_try; [apply Hb|].
  intros e. eapply hoare_conseq; [apply (Hh c0 d0 f0)| | |done].
  - by intros w (w0 & Hw0 & ->).
  - intros a w. by apply pin_inv_sub.
Qed.

Lemma pinned_store P Q E (x : string) (b : binding) :
  drop_name x P = Q → pinned good win D R P ((x, b) :: Q) E (store x b).
Proof.
  intros <- c0 d0 f0 w (Hs & HP & Hlog). split; [done|]. split; [|done].
  intros y c Hy. cbn. apply elem_of_cons in Hy as [[= -> ->]|Hy].
  - by rewrite lookup_insert_eq.
  - apply drop_name_notin in Hy as [Hne Hy].
    rewrite lookup_insert_ne by done. by apply HP.
Qed.

Lemma pinned_store_any P Q E (x : string) (b : binding) :
  drop_name x P = Q → pinned good win D R P Q E (store x b).
Proof.
  intros HQ c0 d0 f0.
  eapply hoare_conseq; [by apply (pinned_store P Q E x b)|done| |done].
  intros a w. apply pin_inv_sub. intros y Hy. by apply list_elem_of_further.
Qed.

Lemma pinned_fs_makedirs P E (ok : bool) (p : list string) :
  ancestors p ⊆ D → E ⊆ P → pinned good win D R P P E (fs_makedirs ok p).
Proof.
  intros HD Hsub c0 d0 f0 w Hw. unfold fs_makedirs.
  destruct (makedirs (length p) ok p w) as [e|w'] eqn:Hmk.
  - apply pin_inv_raise. by eapply pin_inv_sub.
  - pose proof (makedirs_within _ _ _ _ _ Hmk) as Hin.
    apply makedirs_frame in Hmk as (d & -> & _).
    destruct Hw as (Hs & HP & Hlog & Hd & Hf).
    split; [done|]. split; [done|]. split; [done|]. split; [|done].
    cbn in *. intros q Hq. destruct (Hin q Hq) as [Hq'|Hq'].
    + by apply Hd.
    + apply elem_of_union_r, elem_of_list_to_set. by apply HD.
Qed.

Lemma pinned_fs_remove P E (p : list string) :
  R = true → E ⊆ P → pinned good win D R P P E (fs_remove p).
Proof.
  intros HR Hsub c0 d0 f0 w Hw. unfold fs_remove.
  destruct (is_file w p).
  - destruct Hw as (Hs & HP & Hlog & Hd & Hf).
    split; [done|]. split; [done|]. split; [done|]. split; [done|].
    rewrite HR in *. cbn. intros q [Hq _]%elem_of_difference. by apply Hf.
  - destruct (is_dir w p); apply pin_inv_raise; by eapply pin_inv_sub.
Qed.

Lemma yields_ret {A} P E (a : A) : yields good win D R P E (mret a) (eq a).
Proof. intros c0 d0 f0. by apply hoare_ret. Qed.

Lemma yields_ret_head {A} P E (a : A) (l : list A) :
  yields good win D R P E (mret (a :: l)) (λ r, head r = Some a).
Proof. intros c0 d0 f0. by apply hoare_ret. Qed.

Lemma yields_ret_any {A} P E (a : A) :
  yields good win D R P E (mret a) (λ _, True).
Proof. intros c0 d0 f0. by apply hoare_ret. Qed.

Lemma yields_bind {A B} P E (m : M A) (φ : A → Prop) (f : A → M B)
    (ψ : B → Prop) :
  yields good win D R P E m φ →
  (∀ a, φ a → yields good win D R P E (f a) ψ) →
  yields good win D R P E (m ≫= f) ψ.
Proof.
  intros Hm Hf c0 d0 f0. eapply hoare_bind; [apply Hm|]. intros a w [Ha Hw].
  by apply Hf.
Qed.

Lemma yields_throw {A} P E (e : exn) (φ : A → Prop) :
  E ⊆ P → yields good win D R P E (@throw A e) φ.
Proof.
  intros Hsub c0 d0 f0 w Hw. apply pin_inv_raise. by eapply pin_inv_sub.
Qed.

Lemma yields_gets {A} P E (f : world → A) :
  yields good win D R P E (gets f) (λ _, True).
Proof. by intros c0 d0 f0 w Hw. Qed.

Lemma yields_on_windows P E :
  yields good win D R P E (gets (λ w, bool_decide (system w = "Windows")))
    (eq win).
Proof.
  intros c0 d0 f0 w Hw. split; [|done]. cbn. by destruct Hw as [-> _].
Qed.

Lemma yields_name_any P E (x : string) :
  E ⊆ P → yields good win D R P E (name x) (λ _, True).
Proof.
  intros Hsub c0 d0 f0 w Hw. unfold name. destruct (globals w !! x); [done|].
  apply pin_inv_raise. by eapply pin_inv_sub.
Qed.

Lemma yields_name P E (x : string) (b : binding) :
  (x, b) ∈ P → E ⊆ P → yields good win D R P E (name x) (eq b).
Proof.
  intros Hx Hsub c0 d0 f0 w Hw. unfold name. pose proof Hw as (_ & HP & _).
  by rewrite (HP x b Hx).
Qed.

Lemma yields_perform P E (c : string) (bs : list binding) :
  (∀ f, good (Entry c bs f)) → E ⊆ P →
  yields good win D R P E (perform c bs)
    (eq (Binding (VObj c) (existsb loop_built bs))).
Proof.
  intros Hok Hsub c0 d0 f0 w (Hs & HP & (new & Hc & Hall) & Hfs).
  unfold perform. cbn zeta.
  assert (pin_inv good win D R P c0 d0 f0
            (set_calls
               (calls w ++ [Entry c bs (lib_raises w (length (calls w)))]) w))
    as Hw'.
  { split; [done|]. split; [done|]. split; [|done]. eexists (new ++ [_]).
    cbn. rewrite Hc, app_assoc. split; [done|].
    apply Forall_app. split; [done|]. by apply Forall_singleton. }
  destruct (lib_raises w (length (calls w))); [|done].
  apply pin_inv_raise. by eapply pin_inv_sub.
Qed.

Lemma yields_perform_any P E (c : string) (bs : list binding) :
  (∀ f, good (Entry c bs f)) → E ⊆ P →
  yields good win D R P E (perform c bs) (λ _, True).
Proof.
  intros Hok Hsub c0 d0 f0 w Hw.
  pose proof (yields_perform P E c bs Hok Hsub c0 d0 f0 w Hw) as H.
  destruct (perform c bs w) as [[a|e] w']; [|done]. by destruct H.
Qed.

End pinned.

(** A run from any state: its calls are good, and its directories and
    files have changed within [D] and [R]. *)
Lemma pinned_run {A} (good : entry → Prop) (D : list (list string)) (R : bool)
    (P : list (string * binding)) (m : M A) (w : world) :
  pinned good (bool_decide (system w = "Windows")) D R [] P [] m →
  Forall good (calls_since w (m w).2)
  ∧ fs_inv D R (dirs w) (files w) (m w).2.
Proof.
  intros Hm. specialize (Hm (calls w) (dirs w) (files w) w).
  assert (pin_inv good (bool_decide (system w = "Windows")) D R []
            (calls w) (dirs w) (files w) w) as Hw.
  { split; [done|]. split; [by intros x b Hx%elem_of_nil|]. split.
    - exists []. by rewrite app_nil_r.
    - split; [apply union_subseteq_l|]. by destruct R. }
  specialize (Hm Hw).
  assert (∃ P', pin_inv good (bool_decide (system w = "Windows")) D R P'
                  (calls w) (dirs w) (files w) (m w).2)
    as (P' & _ & _ & (new & Hnew & Hall) & Hfs).
  { destruct (m w) as [[a|e] w']; by eexists. }
  split; [|done]. unfold calls_since. by rewrite Hnew, drop_app_length.
Qed.

(** [(x, b) ∈ P], [E ⊆ P] and whether a call is good, by computation. *)
Ltac in_check :=
  solve [repeat first [apply list_elem_of_here | apply list_elem_of_further]].

Ltac sub_check :=
  first [apply list_subseteq_nil | reflexivity | list_check].

Ltac good_check :=
  intros ?; lazy; first [exact I | reflexivity | assumption].

Ltac head_of t :=
  lazymatch t with
  | ?f _ => head_of f
  | _ => t
  end.

(** A [match] on a value that is known. *)
Ltac known_match x :=
  let y := eval cbv in x in
  let h := head_of y in
  is_constructor h; change x with y; cbv beta iota.

(** After a value: what is known of it replaces it, or stays as a
    hypothesis. *)
Ltac after_value :=
  let a := fresh "a" in
  let Ha := fresh "Ha" in
  intros a Ha; cbv beta in Ha;
  lazymatch type of Ha with
  | True => clear Ha
  | _ = a => subst a
  | _ => idtac
  end;
  cbv beta iota.

Ltac forget_value :=
  lazymatch goal with
  | |- @yields ?A _ _ _ _ _ _ _ ?o =>
      tryif is_evar o then unify o (λ _ : A, True) else idtac
  end.

Ltac yields_step :=
  lazymatch goal with
  | |- yields _ _ _ _ _ _ (mret _) _ =>
      first [apply yields_ret | apply yields_ret_head | apply yields_ret_any]
  | |- yields _ _ _ _ _ _ (_ ≫= _) _ =>
      eapply yields_bind; [solve [repeat yields_step]|after_value]
  | |- yields _ _ _ _ _ _ (throw _) _ =>
      forget_value; apply yields_throw; sub_check
  | |- yields _ _ _ _ _ _ (name _) _ =>
      first [ apply yields_name; [in_check|sub_check]
            | apply yields_name_any; sub_check ]
  | |- yields _ _ _ _ _ _ (gets (λ w, bool_decide (system w = "Windows"))) _ =>
      apply yields_on_windows
  | |- yields _ _ _ _ _ _ (gets _) _ => apply yields_gets
  | |- yields _ _ _ _ _ _ (perform _ _) _ =>
      first [ apply yields_perform; [good_check|sub_check]
            | apply yields_perform_any; [good_check|sub_check] ]
  | |- yields _ _ _ _ _ _ (match ?x with _ => _ end) _ =>
      first [known_match x | forget_value; destruct x]
  | |- yields _ _ _ _ _ _ (eval_args _) _ => stmt_fixpoints
  | |- yields _ _ _ _ _ _ ?m _ => unfold_head m
  end.

(** Names in [keep] are pinned where their value is known. *)
Ltac pinned_step keep :=
  lazymatch goal with
  | |- pinned _ _ _ _ _ _ _ (mret _) =>
      first [apply pinned_ret | apply pinned_ret_sub; list_check]
  | |- pinned _ _ _ _ _ _ _ (@mbind _ _ unit _ _ _) =>
      eapply pinned_bind; [|intros ?]
  | |- pinned _ _ _ _ _ _ _ (_ ≫= _) =>
      eapply pinned_bind_expr; [solve [repeat yields_step]|after_value]
  | |- pinned _ _ _ _ _ _ _ (throw _) => apply pinned_throw; sub_check
  | |- pinned _ _ _ _ _ _ _ (try_except _ _ _) => eapply pinned_try; [| |shelve]
  | |- pinned _ _ _ _ _ _ _ (store ?x _) =>
      let k := eval lazy in (existsb (String.eqb x) keep) in
      lazymatch k with
      | true => first [ eapply pinned_store; lazy; reflexivity
                      | eapply pinned_store_any; lazy; reflexivity ]
      | false => eapply pinned_store_any; lazy; reflexivity
      end
  | |- pinned _ _ _ _ _ _ _ (fs_makedirs _ _) =>
      apply pinned_fs_makedirs; [list_check|sub_check]
  | |- pinned _ _ _ _ _ _ _ (fs_remove _) =>
      apply pinned_fs_remove; [reflexivity|sub_check]
  | |- pinned _ _ _ _ _ _ _ (match ?x with _ => _ end) =>
      first [known_match x | destruct x]
  | |- pinned _ _ _ _ _ _ _ (assign_lits _) => stmt_fixpoints
  | |- pinned _ _ _ _ _ _ _ (mark_loop_built _) => stmt_fixpoints
  | |- pinned _ _ _ _ _ _ _ (bind_vars _) => stmt_fixpoints
  | |- pinned _ _ _ _ _ _ _ (run_cells _) => stmt_fixpoints
  | |- pinned _ _ _ _ _ _ _ ?m => unfold_head m
  end.

Ltac pinned_cells keep :=
  cbn [run_cells];
  repeat (eapply pinned_bind;
          [unshelve (repeat pinned_step keep); list_check|intros _]);
  apply pinned_ret.

Lemma zaidel_pinned (win : bool) :
  ∃ P, pinned (zaidel_given (if win then "mfusg.exe" else "mfusg")) win
         zaidel_dirs true [] P [] zaidel.notebook.
Proof.
  unfold zaidel.notebook.
  destruct win; eexists;
    pinned_cells ["exe_name"; "mfexe"; "modelname"; "modelpth"; "mf";
                  "headfile"].
Qed.

Lemma mt3d_pinned (win : bool) :
  ∃ P, pinned (mt3d_given (if win then "mfnwt.exe" else "mfnwt")
                 (if win then "mt3dusgs.exe" else "mt3dusgs")) win
         mt3d_dirs false [] P [] mt3d.notebook.
Proof.
  unfold mt3d.notebook.
  destruct win; eexists;
    pinned_cells ["modelpth"; "modelname"; "mfexe"; "mtexe"; "mf"; "mt"].
Qed.

Ltac callee_cases H :=
  repeat (apply elem_of_cons in H as [H|H]); [..|by apply elem_of_nil in H].

(** X24.  The model, its packages and its head file.  In every run of the
    MODFLOW-USG notebook, whichever calls fail: [MfUsg] is given the model
    name [zaidel], the executable [mfusg] ([mfusg.exe] on Windows) and the
    workspace [data/zaidel]; every package, [write_input] and [run_model]
    are given the model that [MfUsg] returned; and [HeadFile] is given
    [data/zaidel/zaidel.hds], the head file of that workspace. *)
Theorem zaidel_calls_share_the_model (w : world) (e : entry) :
  e ∈ calls_since w (zaidel.notebook w).2 →
  (callee e = "flopy.mfusg.MfUsg" →
   args e = [Binding (VStr "zaidel") false;
             Binding (VStr (exe_on w "mfusg")) false;
             Binding (VPath ["data"; "zaidel"]) false])
  ∧ (callee e ∈ zaidel_model_calls →
     head (args e) = Some (Binding (VObj "flopy.mfusg.MfUsg") false))
  ∧ (callee e = "flopy.utils.HeadFile" →
     args e = [Binding (VPath ["data"; "zaidel"; "zaidel.hds"]) false]).
Proof.
  intros He.
  destruct (zaidel_pinned (bool_decide (system w = "Windows"))) as [P HP].
  pose proof (pinned_run _ _ _ _ _ w HP) as [Hall _].
  rewrite Forall_forall in Hall. specialize (Hall e He).
  unfold zaidel_given in Hall. repeat split.
  - intros Hc. rewrite Hc in Hall. cbn in Hall. rewrite Hall. unfold exe_on.
    by destruct (bool_decide (system w = "Windows")).
  - intros Hc. unfold zaidel_model_calls in *.
    callee_cases Hc; rewrite Hc in Hall; exact Hall.
  - intros Hc. rewrite Hc in Hall. exact Hall.
Qed.

Lemma zaidel_calls_share_the_model_witness :
  Entry "flopy.utils.HeadFile"
    [Binding (VPath ["data"; "zaidel"; "zaidel.hds"]) false] false
    ∈ calls_since plain_world (zaidel.notebook plain_world).2
  ∧ Entry "flopy.mfusg.MfUsg"
      [Binding (VStr "zaidel") false; Binding (VStr "mfusg") false;
       Binding (VPath ["data"; "zaidel"]) false] false
    ∈ calls_since plain_world (zaidel.notebook plain_world).2
  ∧ args (Entry "flopy.utils.HeadFile"
            [Binding (VPath ["data"; "zaidel"; "zaidel.hds"]) false] false)
    = [Binding (VPath ["data"; "zaidel"; "zaidel.hds"]) false].
Proof.
  assert (Entry "flopy.utils.HeadFile"
            [Binding (VPath ["data"; "zaidel"; "zaidel.hds"]) false] false
            ∈ calls_since plain_world (zaidel.notebook plain_world).2) as Hin.
  { apply (bool_decide_unpack _). vm_compute. exact I. }
  assert (Entry "flopy.mfusg.MfUsg"
            [Binding (VStr "zaidel") false; Binding (VStr "mfusg") false;
             Binding (VPath ["data"; "zaidel"]) false] false
            ∈ calls_since plain_world (zaidel.notebook plain_world).2) as Hmf.
  { apply (bool_decide_unpack _). vm_compute. exact I. }
  split; [exact Hin|]. split; [exact Hmf|].
  exact (proj2 (proj2 (zaidel_calls_share_the_model _ _ Hin)) eq_refl).
Defined.

(** X25.  Two models, one workspace.  In every run of the MT3D-USGS notebook,
    whichever calls fail: [Modflow] is given the model name [no3], the
    executable [mfnwt] and the workspace [./temp/no3]; [Mt3dms] is given
    the flow model that [Modflow] returned, the same name and workspace,
    and the executable [mt3dusgs] (both executables with [.exe] on
    Windows); every package of the flow model and [mf.write_input] are
    given the flow model, every package of the transport model and
    [mt.write_input] the transport model. *)
Theorem mt3d_calls_share_the_models (w : world) (e : entry) :
  e ∈ calls_since w (mt3d.notebook w).2 →
  (callee e = "flopy.modflow.Modflow" →
   args e = [Binding (VStr "no3") false;
             Binding (VStr (exe_on w "mfnwt")) false;
             Binding (VPath ["."; "temp"; "no3"]) false])
  ∧ (callee e = "flopy.mt3d.Mt3dms" →
     args e = [Binding (VObj "flopy.modflow.Modflow") false;
               Binding (VStr "no3") false;
               Binding (VPath ["."; "temp"; "no3"]) false;
               Binding (VStr (exe_on w "mt3dusgs")) false])
  ∧ (callee e ∈ mt3d_flow_calls →
     head (args e) = Some (Binding (VObj "flopy.modflow.Modflow") false))
  ∧ (callee e ∈ mt3d_transport_calls →
     head (args e) = Some (Binding (VObj "flopy.mt3d.Mt3dms") false)).
Proof.
  intros He.
  destruct (mt3d_pinned (bool_decide (system w = "Windows"))) as [P HP].
  pose proof (pinned_run _ _ _ _ _ w HP) as [Hall _].
  rewrite Forall_forall in Hall. specialize (Hall e He).
  unfold mt3d_given in Hall. repeat split.
  - intros Hc. rewrite Hc in Hall. cbn in Hall. rewrite Hall. unfold exe_on.
    by destruct (bool_decide (system w = "Windows")).
  - intros Hc. rewrite Hc in Hall. cbn in Hall. rewrite Hall. unfold exe_on.
    by destruct (bool_decide (system w = "Windows")).
  - intros Hc. unfold mt3d_flow_calls in *.
    callee_cases Hc; rewrite Hc in Hall; exact Hall.
  - intros Hc. unfold mt3d_transport_calls in *.
    callee_cases Hc; rewrite Hc in Hall; exact Hall.
Qed.

Lemma mt3d_calls_share_the_models_witness :
  Entry "flopy.mt3d.Mt3dms"
    [Binding (VObj "flopy.modflow.Modflow") false;
     Binding (VStr "no3") false;
     Binding (VPath ["."; "temp"; "no3"]) false;
     Binding (VStr "mt3dusgs") false] false
    ∈ calls_since plain_world (mt3d.notebook plain_world).2
  ∧ args (Entry "flopy.mt3d.Mt3dms"
            [Binding (VObj "flopy.modflow.Modflow") false;
             Binding (VStr "no3") false;
             Binding (VPath ["."; "temp"; "no3"]) false;
             Binding (VStr "mt3dusgs") false] false)
    = [Binding (VObj "flopy.modflow.Modflow") false;
       Binding (VStr "no3") false;
       Binding (VPath ["."; "temp"; "no3"]) false;
       Binding (VStr (exe_on plain_world "mt3dusgs")) false].
Proof.
  assert (Entry "flopy.mt3d.Mt3dms"
            [Binding (VObj "flopy.modflow.Modflow") false;
             Binding (VStr "no3") false;
             Binding (VPath ["."; "temp"; "no3"]) false;
             Binding (VStr "mt3dusgs") false] false
            ∈ calls_since plain_world (mt3d.notebook plain_world).2) as Hin.
  { apply (bool_decide_unpack _). vm_compute. exact I. }
  split; [exact Hin|].
  exact (proj1 (proj2 (mt3d_calls_share_the_models _ _ Hin)) eq_refl).
Defined.

(** X26.  What the notebooks leave on disk.  In every run, from any state of
    the kernel and of the working directory and whichever calls fail, the
    notebooks' own [os] calls make no directory but the model workspace and
    the directory above it ([temp] and [temp/no3] for the first notebook,
    [data] and [data/zaidel] for the second) and make no file; the first
    notebook removes no file either. *)
Theorem notebooks_leave_only_the_workspace (w : world) :
  (files (mt3d.notebook w).2 = files w
   ∧ ∀ q, q ∈ dirs (mt3d.notebook w).2 →
          q ∈ dirs w ∨ q = ["temp"] ∨ q = ["temp"; "no3"])
  ∧ (files (zaidel.notebook w).2 ⊆ files w
     ∧ ∀ q, q ∈ dirs (zaidel.notebook w).2 →
            q ∈ dirs w ∨ q = ["data"] ∨ q = ["data"; "zaidel"]).
Proof.
  destruct (mt3d_pinned (bool_decide (system w = "Windows"))) as [P1 H1].
  destruct (zaidel_pinned (bool_decide (system w = "Windows"))) as [P2 H2].
  destruct (pinned_run _ _ _ _ _ w H1) as (_ & Hd1 & Hf1).
  destruct (pinned_run _ _ _ _ _ w H2) as (_ & Hd2 & Hf2).
  split; (split; [done|]); intros q Hq.
  - apply Hd1, elem_of_union in Hq as [?|Hq]; [by left|right].
    apply elem_of_list_to_set in Hq. unfold mt3d_dirs in Hq.
    apply elem_of_cons in Hq as [?|Hq]; [by left|right].
    by apply list_elem_of_singleton in Hq.
  - apply Hd2, elem_of_union in Hq as [?|Hq]; [by left|right].
    apply elem_of_list_to_set in Hq. unfold zaidel_dirs in Hq.
    apply elem_of_cons in Hq as [?|Hq]; [by left|right].
    by apply list_elem_of_singleton in Hq.
Qed.

